(** * The child-process launcher of bpftrace (src/child.cpp)

    A shallow embedding of [ChildProc] and of the code that runs in the
    cloned child.  The program talks to the kernel all the time, so the
    embedding is a state-and-exception monad over a [world] that holds

    - the answers the kernel is going to give (a script, consumed one answer
      per system call),
    - the trace of everything the program did so far, in program order,
    - [errno], and
    - the heap blocks currently owned by [std::unique_ptr]s.

    Every function below follows its C++ counterpart statement by statement. *)

From stdpp Require Import gmap strings list pretty.
From Stdlib Require Import ZArith Lia Ascii.

Open Scope Z_scope.

(** ** Platform constants (Linux, glibc headers) *)

Definition SIGTRAP : Z := 5.
Definition SIGKILL : Z := 9.
Definition SIGTERM : Z := 15.
Definition SIGCHLD : Z := 17.
Definition SIGSTOP : Z := 19.

Definition EINTR : Z := 4.
Definition ECHILD : Z := 10.
Definition EINVAL : Z := 22.

Definition WNOHANG : Z := 1.
Definition EFD_CLOEXEC : Z := 524288.
Definition PR_SET_PDEATHSIG : Z := 1.

Definition PTRACE_TRACEME : Z := 0.
Definition PTRACE_CONT : Z := 7.
Definition PTRACE_DETACH : Z := 17.
Definition PTRACE_SETOPTIONS : Z := 16896.
Definition PTRACE_O_TRACEEXEC : Z := 16.
Definition PTRACE_EVENT_EXEC : Z := 4.

(** ** Constants of child.cpp *)

Definition maxargs : Z := 256.
Definition CHILD_GO : Z := 103.      (* 'g' *)
Definition CHILD_PTRACE : Z := 112.  (* 'p' *)
Definition STACK_SIZE : Z := 64 * 1024.

(** The size of [struct child_args], a vector and an int (LP64). *)
Definition sizeof_child_args : Z := 32.

(** ** The wait-status macros of <sys/wait.h>

    [int] values are kept as [Z]; [Z.land] and [Z.shiftr] agree with the
    two's complement operations of the compiler on them. *)

Definition WEXITSTATUS (s : Z) : Z := Z.shiftr (Z.land s 65280) 8.
Definition WTERMSIG (s : Z) : Z := Z.land s 127.
Definition WSTOPSIG (s : Z) : Z := WEXITSTATUS s.
Definition WIFEXITED (s : Z) : bool := WTERMSIG s =? 0.

(** The cast to [signed char] of a value in [0, 256). *)
Definition signed_char (v : Z) : Z := if 128 <=? v then v - 256 else v.

Definition WIFSIGNALED (s : Z) : bool :=
  0 <? Z.shiftr (signed_char (Z.land s 127 + 1)) 1.
Definition WIFSTOPPED (s : Z) : bool := Z.land s 255 =? 127.
Definition WCOREDUMP (s : Z) : bool := negb (Z.land s 128 =? 0).

(** ** Exceptions

    The two exception classes the file throws.  [std::system_error] derives
    from [std::runtime_error], so a handler for the latter catches both. *)

Inductive exn : Type :=
  | runtime_error (what : string)
  | system_error (code : Z) (what : string).

(** ** The kernel interface *)

(** What [clone] hands to [childfn]. *)
Record child_args : Type := mk_child_args {
  cmd : list string;
  event_fd : Z
}.

(** A heap block, named by its allocation number. *)
Definition block : Type := nat.

Inductive call : Type :=
  | Eventfd (initval flags : Z)
  | Clone (stack : block) (top : Z) (flags : Z) (arg : child_args)
  | Close (fd : Z)
  | Write (fd : Z) (token : Z) (count : Z)
  | Waitpid (pid : Z) (options : Z)
  | Kill (pid : Z) (sig : Z)
  | Ptrace (request : Z) (pid : Z) (addr : Z) (data : Z)
  | Prctl (option : Z) (arg2 : Z)
  | Read (fd : Z) (count : Z)
  | Getpid
  | Execve (path : string) (argv : list string) (envp : list string).

(** One answer of the kernel: the value the call returns, the [errno] it
    leaves behind when that value is negative, and what the out-parameter
    of the call ([*wstatus] of waitpid, the buffer of read) holds once the
    call is over. *)
Record response : Type := mk_response {
  res_ret : Z;
  res_errno : Z;
  res_out : Z
}.

Inductive level : Type := BUG | WARNING.

Inductive event : Type :=
  | Sys (c : call) (r : response)
  | New (b : block) (size : Z)
  | Delete (b : block)
  | Perror (msg : string)
  | Log (l : level) (msg : string).

Record world : Type := mk_world {
  script : list response;
  trace : list event;
  errno : Z;
  heap : gset block;
  next_block : block
}.

(** ** The monad *)

(** Why a computation stops without returning or throwing. *)
Inductive halt : Type :=
  | blocked           (* the kernel never answers the pending call *)
  | assertion_failed  (* [assert] aborts the process *)
  | undefined         (* the C++ standard gives the step no meaning *)
  | image_replaced.   (* [execve] succeeded: this code is gone *)

Inductive outcome (S A : Type) : Type :=
  | Ret (a : A) (s : S)
  | Throw (e : exn) (s : S)
  | Stop (h : halt) (s : S).

Arguments Ret {S A} a s.
Arguments Throw {S A} e s.
Arguments Stop {S A} h s.

Definition M (S A : Type) : Type := S → outcome S A.

Definition ret {S A} (a : A) : M S A := λ s, Ret a s.

Definition bind {S A B} (m : M S A) (k : A → M S B) : M S B :=
  λ s, match m s with
       | Ret a s' => k a s'
       | Throw e s' => Throw e s'
       | Stop h s' => Stop h s'
       end.

Definition throw {S A} (e : exn) : M S A := λ s, Throw e s.
Definition stop {S A} (h : halt) : M S A := λ s, Stop h s.

(** [try { body } catch (const std::runtime_error& e) { handler }] *)
Definition try_catch {S A} (body : M S A) (handler : exn → M S A) : M S A :=
  λ s, match body s with
       | Throw e s' => handler e s'
       | o => o
       end.

Definition gets {S A} (f : S → A) : M S A := λ s, Ret (f s) s.
Definition modify {S} (f : S → S) : M S unit := λ s, Ret tt (f s).

Declare Scope cpp_scope.
Delimit Scope cpp_scope with cpp.
Notation "x <- m ;; k" := (bind m (λ x, k))
  (at level 100, m at next level, right associativity) : cpp_scope.
Notation "m ;; k" := (bind m (λ _, k))
  (at level 100, right associativity) : cpp_scope.
Notation "'when' b 'then' m" := (if b then m else ret tt)
  (at level 99, b at level 9, m at level 99) : cpp_scope.
Open Scope cpp_scope.

(** ** Primitive steps on the world *)

Definition log_event (e : event) (w : world) : world :=
  mk_world (script w) (trace w ++ [e]) (errno w) (heap w) (next_block w).

(** A system call takes the next answer of the script; a failing call
    sets [errno], a successful one leaves it alone. *)
Definition sys (c : call) : M world response :=
  λ w, match script w with
       | [] => Stop blocked w
       | r :: rest =>
           Ret r (mk_world rest (trace w ++ [Sys c r])
                    (if res_ret r <? 0 then res_errno r else errno w)
                    (heap w) (next_block w))
       end.

Definition emit (e : event) : M world unit := modify (log_event e).

(** [std::make_unique] followed, at the end of the enclosing scope, by the
    destructor of the [unique_ptr]: the block is released however the
    scope is left, by return or by exception. *)
Definition alloc (size : Z) : M world block :=
  λ w, let b := next_block w in
       Ret b (mk_world (script w) (trace w ++ [New b size]) (errno w)
                ({[b]} ∪ heap w) (Datatypes.S b)).

Definition free (b : block) : M world unit :=
  λ w, Ret tt (mk_world (script w) (trace w ++ [Delete b]) (errno w)
                 (heap w ∖ {[b]}) (next_block w)).

Definition with_unique {A} (size : Z) (scope : block → M world A) : M world A :=
  b <- alloc size ;;
  λ w, match scope b w with
       | Ret a w' => (free b ;; ret a) w'
       | Throw e w' => (free b ;; throw e) w'
       | Stop h w' => Stop h w'
       end.

(** [SYS_ERROR(msg)]: builds the exception from the current [errno]. *)
Definition SYS_ERROR (msg : string) : M world exn :=
  gets (λ w, system_error (errno w) msg).

(** [report_status]: always throws. *)
Definition report_status {S} (wstatus : Z) : M S unit :=
  let msg :=
    if WIFSTOPPED wstatus then
      "Child stopped unexpectedly, signal: " +:+ pretty (WSTOPSIG wstatus)
    else if WIFEXITED wstatus then
      "Child exited unexpectedly"
    else if WIFSIGNALED wstatus then
      if WCOREDUMP wstatus then "Child core dumped"
      else "Child aborted by signal: " +:+ pretty (WTERMSIG wstatus)
    else "" in
  throw (runtime_error msg).

(** ** The tracker object *)

(** Modelled from the spec: [enum class State] is declared in child.h; the
    four states of the lifecycle, under the names child.cpp uses. *)
Inductive State : Type := FORKED | RUNNING | DIED | PTRACE_PAUSE.

Global Instance State_eq_dec : EqDecision State.
Proof. solve_decision. Defined.

(** Modelled from the spec: the class declaration (child.h) is not among
    the sources.  The fields are the ones child.cpp reads and writes; the
    exit code and the terminating signal are optional and empty until the
    child is seen to die. *)
Record ChildProc : Type := mk_ChildProc {
  child_pid_ : Z;
  child_event_fd_ : Z;
  state_ : State;
  exit_code_ : option Z;
  term_signal_ : option Z
}.

(** A method runs on the object and on the world. *)
Record process : Type := mk_process {
  self : ChildProc;
  os : world
}.

Definition kernel {A} (m : M world A) : M process A :=
  λ p, match m (os p) with
       | Ret a w => Ret a (mk_process (self p) w)
       | Throw e w => Throw e (mk_process (self p) w)
       | Stop h w => Stop h (mk_process (self p) w)
       end.

Definition this {A} (f : ChildProc → A) : M process A := gets (λ p, f (self p)).

Definition set_state_ (s : State) : M process unit :=
  modify (λ p, mk_process
    (mk_ChildProc (child_pid_ (self p)) (child_event_fd_ (self p)) s
       (exit_code_ (self p)) (term_signal_ (self p))) (os p)).

Definition set_exit_code_ (c : Z) : M process unit :=
  modify (λ p, mk_process
    (mk_ChildProc (child_pid_ (self p)) (child_event_fd_ (self p)) (state_ (self p))
       (Some c) (term_signal_ (self p))) (os p)).

Definition set_term_signal_ (c : Z) : M process unit :=
  modify (λ p, mk_process
    (mk_ChildProc (child_pid_ (self p)) (child_event_fd_ (self p)) (state_ (self p))
       (exit_code_ (self p)) (Some c)) (os p)).

(** Modelled from the spec: [LOG] (log.h) is not among the sources; a BUG
    or WARNING record is written and execution continues. *)
Definition LOG (l : level) (msg : string) : M process unit :=
  kernel (emit (Log l msg)).

(** Modelled from the spec: [died()] is declared in child.h; the process
    has died when the state is Dead. *)
Definition died : M process bool := this (λ c, bool_decide (state_ c = DIED)).

Definition check_wstatus (wstatus : Z) : M process unit :=
  if WIFEXITED wstatus then
    set_exit_code_ (WEXITSTATUS wstatus) ;; set_state_ DIED
  else if WIFSIGNALED wstatus then
    set_term_signal_ (WTERMSIG wstatus) ;; set_state_ DIED
  else ret tt.

(** [while ((ret = waitpid(...)) < 0 && errno == EINTR);]
    Each turn consumes one answer, so one more turn than the script has
    answers is always enough: the loop ends or the world blocks first. *)
Fixpoint waitpid_retry (turns : nat) (pid flags : Z) : M world response :=
  match turns with
  | O => stop blocked
  | Datatypes.S n =>
      r <- sys (Waitpid pid flags) ;;
      e <- gets errno ;;
      if (res_ret r <? 0) && (e =? EINTR) then waitpid_retry n pid flags
      else ret r
  end.

(** [check_child(bool block)].  Modelled from the spec: the default of
    [block] is set in child.h, which is not among the sources; [isAlive] is
    a non-blocking poll, so [check_child()] is [check_child false]. *)
Definition check_child (block : bool) : M process unit :=
  let status := 0 in
  let flags := WNOHANG in
  let flags := if block then Z.land flags (Z.lnot WNOHANG) else flags in
  pid <- this child_pid_ ;;
  turns <- gets (λ p, Datatypes.S (length (script (os p)))) ;;
  r <- kernel (waitpid_retry turns pid flags) ;;
  (* waitpid stores a status only when it reports a child *)
  let status := if 0 <? res_ret r then res_out r else status in
  e <- kernel (gets errno) ;;
  proceed <-
    (if res_ret r <? 0 then
       if e =? EINVAL then LOG BUG "waitpid() EINVAL" ;; ret true
       else
         LOG WARNING ("waitpid(" +:+ pretty pid +:+
                      ") returned unexpected error: " +:+ pretty e +:+
                      ". Marking the child as dead") ;;
         set_state_ DIED ;;
         ret false
     else ret true) ;;
  if negb proceed then ret tt
  else if res_ret r =? 0 then ret tt
  else check_wstatus status.

Definition is_alive : M process bool :=
  d <- died ;;
  (when (negb d) then check_child false) ;;
  d <- died ;;
  ret (negb d).

Definition terminate (force : bool) : M process unit :=
  (* Make sure child didn't terminate in mean time *)
  check_child false ;;
  d <- died ;;
  if d then ret tt
  else
    pid <- this child_pid_ ;;
    (when (pid <=? 1) then LOG BUG "child_pid <= 1") ;;
    let sig := if force then SIGKILL else SIGTERM in
    kernel (sys (Kill pid sig)) ;;
    st <- this state_ ;;
    (when (bool_decide (st = PTRACE_PAUSE)) then
       (kernel (sys (Ptrace PTRACE_DETACH pid 0 0)) ;; ret tt)) ;;
    check_child force.

Definition assert {S} (b : bool) : M S unit :=
  if b then ret tt else stop assertion_failed.

Definition resume : M process unit :=
  st <- this state_ ;;
  assert (bool_decide (st = PTRACE_PAUSE)) ;;
  pid <- this child_pid_ ;;
  kernel (sys (Ptrace PTRACE_DETACH pid 0 0)) ;;
  ret tt.

Definition run (pause : bool) : M process unit :=
  alive <- is_alive ;;
  if negb alive then throw (runtime_error "Child died unexpectedly")
  else
    st <- this state_ ;;
    assert (bool_decide (st = FORKED)) ;;
    let data := if pause then CHILD_PTRACE else CHILD_GO in
    fd <- this child_event_fd_ ;;
    pid <- this child_pid_ ;;
    r <- kernel (sys (Write fd data 8)) ;;
    if res_ret r <? 0 then
      kernel (sys (Close fd)) ;;
      terminate true ;;
      e <- kernel (SYS_ERROR "Failed to write 'go' event fd") ;;
      throw e
    else
      kernel (sys (Close fd)) ;;
      if negb pause then set_state_ RUNNING
      else
        set_state_ PTRACE_PAUSE ;;
        (* After receiving the ptrace message the child will setup
           ptrace and SIGSTOP itself. *)
        r <- kernel (sys (Waitpid pid 0)) ;;
        (* [wstatus] is not initialised: when the call stores nothing,
           [res_out] stands for whatever the variable happens to hold *)
        let wstatus := res_out r in
        e <- kernel (gets errno) ;;
        (when ((res_ret r <? 0) && (e =? ECHILD)) then
           throw (runtime_error "Child died unexpectedly")) ;;
        (when (negb (WIFSTOPPED wstatus) || negb (WSTOPSIG wstatus =? SIGSTOP)) then
           report_status wstatus) ;;
        try_catch
          (r <- kernel (sys (Ptrace PTRACE_SETOPTIONS pid 0 PTRACE_O_TRACEEXEC)) ;;
           (when (res_ret r <? 0) then
              (e <- kernel (SYS_ERROR "Failed to PTRACE_SETOPTIONS child") ;; throw e)) ;;
           r <- kernel (sys (Ptrace PTRACE_CONT pid 0 0)) ;;
           (when (res_ret r <? 0) then
              (e <- kernel (SYS_ERROR "Failed to PTRACE_CONT child") ;; throw e)) ;;
           r <- kernel (sys (Waitpid pid 0)) ;;
           (when (res_ret r <? 0) then
              (e <- kernel (SYS_ERROR "Error while waiting for child") ;; throw e)) ;;
           let wstatus := if 0 <? res_ret r then res_out r else wstatus in
           if WIFSTOPPED wstatus &&
              (Z.shiftr wstatus 8 =? Z.lor SIGTRAP (Z.shiftl PTRACE_EVENT_EXEC 8))
           then ret tt
           else report_status wstatus)
          (λ _,
             kernel (sys (Ptrace PTRACE_DETACH pid 0 0)) ;;
             terminate true ;;
             e <- kernel (SYS_ERROR "Failed to write 'go' event fd") ;;
             throw e).

(** [~ChildProc] *)
Definition destroy : M process unit :=
  fd <- this child_event_fd_ ;;
  (when (0 <=? fd) then (kernel (sys (Close fd)) ;; ret tt)) ;;
  alive <- is_alive ;;
  when alive then terminate true.

(** ** Command validation, launch, and the body of the child

    The helpers of util/paths.h and util/strings.h and the process
    environment are not among the sources; the code is embedded over
    any choice of them. *)

Section Launcher.

(** [util::resolve_binary_path]: the executable candidates of a name. *)
Variable resolve_binary_path : string → list string.
(** [util::abs_path]: the canonical path, if there is one. *)
Variable abs_path : string → option string.
(** [util::split_string] *)
Variable split_string : string → ascii → list string.
(** [environ] *)
Variable environ : list string.

Definition validate_cmd {S} (cmd : list string) : M S (list string) :=
  match cmd with
  | [] => stop undefined (* cmd[0] of an empty vector *)
  | cmd0 :: args =>
      let paths := resolve_binary_path cmd0 in
      cmd <-
        match paths with
        | [] =>
            throw (runtime_error ("path '" +:+ cmd0 +:+
                                  "' does not exist or is not executable"))
        | [front] => ret (front :: args)
        | front :: _ =>
            let uniq_abs_path : gset string := list_to_set (omap abs_path paths) in
            if (size uniq_abs_path =? 1)%nat then ret (front :: args)
            else
              throw (runtime_error
                       ("path '" +:+ cmd0 +:+
                        "' must refer to a unique binary but matched " +:+
                        pretty (length paths) +:+ " binaries"))
        end ;;
      if maxargs - 1 <=? Z.of_nat (length cmd) then
        throw (runtime_error ("Too many arguments for command (" +:+
                              pretty (length cmd) +:+ " > " +:+
                              pretty (maxargs - 1) +:+ ")"))
      else ret cmd
  end.

(** [ChildProc::ChildProc].  The two [unique_ptr]s are locals of the
    constructor. *)
Definition launch (cmdline : string) : M world ChildProc :=
  with_unique sizeof_child_args (λ child_args_,
  with_unique STACK_SIZE (λ child_stack,
    cmd <- validate_cmd (split_string cmdline " ") ;;
    r <- sys (Eventfd 0 EFD_CLOEXEC) ;;
    let event_fd := res_ret r in
    (* the error object is built and dropped: nothing is thrown *)
    (when (event_fd <? 0) then
       (_ <- SYS_ERROR "Failed to create event fd" ;; ret tt)) ;;
    r <- sys (Clone child_stack STACK_SIZE SIGCHLD (mk_child_args cmd event_fd)) ;;
    let cpid := res_ret r in
    if cpid <=? 0 then
      sys (Close event_fd) ;;
      e <- SYS_ERROR "Failed to clone child" ;;
      throw e
    else
      ret (mk_ChildProc cpid event_fd FORKED None None))).

(** [childfn], run by the clone in its own copy of the address space.
    It returns the exit status of the child, unless [execve] succeeds. *)
Definition childfn (args : child_args) : M world Z :=
  (* Receive SIGTERM if parent dies *)
  r <- sys (Prctl PR_SET_PDEATHSIG SIGTERM) ;;
  if negb (res_ret r =? 0) then
    emit (Perror "child: prctl(PR_SET_PDEATHSIG)") ;; ret 10
  else
    (* argv has maxargs slots, the last one written is the terminator *)
    (when (maxargs <=? Z.of_nat (length (cmd args))) then stop undefined) ;;
    let argv := cmd args in
    r <- sys (Read (event_fd args) 8) ;;
    if res_ret r <? 0 then
      emit (Perror "child: failed to read 'go' event fd") ;; ret 11
    else
      let bf := res_out r in
      sys (Close (event_fd args)) ;;
      (when (bf =? CHILD_PTRACE) then
         (r <- sys (Ptrace PTRACE_TRACEME 0 0 0) ;;
          (when (res_ret r <? 0) then emit (Perror "child: ptrace(traceme) failed")) ;;
          me <- sys Getpid ;;
          r <- sys (Kill (res_ret me) SIGSTOP) ;;
          when (negb (res_ret r =? 0)) then emit (Perror "child: failed to stop"))) ;;
      match argv with
      | [] => stop undefined (* argv[0] is the null terminator *)
      | argv0 :: _ =>
          r <- sys (Execve argv0 argv environ) ;;
          if 0 <=? res_ret r then stop image_replaced
          else
            emit (Perror ("child: failed to execve: " +:+ argv0)) ;; ret 12
      end.

End Launcher.

(** ** Reading traces *)

Definition calls (t : list event) : list call :=
  omap (λ e, match e with Sys c _ => Some c | _ => None end) t.

Definition is_kill (c : call) : bool :=
  match c with Kill _ _ => true | _ => false end.
Definition is_detach (c : call) : bool :=
  match c with Ptrace rq _ _ _ => rq =? PTRACE_DETACH | _ => false end.
Definition is_close (fd : Z) (c : call) : bool :=
  match c with Close fd' => fd' =? fd | _ => false end.
Definition is_blocking_wait (pid : Z) (c : call) : bool :=
  match c with
  | Waitpid pid' flags => (pid' =? pid) && (Z.land flags WNOHANG =? 0)
  | _ => false
  end.

(** A fresh world that will get the answers [rs]. *)
Definition boot (rs : list response) : world := mk_world rs [] 0 ∅ 0%nat.

Definition ok (v : Z) : response := mk_response v 0 0.
Definition failed (e : Z) : response := mk_response (-1) e 0.
Definition reported (pid status : Z) : response := mk_response pid 0 status.

(** The failures of the launcher, by the names the design gives them. *)
Definition not_found (name : string) : exn :=
  runtime_error ("path '" +:+ name +:+ "' does not exist or is not executable").
Definition ambiguous_binary (name : string) (n : nat) : exn :=
  runtime_error ("path '" +:+ name +:+
                 "' must refer to a unique binary but matched " +:+
                 pretty n +:+ " binaries").
Definition too_many_arguments (n : nat) : exn :=
  runtime_error ("Too many arguments for command (" +:+ pretty n +:+ " > " +:+
                 pretty (maxargs - 1) +:+ ")").

(** An answer that makes the retry loop of [check_child] go round again. *)
Definition interrupted (r : response) : bool :=
  (res_ret r <? 0) && (res_errno r =? EINTR).

(** The number of answers left that end a retry loop. *)
Definition answers (w : world) : nat :=
  length (filter (λ r, interrupted r = false) (script w)).

(** The state [check_child] leaves behind, by the final answer of its wait. *)
Definition verdict (r : response) (st : State) : State :=
  if res_ret r <? 0 then DIED
  else if res_ret r =? 0 then st
  else if WIFEXITED (res_out r) || WIFSIGNALED (res_out r) then DIED
  else st.

(** The flags [check_child] waits with. *)
Definition wait_flags (block : bool) : Z :=
  if block then Z.land WNOHANG (Z.lnot WNOHANG) else WNOHANG.

(** The calls of a [terminate] that finds the child alive: polls, the
    signal, the detach of a paused child, and waits. *)
Definition terminate_calls (pid : Z) (force paused : bool) (n1 n2 : nat) : list call :=
  replicate (Datatypes.S n1) (Waitpid pid WNOHANG) ++
  [Kill pid (if force then SIGKILL else SIGTERM)] ++
  (if paused then [Ptrace PTRACE_DETACH pid 0 0] else []) ++
  replicate (Datatypes.S n2) (Waitpid pid (wait_flags force)).

(** The world a computation ends in. *)
Definition final {S A} (o : outcome S A) : S :=
  match o with
  | Ret _ s | Throw _ s | Stop _ s => s
  end.

(** [{ ChildProc child(cmdline); body; }]: construction, use, and the
    destructor at the end of the scope, also when [body] throws. *)
Definition lifetime (construct : string → M world ChildProc) (cmdline : string)
    (body : M process unit) : M world unit :=
  child <- construct cmdline ;;
  λ w, match body (mk_process child w) with
       | Ret _ p =>
           match destroy p with
           | Ret _ p' => Ret tt (os p')
           | Throw e p' => Throw e (os p')
           | Stop h p' => Stop h (os p')
           end
       | Throw e p =>
           match destroy p with
           | Ret _ p' | Throw _ p' => Throw e (os p')
           | Stop h p' => Stop h (os p')
           end
       | Stop h p => Stop h (os p)
       end.

(** The set of real paths [validate_cmd] collects from the candidates. *)
Definition uniq_abs_paths (abs_path : string → option string) (paths : list string) :
    gset string :=
  list_to_set (omap abs_path paths).

(** ** Specifications

    [triple P m Q E]: started in a state where [P] holds, [m] returns a
    value and a state in [Q], or leaves by an exception or a stop in a
    state where [E] holds. *)
Definition triple {S A} (P : S → Prop) (m : M S A) (Q : A → S → Prop) (E : S → Prop) : Prop :=
  ∀ s, P s →
    match m s with
    | Ret a s' => Q a s'
    | Throw _ s' | Stop _ s' => E s'
    end.

(** The order of the lifecycle: Forked, then Running or PausedAtExec, then
    Dead. *)
Definition lifecycle (st st' : State) : Prop :=
  st' = st ∨ st' = DIED ∨ st = FORKED.

(** The system calls a tracker of child [pid] with gate [fd] may make. *)
Definition own_call (pid fd : Z) (c : call) : Prop :=
  match c with
  | Waitpid pid' flags => pid' = pid ∧ (flags = 0 ∨ flags = WNOHANG)
  | Kill pid' sig => pid' = pid ∧ (sig = SIGKILL ∨ sig = SIGTERM)
  | Ptrace rq pid' _ _ =>
      pid' = pid ∧ (rq = PTRACE_DETACH ∨ rq = PTRACE_SETOPTIONS ∨ rq = PTRACE_CONT)
  | Write fd' token count =>
      fd' = fd ∧ count = 8 ∧ (token = CHILD_GO ∨ token = CHILD_PTRACE)
  | Close fd' => fd' = fd
  | _ => False
  end.

(** [p] is a later state of the tracker [c0] that had made the calls [t0]:
    same child, same gate, a state further on in the lifecycle, and since
    then only calls on its own child and gate. *)
Definition tracks (c0 : ChildProc) (t0 : list call) (p : process) : Prop :=
  child_pid_ (self p) = child_pid_ c0
  ∧ child_event_fd_ (self p) = child_event_fd_ c0
  ∧ lifecycle (state_ c0) (state_ (self p))
  ∧ ∃ l, calls (trace (os p)) = t0 ++ l
         ∧ Forall (own_call (child_pid_ c0) (child_event_fd_ c0)) l.

(** A method keeps the identity of the tracker and moves its state along
    the lifecycle, however it ends. *)
Definition keeps_lifecycle {A} (m : M process A) : Prop :=
  ∀ p, child_pid_ (self (final (m p))) = child_pid_ (self p)
       ∧ child_event_fd_ (self (final (m p))) = child_event_fd_ (self p)
       ∧ lifecycle (state_ (self p)) (state_ (self (final (m p)))).

(** A method makes system calls on its own child and gate only, however it
    ends. *)
Definition keeps_to_child {A} (m : M process A) : Prop :=
  ∀ p, ∃ l, calls (trace (os (final (m p)))) = calls (trace (os p)) ++ l
            ∧ Forall (own_call (child_pid_ (self p)) (child_event_fd_ (self p))) l.

(** The exceptions a computation can leave by. *)
Definition throws {S A} (m : M S A) (Ex : exn → Prop) : Prop :=
  ∀ s e s', m s = Throw e s' → Ex e.

(** What makes the try block of [run] throw, told by the system calls it
    made and the kernel's answers to them: PTRACE_SETOPTIONS failed, or
    PTRACE_CONT failed, or the wait failed or left a status that is not
    the exec trap.  [wstatus] is the status of the wait before the block,
    which the variable still holds when the wait in the block stores
    nothing. *)
Definition try_block_failed (pid wstatus : Z) (evs : list event) : Prop :=
  (∃ r2,
     evs = [Sys (Ptrace PTRACE_SETOPTIONS pid 0 PTRACE_O_TRACEEXEC) r2]
     ∧ res_ret r2 < 0)
  ∨ (∃ r2 r3,
       evs = [Sys (Ptrace PTRACE_SETOPTIONS pid 0 PTRACE_O_TRACEEXEC) r2;
              Sys (Ptrace PTRACE_CONT pid 0 0) r3]
       ∧ 0 ≤ res_ret r2 ∧ res_ret r3 < 0)
  ∨ (∃ r2 r3 r4,
       evs = [Sys (Ptrace PTRACE_SETOPTIONS pid 0 PTRACE_O_TRACEEXEC) r2;
              Sys (Ptrace PTRACE_CONT pid 0 0) r3;
              Sys (Waitpid pid 0) r4]
       ∧ 0 ≤ res_ret r2 ∧ 0 ≤ res_ret r3
       ∧ (res_ret r4 < 0
          ∨ WIFSTOPPED (if 0 <? res_ret r4 then res_out r4 else wstatus)
            && (Z.shiftr (if 0 <? res_ret r4 then res_out r4 else wstatus) 8
                =? Z.lor SIGTRAP (Z.shiftl PTRACE_EVENT_EXEC 8)) = false)).

(** A computation that never returns a value. *)
Definition no_return {S A} (m : M S A) : Prop := ∀ s a s', m s ≠ Ret a s'.

(** The tracker [c] in another state of the lifecycle. *)
Definition in_state (st : State) (c : ChildProc) : ChildProc :=
  mk_ChildProc (child_pid_ c) (child_event_fd_ c) st (exit_code_ c) (term_signal_ c).


(** ** Sample worlds

    Concrete trackers, kernels and search paths, used to run the code. *)

(** Sample trackers of child 4242 with gate descriptor 3. *)
Definition tracker (st : State) : ChildProc := mk_ChildProc 4242 3 st None None.

(** A tracker that saw its child exit with status 0, and a kernel that
    knows of no such child any more. *)
Definition reaped_process : process :=
  mk_process (mk_ChildProc 4242 3 DIED (Some 0) None) (boot [failed ECHILD]).

(** A running child that shrugs off SIGTERM: it is there at the first
    poll, the signal is sent, and it is still there at the second poll. *)
Definition stubborn_process : process :=
  mk_process (tracker RUNNING) (boot [ok 0; ok 0; ok 0]).

(** A child paused at exec that SIGKILL kills: poll, signal, detach, and a
    wait that reports the death by signal 9. *)
Definition paused_process : process :=
  mk_process (tracker PTRACE_PAUSE) (boot [ok 0; ok 0; ok 0; reported 4242 9]).

(** A sample search path: [sleep] is found once, [ping] twice through a
    symbolic link to the same file, [python] twice as two different files. *)
Definition sample_resolve (name : string) : list string :=
  if String.eqb name "/bin/sleep" then ["/bin/sleep"]
  else if String.eqb name "ping" then ["/usr/bin/ping"; "/bin/ping"]
  else if String.eqb name "python" then ["/usr/local/bin/python"; "/usr/bin/python"]
  else [].

Definition sample_abs (path : string) : option string :=
  if String.eqb path "/bin/ping" then Some "/usr/bin/ping" else Some path.

(** A sample of [util::split_string]: the pieces between the delimiters,
    without a last empty one. *)
Fixpoint sample_split_from (piece : string) (s : string) (delim : ascii) : list string :=
  match s with
  | EmptyString => if String.eqb piece "" then [] else [piece]
  | String a s' =>
      if Ascii.eqb a delim then piece :: sample_split_from "" s' delim
      else sample_split_from (piece +:+ String a "") s' delim
  end.

Definition sample_split (s : string) (delim : ascii) : list string :=
  sample_split_from "" s delim.

Definition sample_launch : string → M world ChildProc :=
  launch sample_resolve sample_abs sample_split.

(** The launch of [/bin/sleep 5]: the gate is descriptor 3 and the child
    gets pid 4242. *)
Definition sleep_launched : world :=
  mk_world []
    [New 0%nat sizeof_child_args; New 1%nat STACK_SIZE;
     Sys (Eventfd 0 EFD_CLOEXEC) (ok 3);
     Sys (Clone 1%nat STACK_SIZE SIGCHLD (mk_child_args ["/bin/sleep"; "5"] 3)) (ok 4242);
     Delete 1%nat; Delete 0%nat]
    0 ∅ 2%nat.

(** The wait status of a child stopped by signal [sig]. *)
Definition stopped_by (sig : Z) : Z := Z.lor (Z.shiftl sig 8) 127.

Definition SIGINT : Z := 2.
Definition EBADF : Z := 9.

(** A freshly forked child, and the kernel's answers to come. *)
Definition forked_process (rs : list response) : process :=
  mk_process (tracker FORKED) (boot rs).

(** What the child of [/bin/sleep 5] is handed, and the answer to a read
    that delivers the token 'x', which is neither GO nor PAUSE. *)
Definition sleep_args : child_args := mk_child_args ["/bin/sleep"; "5"] 3.
Definition token_x : response := mk_response 8 0 120.


(** A child paused at exec whose tracker is destroyed: the gate is closed,
    the child is polled twice, killed, detached from and waited for. *)
Definition abandoned_process : process :=
  mk_process (tracker PTRACE_PAUSE)
    (boot [ok 0; ok 0; ok 0; ok 0; ok 0; reported 4242 SIGKILL]).

(** A child paused at exec that is resumed and then terminated. *)
Definition resumed_process : process :=
  mk_process (tracker PTRACE_PAUSE)
    (boot [ok 0; ok 0; ok 0; ok 0; reported 4242 SIGKILL]).

Definition ESRCH : Z := 3.

(** A forked child that takes the PAUSE token and stops itself, but cannot
    be set up for the exec trap: PTRACE_SETOPTIONS fails.  The answers
    after it are those to the detach and to [terminate(true)]. *)
Definition untraceable_process : process :=
  forked_process
    [ok 0; ok 8; ok 0; reported 4242 (stopped_by SIGSTOP); failed ESRCH;
     ok 0; ok 0; ok 0; ok 0; reported 4242 SIGKILL].

(** ** Proof steps *)

Ltac run_monad :=
  unfold bind, ret, gets, this, modify, kernel, throw, stop, emit, LOG,
    set_state_, set_exit_code_, set_term_signal_, died, assert; simpl.

Ltac status_kept :=
  match goal with
  | H : _ ∨ _ |- _ => destruct H as [?|[? ?]]; first [lia | congruence]
  end.


(** * Properties *)

Lemma calls_app (t u : list event) : calls (t ++ u) = calls t ++ calls u.
Proof. unfold calls. apply omap_app. Qed.

Lemma calls_sys (c : call) (rs : list response) :
  calls (Sys c <$> rs) = replicate (length rs) c.
Proof. induction rs as [|r rs IH]; simpl; [done | by rewrite <- IH]. Qed.

Lemma answers_app_interrupted (pre : list response) (r : response) (rest : list response) :
  Forall (λ x, interrupted x = true) pre →
  interrupted r = false →
  length (filter (λ x, interrupted x = false) (pre ++ r :: rest)) =
  Datatypes.S (length (filter (λ x, interrupted x = false) rest)).
Proof.
  intros Hpre Hr. induction Hpre as [|x pre Hx _ IH]; simpl.
  - rewrite filter_cons_True by done. done.
  - rewrite filter_cons_False by congruence. exact IH.
Qed.

Lemma answers_all_interrupted (rs : list response) :
  Forall (λ x, interrupted x = true) rs →
  length (filter (λ x, interrupted x = false) rs) = 0%nat.
Proof.
  induction 1 as [|x rs Hx _ IH]; [done |].
  rewrite filter_cons_False by congruence. exact IH.
Qed.

(** The retry loop: it skips the interrupted answers and returns the first
    other one, or blocks when there is none. *)
Lemma waitpid_retry_spec (turns : nat) (pid flags : Z) (w : world) :
  (length (script w) < turns)%nat →
  match waitpid_retry turns pid flags w with
  | Ret r w' =>
      ∃ pre, script w = pre ++ r :: script w'
             ∧ Forall (λ x, interrupted x = true) pre
             ∧ interrupted r = false
             ∧ trace w' = trace w ++ (Sys (Waitpid pid flags) <$> (pre ++ [r]))
             ∧ heap w' = heap w
             ∧ (res_ret r < 0 → errno w' = res_errno r)
  | Stop h w' =>
      h = blocked ∧ Forall (λ x, interrupted x = true) (script w)
      ∧ script w' = []
      ∧ trace w' = trace w ++ (Sys (Waitpid pid flags) <$> script w)
      ∧ heap w' = heap w
  | Throw _ _ => False
  end.
Proof.
  revert w. induction turns as [|n IH]; intros w Hlen; [lia |].
  destruct w as [scr tr en hp nb]. simpl in Hlen.
  destruct scr as [|r rest].
  - simpl. unfold bind, sys. simpl. rewrite app_nil_r. done.
  - simpl. unfold bind at 1. unfold sys at 1. simpl.
    unfold bind at 1. unfold gets at 1. simpl.
    destruct (res_ret r <? 0) eqn:Hneg; simpl.
    + destruct (res_errno r =? EINTR) eqn:Hintr.
      * set (w1 := mk_world rest (tr ++ [Sys (Waitpid pid flags) r]) (res_errno r) hp nb).
        specialize (IH w1 ltac:(simpl in *; lia)).
        assert (Hr : interrupted r = true) by (unfold interrupted; by rewrite Hneg, Hintr).
        destruct (waitpid_retry n pid flags w1) as [r' w'|e w'|h w']; [| done |].
        -- destruct IH as (pre & Hscr & Hpre & Hr' & Htr & Hhp & Herr).
           exists (r :: pre). simpl in *. subst rest.
           repeat split; try done.
           ++ by constructor.
           ++ rewrite Htr, <- app_assoc. done.
        -- destruct IH as (-> & Hall & Hscr & Htr & Hhp).
           simpl in *. repeat split; try done.
           ++ by constructor.
           ++ rewrite Htr, <- app_assoc. done.
      * exists []. unfold ret. simpl. repeat split; try done.
        unfold interrupted. by rewrite Hneg, Hintr.
    + exists []. unfold ret. simpl. repeat split; try done.
      * unfold interrupted. by rewrite Hneg.
      * intros Hlt. apply Z.ltb_ge in Hneg. lia.
Qed.

(** [check_child]: one round of waiting, and the verdict on its answer. *)
Lemma check_child_spec (block : bool) (p : process) :
  match check_child block p with
  | Ret _ p' =>
      ∃ pre r,
        script (os p) = pre ++ r :: script (os p')
        ∧ Forall (λ x, interrupted x = true) pre
        ∧ interrupted r = false
        ∧ calls (trace (os p')) =
            calls (trace (os p)) ++
            replicate (Datatypes.S (length pre))
              (Waitpid (child_pid_ (self p)) (wait_flags block))
        ∧ child_pid_ (self p') = child_pid_ (self p)
        ∧ child_event_fd_ (self p') = child_event_fd_ (self p)
        ∧ state_ (self p') = verdict r (state_ (self p))
        ∧ heap (os p') = heap (os p)
        ∧ (res_ret r = 0 ∨ (res_ret r < 0 ∧ res_errno r ≠ EINVAL) →
           exit_code_ (self p') = exit_code_ (self p)
           ∧ term_signal_ (self p') = term_signal_ (self p))
  | Stop h p' =>
      h = blocked
      ∧ Forall (λ x, interrupted x = true) (script (os p))
      ∧ self p' = self p
      ∧ script (os p') = []
      ∧ calls (trace (os p')) =
          calls (trace (os p)) ++
          replicate (length (script (os p)))
            (Waitpid (child_pid_ (self p)) (wait_flags block))
  | Throw _ _ => False
  end.
Proof.
  destruct p as [c w].
  pose proof (waitpid_retry_spec (Datatypes.S (length (script w)))
                (child_pid_ c) (wait_flags block) w ltac:(lia)) as Hloop.
  unfold check_child. fold (wait_flags block).
  unfold bind at 1. unfold this at 1. unfold gets at 1.
  unfold bind at 1. unfold gets at 1.
  unfold bind at 1. unfold kernel at 1.
  cbn [self os].
  destruct (waitpid_retry _ _ _ w) as [r w'|e w'|h w']; [| done |].
  - destruct Hloop as (pre & Hscr & Hpre & Hr & Htr & Hhp & Herr).
    assert (Hcalls : calls (trace w') =
              calls (trace w) ++
              replicate (Datatypes.S (length pre)) (Waitpid (child_pid_ c) (wait_flags block))).
    { rewrite Htr, calls_app, calls_sys, length_app. simpl.
      by rewrite Nat.add_1_r. }
    unfold verdict.
    unfold bind at 1. unfold kernel at 1. unfold gets at 1. cbn [self os].
    destruct (res_ret r <? 0) eqn:Hneg.
    + rewrite (Herr ltac:(by apply Z.ltb_lt)).
      destruct (res_errno r =? EINVAL) eqn:Hinval.
      * (* the BUG record is written and the zero status is read as an exit *)
        assert (Hz : (res_ret r =? 0) = false) by (apply Z.ltb_lt in Hneg; apply Z.eqb_neq; lia).
        assert (Hpos : (0 <? res_ret r) = false) by (apply Z.ltb_lt in Hneg; apply Z.ltb_ge; lia).
        run_monad. rewrite Hz, Hpos. unfold check_wstatus. run_monad.
        exists pre, r. rewrite Hneg, calls_app. simpl. rewrite app_nil_r.
        repeat split; try done.
        all: apply Z.eqb_eq in Hinval; apply Z.ltb_lt in Hneg; status_kept.
      * run_monad. exists pre, r. rewrite Hneg, calls_app. simpl. rewrite app_nil_r. done.
    + run_monad. pose proof Hneg as Hge. apply Z.ltb_ge in Hge.
      destruct (res_ret r =? 0) eqn:Hz.
      { exists pre, r. rewrite Hneg, Hz. done. }
      pose proof Hz as Hnz. apply Z.eqb_neq in Hnz.
      assert (Hpos : (0 <? res_ret r) = true) by (apply Z.ltb_lt; lia).
      rewrite Hpos. unfold check_wstatus.
      destruct (WIFEXITED (res_out r)) eqn:Hex.
      { run_monad. exists pre, r. rewrite Hneg, Hz, Hex. repeat split; try done.
        all: status_kept. }
      destruct (WIFSIGNALED (res_out r)) eqn:Hsig; run_monad;
        exists pre, r; rewrite Hneg, Hz, Hex, Hsig; repeat split; try done.
      all: status_kept.
  - destruct Hloop as (-> & Hall & Hscr & Htr & Hhp).
    repeat split; try done.
    cbn [os]. by rewrite Htr, calls_app, calls_sys.
Qed.

(** A system call made by a method. *)
Lemma kernel_sys_spec (c : call) (p : process) :
  match kernel (sys c) p with
  | Ret r p' =>
      script (os p) = r :: script (os p')
      ∧ self p' = self p
      ∧ calls (trace (os p')) = calls (trace (os p)) ++ [c]
      ∧ heap (os p') = heap (os p)
  | Stop h p' => h = blocked ∧ script (os p) = [] ∧ p' = p
  | Throw _ _ => False
  end.
Proof.
  destruct p as [o w]. unfold kernel, sys. cbn [os self].
  destruct (script w) as [|r rest] eqn:Hs; cbn [os self script trace heap].
  - done.
  - rewrite calls_app. done.
Qed.

(** A log record changes nothing but the trace, and adds no call to it. *)
Lemma LOG_spec (l : level) (msg : string) (p : process) :
  ∃ p', LOG l msg p = Ret tt p'
        ∧ self p' = self p
        ∧ script (os p') = script (os p)
        ∧ calls (trace (os p')) = calls (trace (os p))
        ∧ heap (os p') = heap (os p).
Proof.
  eexists. unfold LOG, kernel, emit, modify. cbn [os self].
  split; [reflexivity |]. cbn [os self log_event script trace heap].
  rewrite calls_app. simpl. rewrite app_nil_r. done.
Qed.

Lemma verdict_died (r : response) : verdict r DIED = DIED.
Proof. unfold verdict. repeat case_match; done. Qed.

Lemma verdict_cases (r : response) (st : State) :
  verdict r st = DIED ∨ verdict r st = st.
Proof. unfold verdict. repeat case_match; auto. Qed.

Lemma answers_cons_le (r : response) (rest : list response) :
  (length (filter (λ x, interrupted x = false) (r :: rest)) ≤
   Datatypes.S (length (filter (λ x, interrupted x = false) rest)))%nat.
Proof.
  destruct (decide (interrupted r = false)).
  - by rewrite filter_cons_True.
  - rewrite filter_cons_False by done. lia.
Qed.

(** [terminate], whatever the kernel answers. *)
Lemma terminate_spec (force : bool) (p : process) :
  match terminate force p with
  | Ret _ p' =>
      child_pid_ (self p') = child_pid_ (self p)
      ∧ child_event_fd_ (self p') = child_event_fd_ (self p)
      ∧ ((state_ (self p') = DIED
          ∧ ∃ n, calls (trace (os p')) =
                 calls (trace (os p)) ++
                 replicate (Datatypes.S n) (Waitpid (child_pid_ (self p)) WNOHANG))
         ∨ (state_ (self p) ≠ DIED
            ∧ ∃ n1 n2 r,
                calls (trace (os p')) =
                  calls (trace (os p)) ++
                  terminate_calls (child_pid_ (self p)) force
                    (bool_decide (state_ (self p) = PTRACE_PAUSE)) n1 n2
                ∧ interrupted r = false
                ∧ state_ (self p') = verdict r (state_ (self p))))
  | Stop h p' => h = blocked ∧ (answers (os p) < 4)%nat
  | Throw _ _ => False
  end.
Proof.
  unfold terminate. unfold bind at 1.
  pose proof (check_child_spec false p) as H1.
  destruct (check_child false p) as [[] p1|e p1|h p1]; [| done |]; cycle 1.
  { destruct H1 as (-> & Hall & _). split; [done |].
    unfold answers. rewrite (answers_all_interrupted _ Hall). lia. }
  destruct H1 as (pre1 & r1 & Hscr1 & Hpre1 & Hr1 & Hc1 & Hpid1 & Hfd1 & Hst1 & Hhp1 & _).
  assert (Hans1 : answers (os p) = Datatypes.S (answers (os p1))).
  { unfold answers. rewrite Hscr1. by apply answers_app_interrupted. }
  unfold bind at 1. unfold died, this, gets. cbn beta iota.
  case_bool_decide as Hd.
  { unfold ret. repeat split; try done. left. split; [done |]. by exists (length pre1). }
  assert (Hst : state_ (self p1) = state_ (self p)).
  { rewrite Hst1 in *. destruct (verdict_cases r1 (state_ (self p))); congruence. }
  assert (Halive : state_ (self p) ≠ DIED) by congruence.
  unfold bind at 1. cbn beta iota. unfold bind at 1.
  (* the BUG record for an implausible pid *)
  assert (∃ p2, (when (child_pid_ (self p1) <=? 1) then LOG BUG "child_pid <= 1") p1 = Ret tt p2
                ∧ self p2 = self p1 ∧ script (os p2) = script (os p1)
                ∧ calls (trace (os p2)) = calls (trace (os p1))) as (p2 & -> & Hs2 & Hscr2 & Hc2).
  { destruct (child_pid_ (self p1) <=? 1).
    - destruct (LOG_spec BUG "child_pid <= 1" p1) as (p2 & ? & ? & ? & ? & ?). by exists p2.
    - by exists p1. }
  assert (Hans2 : answers (os p2) = answers (os p1)) by (unfold answers; by rewrite Hscr2).
  (* the signal *)
  unfold bind at 1.
  pose proof (kernel_sys_spec (Kill (child_pid_ (self p1)) (if force then SIGKILL else SIGTERM)) p2) as Hk.
  destruct (kernel (sys (Kill _ _)) p2) as [rk p3|e p3|h p3]; [| done |]; cycle 1.
  { destruct Hk as (-> & Hnil & _). split; [done |].
    rewrite Hans1, <- Hans2. unfold answers. rewrite Hnil. simpl. lia. }
  destruct Hk as (Hscr3 & Hs3 & Hc3 & _).
  assert (Hans3 : (answers (os p2) ≤ Datatypes.S (answers (os p3)))%nat).
  { unfold answers. rewrite Hscr3. apply answers_cons_le. }
  unfold bind at 1. rewrite Hs3, Hs2, Hst, Hpid1. cbn beta iota.
  unfold bind at 1.
  (* the detach of a paused child *)
  set (detach := (when (bool_decide (state_ (self p) = PTRACE_PAUSE)) then
                   (kernel (sys (Ptrace PTRACE_DETACH (child_pid_ (self p)) 0 0)) ;; ret tt)) p3).
  assert (match detach with
          | Ret _ p4 =>
              self p4 = self p3
              ∧ (answers (os p3) ≤ Datatypes.S (answers (os p4)))%nat
              ∧ calls (trace (os p4)) =
                  calls (trace (os p3)) ++
                  (if bool_decide (state_ (self p) = PTRACE_PAUSE)
                   then [Ptrace PTRACE_DETACH (child_pid_ (self p)) 0 0] else [])
          | Stop h _ => h = blocked ∧ answers (os p3) = 0%nat
          | Throw _ _ => False
          end) as Hdet.
  { subst detach. case_bool_decide.
    - unfold bind.
      pose proof (kernel_sys_spec (Ptrace PTRACE_DETACH (child_pid_ (self p)) 0 0) p3) as Hd4.
      destruct (kernel (sys (Ptrace _ _ _ _)) p3) as [rd p4|e p4|h p4]; [| done |].
      + unfold ret. destruct Hd4 as (Hscr4 & Hs4 & Hc4 & _).
        repeat split; try done.
        unfold answers. rewrite Hscr4. apply answers_cons_le.
      + destruct Hd4 as (-> & Hnil & _). split; [done |].
        unfold answers. by rewrite Hnil.
    - unfold ret. rewrite app_nil_r. repeat split; try done. lia. }
  destruct detach as [[] p4|e p4|h p4]; [| done |]; cycle 1.
  { destruct Hdet as (-> & Hz). split; [done | lia]. }
  destruct Hdet as (Hs4 & Hans4 & Hc4).
  (* the wait *)
  pose proof (check_child_spec force p4) as H5.
  destruct (check_child force p4) as [[] p5|e p5|h p5]; [| done |].
  - destruct H5 as (pre2 & r2 & Hscr5 & Hpre5 & Hr5 & Hc5 & Hpid5 & Hfd5 & Hst5 & _).
    rewrite Hs4, Hs3, Hs2 in Hpid5, Hfd5, Hst5, Hc5.
    rewrite Hpid1 in Hpid5, Hc5. rewrite Hst in Hst5.
    repeat split; try congruence.
    right. split; [done |].
    exists (length pre1), (length pre2), r2.
    repeat split; try done.
    rewrite Hc5, Hc4, Hc3, Hc2, Hc1, Hpid1. unfold terminate_calls.
    rewrite <- !app_assoc. done.
  - destruct H5 as (-> & Hall & _). split; [done |].
    assert (answers (os p4) = 0%nat) by (unfold answers; by rewrite (answers_all_interrupted _ Hall)).
    lia.
Qed.

Lemma wait_flags_eq (force : bool) : wait_flags force = if force then 0 else WNOHANG.
Proof. by destruct force. Qed.

(** The answer that ends a retry loop is fixed by the script: it is the
    first one that is not an interruption. *)
Lemma interrupted_split_unique (pre pre' : list response) (r r' : response)
    (rest rest' : list response) :
  pre ++ r :: rest = pre' ++ r' :: rest' →
  Forall (λ x, interrupted x = true) pre →
  Forall (λ x, interrupted x = true) pre' →
  interrupted r = false →
  interrupted r' = false →
  pre = pre' ∧ r = r' ∧ rest = rest'.
Proof.
  revert pre'.
  induction pre as [|x pre IH]; intros [|x' pre'] Heq Hp Hp' Hr Hr'; simpl in Heq.
  - by injection Heq as -> ->.
  - injection Heq as -> _. apply Forall_cons in Hp' as [Hx _]. congruence.
  - injection Heq as -> _. apply Forall_cons in Hp as [Hx _]. congruence.
  - injection Heq as -> Heq.
    apply Forall_cons in Hp as [_ Hp]. apply Forall_cons in Hp' as [_ Hp'].
    by destruct (IH pre' Heq Hp Hp' Hr Hr') as (-> & -> & ->).
Qed.

(** [check_child] on a script whose first answer that is no interruption
    is [r]: it returns, has consumed the script up to [r], and the state is
    the verdict on [r]. *)
Lemma check_child_by_answer (block : bool) (p : process) (pre : list response)
    (r : response) (rest : list response) :
  script (os p) = pre ++ r :: rest →
  Forall (λ x, interrupted x = true) pre →
  interrupted r = false →
  ∃ p',
    check_child block p = Ret tt p'
    ∧ script (os p') = rest
    ∧ calls (trace (os p')) =
        calls (trace (os p)) ++
        replicate (Datatypes.S (length pre))
          (Waitpid (child_pid_ (self p)) (wait_flags block))
    ∧ child_pid_ (self p') = child_pid_ (self p)
    ∧ child_event_fd_ (self p') = child_event_fd_ (self p)
    ∧ state_ (self p') = verdict r (state_ (self p)).
Proof.
  intros Hscr Hpre Hr.
  pose proof (check_child_spec block p) as H.
  destruct (check_child block p) as [[] p'|e p'|h p']; [| done |].
  - destruct H as (pre' & r' & Hscr' & Hpre' & Hr' & Hc & Hpid & Hfd & Hst & _).
    rewrite Hscr in Hscr'.
    destruct (interrupted_split_unique _ _ _ _ _ _ Hscr' Hpre Hpre' Hr Hr')
      as (-> & -> & ->).
    by exists p'.
  - destruct H as (_ & Hall & _). rewrite Hscr in Hall.
    apply Forall_app in Hall as [_ Hall]. apply Forall_cons in Hall as [Hx _].
    congruence.
Qed.

(** [terminate] when its first poll finds the child dead (or the tracker
    was Dead already): nothing but the poll. *)
Lemma terminate_poll_finds_dead (force : bool) (p : process) (pre : list response)
    (r : response) (rest : list response) :
  script (os p) = pre ++ r :: rest →
  Forall (λ x, interrupted x = true) pre →
  interrupted r = false →
  verdict r (state_ (self p)) = DIED →
  ∃ p',
    terminate force p = Ret tt p'
    ∧ script (os p') = rest
    ∧ child_pid_ (self p') = child_pid_ (self p)
    ∧ child_event_fd_ (self p') = child_event_fd_ (self p)
    ∧ calls (trace (os p')) =
        calls (trace (os p)) ++
        replicate (Datatypes.S (length pre)) (Waitpid (child_pid_ (self p)) WNOHANG)
    ∧ state_ (self p') = DIED.
Proof.
  intros Hscr Hpre Hr Hv.
  destruct (check_child_by_answer false p pre r rest Hscr Hpre Hr)
    as (p1 & Hc & Hscr1 & Hcalls & Hpid & Hfd & Hst).
  exists p1. unfold terminate. unfold bind at 1. rewrite Hc.
  unfold bind at 1. unfold died, this, gets. cbn beta iota.
  rewrite bool_decide_eq_true_2 by congruence. unfold ret.
  split_and!; try done. congruence.
Qed.

(** [terminate] when its first poll leaves the child alive: the signal
    goes out, a paused child is detached from, and the last wait, made
    with the flags [force] selects, gives the verdict.  The answers are
    consumed in this order: [r1] ends the poll, [k] answers the kill, [ds]
    holds the answer to the detach, if one is made, and [r2] ends the last
    wait. *)
Lemma terminate_signals_live_child (force : bool) (p : process)
    (pre1 : list response) (r1 k : response) (ds pre2 : list response)
    (r2 : response) (rest : list response) :
  script (os p) = pre1 ++ r1 :: k :: ds ++ pre2 ++ r2 :: rest →
  Forall (λ x, interrupted x = true) pre1 →
  interrupted r1 = false →
  verdict r1 (state_ (self p)) ≠ DIED →
  length ds = (if bool_decide (state_ (self p) = PTRACE_PAUSE) then 1 else 0)%nat →
  Forall (λ x, interrupted x = true) pre2 →
  interrupted r2 = false →
  ∃ p',
    terminate force p = Ret tt p'
    ∧ script (os p') = rest
    ∧ child_pid_ (self p') = child_pid_ (self p)
    ∧ child_event_fd_ (self p') = child_event_fd_ (self p)
    ∧ calls (trace (os p')) =
        calls (trace (os p)) ++
        terminate_calls (child_pid_ (self p)) force
          (bool_decide (state_ (self p) = PTRACE_PAUSE)) (length pre1) (length pre2)
    ∧ state_ (self p') = verdict r2 (state_ (self p)).
Proof.
  intros Hscr Hpre1 Hr1 Hv Hds Hpre2 Hr2.
  destruct (check_child_by_answer false p pre1 r1 _ Hscr Hpre1 Hr1)
    as (p1 & Hc & Hscr1 & Hc1 & Hpid1 & Hfd1 & Hst1).
  assert (Hst : state_ (self p1) = state_ (self p)).
  { rewrite Hst1. by destruct (verdict_cases r1 (state_ (self p))). }
  unfold terminate. unfold bind at 1. rewrite Hc.
  unfold bind at 1. unfold died, this, gets. cbn beta iota.
  rewrite bool_decide_eq_false_2 by congruence.
  unfold bind at 1. cbn beta iota. unfold bind at 1.
  assert (∃ p2, (when (child_pid_ (self p1) <=? 1) then LOG BUG "child_pid <= 1") p1 = Ret tt p2
                ∧ self p2 = self p1 ∧ script (os p2) = script (os p1)
                ∧ calls (trace (os p2)) = calls (trace (os p1))) as (p2 & -> & Hs2 & Hscr2 & Hc2).
  { destruct (child_pid_ (self p1) <=? 1).
    - destruct (LOG_spec BUG "child_pid <= 1" p1) as (p2 & ? & ? & ? & ? & ?). by exists p2.
    - by exists p1. }
  unfold bind at 1.
  pose proof (kernel_sys_spec (Kill (child_pid_ (self p1)) (if force then SIGKILL else SIGTERM)) p2) as Hk.
  destruct (kernel (sys (Kill _ _)) p2) as [rk p3|e p3|h p3]; [| done |]; cycle 1.
  { destruct Hk as (_ & Hnil & _). rewrite Hscr2, Hscr1 in Hnil. discriminate Hnil. }
  destruct Hk as (Hscr3 & Hs3 & Hc3 & _).
  rewrite Hscr2, Hscr1 in Hscr3. injection Hscr3 as _ Hscr3.
  unfold bind at 1. rewrite Hs3, Hs2, Hst, Hpid1. cbn beta iota.
  unfold bind at 1.
  assert (∃ p4, (when (bool_decide (state_ (self p) = PTRACE_PAUSE)) then
                   (kernel (sys (Ptrace PTRACE_DETACH (child_pid_ (self p)) 0 0)) ;; ret tt)) p3
                = Ret tt p4
                ∧ self p4 = self p3
                ∧ script (os p4) = pre2 ++ r2 :: rest
                ∧ calls (trace (os p4)) =
                    calls (trace (os p3)) ++
                    (if bool_decide (state_ (self p) = PTRACE_PAUSE)
                     then [Ptrace PTRACE_DETACH (child_pid_ (self p)) 0 0] else []))
    as (p4 & -> & Hs4 & Hscr4 & Hc4).
  { case_bool_decide.
    - destruct ds as [|d [|? ?]]; try discriminate Hds. simpl in Hscr3.
      unfold bind.
      pose proof (kernel_sys_spec (Ptrace PTRACE_DETACH (child_pid_ (self p)) 0 0) p3) as Hd4.
      destruct (kernel (sys (Ptrace _ _ _ _)) p3) as [rd p4|e p4|h p4]; [| done |].
      + destruct Hd4 as (Hscr4 & Hs4 & Hc4 & _).
        rewrite <- Hscr3 in Hscr4. injection Hscr4 as _ Hscr4.
        exists p4. unfold ret. done.
      + destruct Hd4 as (_ & Hnil & _). rewrite <- Hscr3 in Hnil. discriminate Hnil.
    - destruct ds; [| discriminate Hds]. simpl in Hscr3.
      exists p3. unfold ret. rewrite app_nil_r. done. }
  destruct (check_child_by_answer force p4 pre2 r2 rest Hscr4 Hpre2 Hr2)
    as (p5 & Hc5' & Hscr5 & Hc5 & Hpid5 & Hfd5 & Hst5).
  exists p5. rewrite Hs4, Hs3, Hs2 in Hpid5, Hfd5, Hst5, Hc5.
  rewrite Hpid1 in Hpid5, Hc5. rewrite Hst in Hst5.
  split_and!; try congruence.
  rewrite Hc5, Hc4, Hc3, Hc2, Hc1, Hpid1. unfold terminate_calls.
  rewrite <- !app_assoc. done.
Qed.

(** ** Termination *)

(** C9: [terminate] on a process that is already Dead returns at once: it
    does no more than poll the child without blocking, so no signal is sent
    and nothing is detached, and the state stays Dead; the pid and the gate
    descriptor are kept, and when the poll finds nothing to report (no
    child, or no change) the whole object is as it was.  Calling it a second
    time after a [terminate] that left the process Dead is this case. *)
Theorem terminate_dead_noop (force : bool) (p : process) :
  state_ (self p) = DIED →
  (0 < answers (os p))%nat →
  ∃ p' n r,
    terminate force p = Ret tt p'
    ∧ state_ (self p') = DIED
    ∧ child_pid_ (self p') = child_pid_ (self p)
    ∧ child_event_fd_ (self p') = child_event_fd_ (self p)
    ∧ calls (trace (os p')) =
        calls (trace (os p)) ++
        replicate (Datatypes.S n) (Waitpid (child_pid_ (self p)) WNOHANG)
    ∧ script (os p) !! n = Some r
    ∧ (res_ret r = 0 ∨ (res_ret r < 0 ∧ res_errno r ≠ EINVAL) → self p' = self p).
Proof.
  intros Hdead Hans.
  unfold terminate. unfold bind at 1.
  pose proof (check_child_spec false p) as H1.
  destruct (check_child false p) as [[] p1|e p1|h p1]; [| done |].
  - destruct H1 as (pre & r & Hscr & Hpre & Hr & Hc & Hpid & Hfd & Hst & _ & Hkeep).
    rewrite Hdead, verdict_died in Hst.
    exists p1, (length pre), r.
    unfold bind at 1. unfold died, this, gets. cbn beta iota.
    rewrite bool_decide_eq_true_2 by done. unfold ret.
    repeat split; try done.
    + rewrite Hscr. by rewrite list_lookup_middle.
    + intros Hr'. destruct (Hkeep Hr') as [Hex Hsig].
      destruct (self p1), (self p). simpl in *. congruence.
  - destruct H1 as (_ & Hall & _).
    unfold answers in Hans. rewrite (answers_all_interrupted _ Hall) in Hans. lia.
Qed.

Lemma terminate_dead_noop_witness :
  state_ (self reaped_process) = DIED
  ∧ (0 < answers (os reaped_process))%nat
  ∧ ∃ p' n r,
      terminate true reaped_process = Ret tt p'
      ∧ state_ (self p') = DIED
      ∧ child_pid_ (self p') = child_pid_ (self reaped_process)
      ∧ child_event_fd_ (self p') = child_event_fd_ (self reaped_process)
      ∧ calls (trace (os p')) =
          calls (trace (os reaped_process)) ++
          replicate (Datatypes.S n) (Waitpid (child_pid_ (self reaped_process)) WNOHANG)
      ∧ script (os reaped_process) !! n = Some r
      ∧ (res_ret r = 0 ∨ (res_ret r < 0 ∧ res_errno r ≠ EINVAL) →
         self p' = self reaped_process).
Proof.
  split; [reflexivity |]. split; [vm_compute; lia |].
  apply (terminate_dead_noop true reaped_process); [reflexivity | vm_compute; lia].
Defined.

(** Two calls in a row: the first kills the paused child and reaps it, the
    second only polls. *)
Example terminate_twice :
  ∃ p',
    (terminate true ;; terminate true)
      (mk_process (tracker PTRACE_PAUSE)
         (boot [ok 0; ok 0; ok 0; reported 4242 SIGKILL; failed ECHILD]))
    = Ret tt p'
    ∧ calls (trace (os p')) =
        [Waitpid 4242 WNOHANG; Kill 4242 SIGKILL; Ptrace PTRACE_DETACH 4242 0 0;
         Waitpid 4242 0; Waitpid 4242 WNOHANG]
    ∧ self p' = mk_ChildProc 4242 3 DIED None (Some SIGKILL).
Proof. eexists. split; [vm_compute; reflexivity |]. vm_compute. done. Qed.

(** C4, as stated, fails for [force = false]: the graceful [terminate] of a
    running child sends SIGTERM and then polls with WNOHANG; no blocking wait
    is made, and it returns with the child still running and not reaped. *)
Lemma terminate_graceful_does_not_block :
  ∃ p',
    terminate false stubborn_process = Ret tt p'
    ∧ calls (trace (os p')) =
        [Waitpid 4242 WNOHANG; Kill 4242 SIGTERM; Waitpid 4242 WNOHANG]
    ∧ filter (λ c, is_blocking_wait 4242 c = true) (calls (trace (os p'))) = []
    ∧ state_ (self p') = RUNNING.
Proof. eexists. split; [vm_compute; reflexivity |]. vm_compute. done. Qed.

(** C4, amended: [terminate(force)] first polls the child without
    blocking; the answer [r1] that ends this poll decides.  When it shows
    the child dead, nothing else is done.  Otherwise, and so for every
    tracker that is not Dead whose child the poll finds alive, the signal
    is sent ([k] is the kernel's answer to it, [ds] the answer to the detach
    of a paused child) and the child is waited for with the flags [force]
    selects: a blocking wait (options 0) for [force = true], a poll with
    WNOHANG for [force = false].  The state it leaves is the verdict on
    [r2], the answer that ends this last wait, so a graceful terminate
    whose last poll reports nothing returns with the child alive. *)
Theorem terminate_waits_as_forced (force : bool) (p : process)
    (pre1 : list response) (r1 k : response) (ds pre2 : list response)
    (r2 : response) (rest : list response) :
  state_ (self p) ≠ DIED →
  script (os p) = pre1 ++ r1 :: k :: ds ++ pre2 ++ r2 :: rest →
  Forall (λ x, interrupted x = true) pre1 →
  interrupted r1 = false →
  length ds = (if bool_decide (state_ (self p) = PTRACE_PAUSE) then 1 else 0)%nat →
  Forall (λ x, interrupted x = true) pre2 →
  interrupted r2 = false →
  ∃ p',
    terminate force p = Ret tt p'
    ∧ if bool_decide (verdict r1 (state_ (self p)) = DIED) then
        state_ (self p') = DIED
        ∧ script (os p') = k :: ds ++ pre2 ++ r2 :: rest
        ∧ calls (trace (os p')) =
            calls (trace (os p)) ++
            replicate (Datatypes.S (length pre1)) (Waitpid (child_pid_ (self p)) WNOHANG)
      else
        state_ (self p') = verdict r2 (state_ (self p))
        ∧ script (os p') = rest
        ∧ calls (trace (os p')) =
            calls (trace (os p)) ++
            replicate (Datatypes.S (length pre1)) (Waitpid (child_pid_ (self p)) WNOHANG) ++
            [Kill (child_pid_ (self p)) (if force then SIGKILL else SIGTERM)] ++
            (if bool_decide (state_ (self p) = PTRACE_PAUSE)
             then [Ptrace PTRACE_DETACH (child_pid_ (self p)) 0 0] else []) ++
            replicate (Datatypes.S (length pre2))
              (Waitpid (child_pid_ (self p)) (if force then 0 else WNOHANG)).
Proof.
  intros _ Hscr Hpre1 Hr1 Hds Hpre2 Hr2.
  destruct (decide (verdict r1 (state_ (self p)) = DIED)) as [Hv | Hv];
    [rewrite (bool_decide_eq_true_2 (verdict r1 (state_ (self p)) = DIED)) by done
    | rewrite (bool_decide_eq_false_2 (verdict r1 (state_ (self p)) = DIED)) by done].
  - destruct (terminate_poll_finds_dead force p pre1 r1 _ Hscr Hpre1 Hr1 Hv)
      as (p' & Ht & Hs & _ & _ & Hc & Hst).
    by exists p'.
  - destruct (terminate_signals_live_child force p pre1 r1 k ds pre2 r2 rest
                Hscr Hpre1 Hr1 Hv Hds Hpre2 Hr2)
      as (p' & Ht & Hs & _ & _ & Hc & Hst).
    exists p'. split_and!; try done.
Qed.

Lemma terminate_waits_as_forced_witness :
  state_ (self stubborn_process) ≠ DIED
  ∧ script (os stubborn_process) = [] ++ ok 0 :: ok 0 :: [] ++ [] ++ ok 0 :: []
  ∧ ∃ p',
      terminate false stubborn_process = Ret tt p'
      ∧ state_ (self p') = RUNNING
      ∧ script (os p') = []
      ∧ calls (trace (os p')) =
          [Waitpid 4242 WNOHANG; Kill 4242 SIGTERM; Waitpid 4242 WNOHANG].
Proof.
  split; [discriminate |]. split; [reflexivity |].
  apply (terminate_waits_as_forced false stubborn_process [] (ok 0) (ok 0) [] []
           (ok 0) []);
    [discriminate | reflexivity | constructor | reflexivity | reflexivity
    | constructor | reflexivity].
Defined.

(** The forced [terminate] of the same child waits without WNOHANG. *)
Example terminate_forced_blocks :
  ∃ p',
    terminate true
      (mk_process (tracker RUNNING) (boot [ok 0; ok 0; reported 4242 SIGKILL]))
    = Ret tt p'
    ∧ calls (trace (os p')) = [Waitpid 4242 WNOHANG; Kill 4242 SIGKILL; Waitpid 4242 0]
    ∧ state_ (self p') = DIED.
Proof. eexists. split; [vm_compute; reflexivity |]. vm_compute. done. Qed.

(** C5, as stated, fails: for a child paused at exec the calls of
    [terminate] are poll, kill, detach, wait.  The signal goes out first
    and the detach follows it. *)
Lemma terminate_paused_kills_before_detach :
  ∃ p',
    terminate true paused_process = Ret tt p'
    ∧ calls (trace (os p')) =
        [Waitpid 4242 WNOHANG; Kill 4242 SIGKILL;
         Ptrace PTRACE_DETACH 4242 0 0; Waitpid 4242 0]
    ∧ self p' = mk_ChildProc 4242 3 DIED None (Some 9).
Proof. eexists. split; [vm_compute; reflexivity |]. vm_compute. done. Qed.

(** C5, amended: when [terminate] is called in state PausedAtExec and the
    answer [r1] to its first poll does not show the child dead, it sends
    the termination signal first and detaches from the child right after
    it, before it waits: no call is made between the signal and the
    detach, and the wait comes last.  [k] and [d] are the kernel's answers
    to the signal and to the detach; neither is looked at. *)
Theorem terminate_paused_signal_then_detach (force : bool) (p : process)
    (pre1 : list response) (r1 k d : response) (pre2 : list response)
    (r2 : response) (rest : list response) :
  state_ (self p) = PTRACE_PAUSE →
  script (os p) = pre1 ++ r1 :: k :: d :: pre2 ++ r2 :: rest →
  Forall (λ x, interrupted x = true) pre1 →
  interrupted r1 = false →
  verdict r1 PTRACE_PAUSE ≠ DIED →
  Forall (λ x, interrupted x = true) pre2 →
  interrupted r2 = false →
  ∃ p',
    terminate force p = Ret tt p'
    ∧ script (os p') = rest
    ∧ state_ (self p') = verdict r2 PTRACE_PAUSE
    ∧ calls (trace (os p')) =
        calls (trace (os p)) ++
        replicate (Datatypes.S (length pre1)) (Waitpid (child_pid_ (self p)) WNOHANG) ++
        [Kill (child_pid_ (self p)) (if force then SIGKILL else SIGTERM);
         Ptrace PTRACE_DETACH (child_pid_ (self p)) 0 0] ++
        replicate (Datatypes.S (length pre2))
          (Waitpid (child_pid_ (self p)) (wait_flags force)).
Proof.
  intros Hpaused Hscr Hpre1 Hr1 Hv Hpre2 Hr2.
  rewrite <- Hpaused in Hv.
  destruct (terminate_signals_live_child force p pre1 r1 k [d] pre2 r2 rest)
    as (p' & Ht & Hs & _ & _ & Hc & Hst); try done.
  { by rewrite bool_decide_eq_true_2. }
  exists p'. rewrite Hpaused in Hst. split_and!; try done.
  unfold terminate_calls in Hc. by rewrite bool_decide_eq_true_2 in Hc.
Qed.

Lemma terminate_paused_signal_then_detach_witness :
  state_ (self paused_process) = PTRACE_PAUSE
  ∧ script (os paused_process) = [] ++ ok 0 :: ok 0 :: ok 0 :: [] ++ reported 4242 9 :: []
  ∧ verdict (ok 0) PTRACE_PAUSE ≠ DIED
  ∧ ∃ p',
      terminate false paused_process = Ret tt p'
      ∧ script (os p') = []
      ∧ state_ (self p') = verdict (reported 4242 9) PTRACE_PAUSE
      ∧ calls (trace (os p')) =
          calls (trace (os paused_process)) ++
          replicate 1 (Waitpid 4242 WNOHANG) ++
          [Kill 4242 SIGTERM; Ptrace PTRACE_DETACH 4242 0 0] ++
          replicate 1 (Waitpid 4242 (wait_flags false)).
Proof.
  split; [reflexivity |]. split; [reflexivity |]. split; [discriminate |].
  apply (terminate_paused_signal_then_detach false paused_process [] (ok 0) (ok 0) (ok 0)
           [] (reported 4242 9) []);
    [reflexivity | reflexivity | constructor | reflexivity | discriminate
    | constructor | reflexivity].
Defined.

(** ** Command resolution *)

Section Resolution.

Variable resolve_binary_path : string → list string.
Variable abs_path : string → option string.
Context {S : Type}.

Local Abbreviation validate := (validate_cmd (S := S) resolve_binary_path abs_path).

(** When the first token resolves, only the token count decides. *)
Lemma validate_cmd_resolved (cmd0 : string) (args : list string)
    (front : string) (rest : list string) (s : S) :
  resolve_binary_path cmd0 = front :: rest →
  rest = [] ∨ size (uniq_abs_paths abs_path (front :: rest)) = 1%nat →
  validate (cmd0 :: args) s =
    if maxargs - 1 <=? Z.of_nat (length (cmd0 :: args))
    then Throw (too_many_arguments (length (cmd0 :: args))) s
    else Ret (front :: args) s.
Proof.
  intros Hres Huniq. unfold validate_cmd. rewrite Hres.
  assert (Hstep :
    match rest with
    | [] => ret (front :: args)
    | _ :: _ =>
        if (size (list_to_set (omap abs_path (front :: rest)) : gset string) =? 1)%nat
        then ret (front :: args)
        else throw (ambiguous_binary cmd0 (length (front :: rest)))
    end s = Ret (front :: args) s).
  { destruct rest as [|second rest]; [done |].
    destruct Huniq as [? | Huniq]; [done |].
    unfold uniq_abs_paths in Huniq. rewrite Huniq. done. }
  unfold bind. unfold ambiguous_binary in Hstep. rewrite Hstep.
  unfold too_many_arguments. simpl length.
  by destruct (maxargs - 1 <=? _).
Qed.

(** Whatever the first token resolves to, the TooManyArguments failure is
    thrown only for a token count that meets or exceeds the budget. *)
Lemma too_many_arguments_only_over_budget (cmd : list string) (n : nat) (s s' : S) :
  validate cmd s = Throw (too_many_arguments n) s' →
  maxargs - 1 ≤ Z.of_nat (length cmd).
Proof.
  unfold validate_cmd. destruct cmd as [|cmd0 args]; [done |].
  unfold bind, too_many_arguments.
  destruct (resolve_binary_path cmd0) as [|front [|second rest]].
  - unfold throw. simpl. intros H. discriminate H.
  - unfold ret at 1. simpl length.
    destruct (maxargs - 1 <=? _) eqn:Hb; [intros _; by apply Z.leb_le in Hb | done].
  - destruct (_ =? 1)%nat.
    + unfold ret at 1. simpl length.
      destruct (maxargs - 1 <=? _) eqn:Hb; [intros _; by apply Z.leb_le in Hb | done].
    + unfold throw. simpl. intros H. discriminate H.
Qed.

(** C6: for a command whose first token resolves to one binary,
    [validate_cmd] fails with TooManyArguments exactly when the token count
    meets or exceeds the budget of [maxargs - 1] = 255: with 254 tokens,
    the largest count under the budget, it succeeds; with one more, 255,
    it fails. *)
Theorem validate_cmd_argument_budget (cmd0 : string) (args : list string)
    (front : string) (rest : list string) (s : S) :
  resolve_binary_path cmd0 = front :: rest →
  rest = [] ∨ size (uniq_abs_paths abs_path (front :: rest)) = 1%nat →
  let n := length (cmd0 :: args) in
  (validate (cmd0 :: args) s = Throw (too_many_arguments n) s ↔ maxargs - 1 ≤ Z.of_nat n)
  ∧ (Z.of_nat n < maxargs - 1 → validate (cmd0 :: args) s = Ret (front :: args) s)
  ∧ (n = 254%nat → validate (cmd0 :: args) s = Ret (front :: args) s)
  ∧ (n = 255%nat → validate (cmd0 :: args) s = Throw (too_many_arguments 255) s).
Proof.
  intros Hres Huniq n.
  pose proof (validate_cmd_resolved cmd0 args front rest s Hres Huniq) as Hv.
  fold n in Hv.
  destruct (maxargs - 1 <=? Z.of_nat n) eqn:Hn.
  - apply Z.leb_le in Hn. unfold maxargs in *.
    repeat split; try done; try lia.
    intros ->. done.
  - apply Z.leb_gt in Hn. unfold maxargs in *.
    repeat split; try done; try lia.
    rewrite Hv. done.
Qed.

(** C7: when the first token matches N ≥ 2 candidates, the real paths of
    the candidates decide.  If they collapse to one, the first raw candidate
    replaces the token (and the command is accepted, provided the token
    count is within the budget); if not, the failure is AmbiguousBinary and
    it reports N. *)
Theorem validate_cmd_many_candidates (cmd0 : string) (args : list string)
    (front : string) (rest : list string) (s : S) :
  resolve_binary_path cmd0 = front :: rest →
  (2 ≤ length (front :: rest))%nat →
  (size (uniq_abs_paths abs_path (front :: rest)) = 1%nat →
     validate (cmd0 :: args) s =
       if maxargs - 1 <=? Z.of_nat (length (cmd0 :: args))
       then Throw (too_many_arguments (length (cmd0 :: args))) s
       else Ret (front :: args) s)
  ∧ (size (uniq_abs_paths abs_path (front :: rest)) = 1%nat →
     Z.of_nat (length (cmd0 :: args)) < maxargs - 1 →
     validate (cmd0 :: args) s = Ret (front :: args) s)
  ∧ (size (uniq_abs_paths abs_path (front :: rest)) ≠ 1%nat →
     validate (cmd0 :: args) s =
       Throw (ambiguous_binary cmd0 (length (front :: rest))) s).
Proof.
  intros Hres Hmany. split; [| split].
  - intros Huniq. apply validate_cmd_resolved with (rest := rest); auto.
  - intros Huniq Hn.
    rewrite (validate_cmd_resolved cmd0 args front rest s Hres (or_intror Huniq)).
    destruct (maxargs - 1 <=? _) eqn:Hb; [apply Z.leb_le in Hb; lia | done].
  - intros Huniq. unfold validate_cmd. rewrite Hres.
    destruct rest as [|second rest]; [simpl in Hmany; lia |].
    unfold uniq_abs_paths in Huniq.
    apply Nat.eqb_neq in Huniq. unfold bind. rewrite Huniq. done.
Qed.

End Resolution.

(** A command of 254 tokens is accepted. *)
Lemma validate_cmd_argument_budget_witness :
  sample_resolve "/bin/sleep" = ["/bin/sleep"]
  ∧ validate_cmd sample_resolve sample_abs ("/bin/sleep" :: replicate 253 "5") tt =
    Ret ("/bin/sleep" :: replicate 253 "5") tt.
Proof.
  split; [reflexivity |].
  apply (validate_cmd_argument_budget sample_resolve sample_abs
           "/bin/sleep" (replicate 253 "5") "/bin/sleep" [] tt);
    [reflexivity | left; reflexivity | vm_compute; reflexivity].
Defined.

(** [ping] is one file found twice; [python] is two files. *)
Lemma validate_cmd_many_candidates_witness :
  sample_resolve "ping" = ["/usr/bin/ping"; "/bin/ping"]
  ∧ (2 ≤ length ["/usr/bin/ping"; "/bin/ping"])%nat
  ∧ size (uniq_abs_paths sample_abs ["/usr/bin/ping"; "/bin/ping"]) = 1%nat
  ∧ validate_cmd sample_resolve sample_abs ["ping"; "-c"; "1"; "localhost"] tt =
    Ret ["/usr/bin/ping"; "-c"; "1"; "localhost"] tt.
Proof.
  split; [reflexivity |]. split; [simpl; lia |]. split; [reflexivity |].
  apply (validate_cmd_many_candidates sample_resolve sample_abs
           "ping" ["-c"; "1"; "localhost"] "/usr/bin/ping" ["/bin/ping"] tt);
    [reflexivity | simpl; lia | reflexivity | vm_compute; reflexivity].
Defined.

Example validate_cmd_unknown_binary :
  validate_cmd sample_resolve sample_abs ["frobnicate"] tt = Throw (not_found "frobnicate") tt.
Proof. reflexivity. Qed.

Example validate_cmd_python_ambiguous :
  validate_cmd sample_resolve sample_abs ["python"; "-V"] tt =
  Throw (runtime_error "path 'python' must refer to a unique binary but matched 2 binaries") tt.
Proof. reflexivity. Qed.

Example validate_cmd_255_tokens :
  validate_cmd sample_resolve sample_abs ("/bin/sleep" :: replicate 254 "5") tt =
  Throw (runtime_error "Too many arguments for command (255 > 255)") tt.
Proof. reflexivity. Qed.

(** ** The child *)

(** C10: once the child has read its token, it marks itself traceable and
    stops itself only if the token is exactly [CHILD_PTRACE]; after any
    other token, [CHILD_GO] or not, the call that follows the close of the
    gate is the [execve] of the target. *)
Theorem childfn_token_dispatch (environ : list string) (args : child_args) (w : world)
    (argv0 : string) (argv' : list string)
    (r1 r2 r3 r4 r5 r6 r7 : response) (rest : list response) :
  script w = r1 :: r2 :: r3 :: r4 :: r5 :: r6 :: r7 :: rest →
  cmd args = argv0 :: argv' →
  Z.of_nat (length (cmd args)) < maxargs →
  res_ret r1 = 0 →
  0 ≤ res_ret r2 →
  calls (trace (final (childfn environ args w))) =
    calls (trace w) ++
    [Prctl PR_SET_PDEATHSIG SIGTERM; Read (event_fd args) 8; Close (event_fd args)] ++
    (if decide (res_out r2 = CHILD_PTRACE)
     then [Ptrace PTRACE_TRACEME 0 0 0; Getpid; Kill (res_ret r5) SIGSTOP]
     else []) ++
    [Execve argv0 (cmd args) environ].
Proof.
  intros Hscr Hcmd Hlen Hprctl Hread.
  destruct w as [scr tr en hp nb]. simpl in Hscr. subst scr.
  unfold childfn. rewrite Hcmd.
  unfold bind at 1. unfold sys at 1. cbn [script].
  rewrite Hprctl. cbn [Z.eqb negb].
  rewrite Hcmd in Hlen. apply Z.leb_gt in Hlen. rewrite Hlen.
  unfold bind at 1. unfold ret at 1.
  unfold bind at 1. unfold sys at 1. cbn [script].
  apply Z.ltb_ge in Hread. rewrite Hread.
  unfold bind at 1. unfold sys at 1. cbn [script].
  unfold bind at 1.
  destruct (decide (res_out r2 = CHILD_PTRACE)) as [Htok | Htok].
  - rewrite Htok. cbn [Z.eqb CHILD_PTRACE Pos.eqb].
    unfold bind, sys, ret, emit, modify, stop. simpl.
    destruct (res_ret r4 <? 0); simpl;
      destruct (res_ret r6 =? 0); simpl;
      destruct (0 <=? res_ret r7); simpl;
      rewrite ?calls_app; simpl; rewrite ?app_nil_r, <- ?app_assoc; done.
  - apply Z.eqb_neq in Htok. rewrite Htok.
    unfold bind, sys, ret, emit, modify, stop. simpl.
    destruct (0 <=? res_ret r4); simpl;
      rewrite ?calls_app; simpl; rewrite ?app_nil_r, <- ?app_assoc; done.
Qed.

Lemma childfn_token_dispatch_witness :
  res_ret (ok 0) = 0
  ∧ 0 ≤ res_ret token_x
  ∧ calls (trace (final (childfn [] sleep_args (boot [ok 0; token_x; ok 0; ok 0; ok 0; ok 0; ok 0])))) =
    [Prctl PR_SET_PDEATHSIG SIGTERM; Read 3 8; Close 3;
     Execve "/bin/sleep" ["/bin/sleep"; "5"] []].
Proof.
  split; [reflexivity |]. split; [simpl; lia |].
  apply (childfn_token_dispatch [] sleep_args
           (boot [ok 0; token_x; ok 0; ok 0; ok 0; ok 0; ok 0]) "/bin/sleep" ["5"]
           (ok 0) token_x (ok 0) (ok 0) (ok 0) (ok 0) (ok 0) []);
    [reflexivity | reflexivity | vm_compute; reflexivity | reflexivity | simpl; lia].
Defined.

(** With the PAUSE token the child marks itself traceable and stops itself
    before the [execve]. *)
Example childfn_pause_token :
  calls (trace (final (childfn [] sleep_args
                         (boot [ok 0; mk_response 8 0 CHILD_PTRACE; ok 0; ok 0; ok 77; ok 0; ok 0])))) =
  [Prctl PR_SET_PDEATHSIG SIGTERM; Read 3 8; Close 3;
   Ptrace PTRACE_TRACEME 0 0 0; Getpid; Kill 77 SIGSTOP;
   Execve "/bin/sleep" ["/bin/sleep"; "5"] []].
Proof. reflexivity. Qed.

(** A child cloned without a gate (descriptor -1) cannot read its token
    and exits with status 11. *)
Example childfn_without_gate :
  ∃ w', childfn [] (mk_child_args ["/bin/sleep"; "5"] (-1)) (boot [ok 0; failed EBADF]) = Ret 11 w'.
Proof. eexists. vm_compute. reflexivity. Qed.

(** ** Launch *)

Section Launch.

Variable resolve_binary_path : string → list string.
Variable abs_path : string → option string.
Variable split_string : string → ascii → list string.

(** A block that was released is not on the heap. *)
Lemma released_block (b a : block) (h : gset block) :
  b ∉ ({[b]} ∪ ({[a]} ∪ h)) ∖ {[b]} ∖ {[a]}.
Proof.
  intros Hin. apply elem_of_difference in Hin as [Hin _].
  apply elem_of_difference in Hin as [_ Hb]. apply Hb. by apply elem_of_singleton.
Qed.

(** [validate_cmd] does not touch the state. *)
Lemma validate_cmd_pure {S} (cmd : list string) (s : S) :
  match validate_cmd resolve_binary_path abs_path cmd s with
  | Ret _ s' | Throw _ s' | Stop _ s' => s' = s
  end.
Proof.
  unfold validate_cmd. destruct cmd as [|cmd0 args]; [done |].
  unfold bind.
  destruct (resolve_binary_path cmd0) as [|front [|second rest]]; [done | |].
  - unfold ret at 1. by destruct (maxargs - 1 <=? _).
  - destruct (_ =? 1)%nat; [| done].
    unfold ret at 1. by destruct (maxargs - 1 <=? _).
Qed.

(** C1, amended: in every successful launch the stack region is allocated
    at the start of the call, is the stack handed to [clone] while it is
    allocated, and is released when the launch call returns; the tracker
    that is returned holds the pid and the gate only. *)
Theorem launch_stack_scoped (cmdline : string) (w : world) (c : ChildProc) (w' : world) :
  launch resolve_binary_path abs_path split_string cmdline w = Ret c w' →
  ∃ argv r1 r2,
    let args_block := next_block w in
    let child_stack := Datatypes.S (next_block w) in
    trace w' =
      trace w ++
      [New args_block sizeof_child_args; New child_stack STACK_SIZE;
       Sys (Eventfd 0 EFD_CLOEXEC) r1;
       Sys (Clone child_stack STACK_SIZE SIGCHLD (mk_child_args argv (res_ret r1))) r2;
       Delete child_stack; Delete args_block]
    ∧ (child_stack ∉ heap w')
    ∧ c = mk_ChildProc (res_ret r2) (res_ret r1) FORKED None None.
Proof.
  intros Hlaunch.
  unfold launch, with_unique in Hlaunch.
  unfold bind at 1 in Hlaunch. unfold alloc at 1 in Hlaunch. cbv zeta in Hlaunch.
  unfold bind at 1 in Hlaunch. unfold alloc at 1 in Hlaunch. cbv zeta in Hlaunch.
  cbn [next_block script trace errno heap] in Hlaunch.
  unfold bind at 1 in Hlaunch.
  match type of Hlaunch with
  | context [validate_cmd _ _ ?cmd ?s] =>
      pose proof (validate_cmd_pure cmd s) as Hpure;
      destruct (validate_cmd resolve_binary_path abs_path cmd s) as [argv s1|e s1|h s1]
  end; subst s1;
    [| unfold bind, free, throw in Hlaunch; simpl in Hlaunch; discriminate
     | discriminate].
  unfold bind, sys, SYS_ERROR, gets, ret, throw, free in Hlaunch.
  cbn [script trace errno heap next_block] in Hlaunch.
  destruct (script w) as [|r1 [|r2 rest]]; [discriminate | |].
  - destruct (res_ret r1 <? 0); discriminate.
  - exists argv, r1, r2.
    destruct (res_ret r1 <? 0); cbn [script trace errno heap next_block] in Hlaunch.
    all: destruct (res_ret r2 <=? 0);
      cbn [script trace errno heap next_block] in Hlaunch.
    all: try (destruct rest; discriminate).
    all: inversion Hlaunch; subst c w'; cbn [trace heap].
    all: split; [by rewrite <- !app_assoc | split; [apply released_block | done]].
Qed.

End Launch.

Example launch_sleep :
  sample_launch "/bin/sleep 5" (boot [ok 3; ok 4242]) = Ret (tracker FORKED) sleep_launched.
Proof. vm_compute. reflexivity. Qed.

(** C1, as stated, fails: a launch that succeeds (child 4242 exists, the
    tracker is Forked, nobody has waited for the child) returns with the
    stack block 1 released: the last things the call does are the two
    deletes, and the block is not on the heap afterwards. *)
Lemma launch_releases_stack_on_return :
  ∃ w',
    sample_launch "/bin/sleep 5" (boot [ok 3; ok 4242]) = Ret (tracker FORKED) w'
    ∧ trace w' =
        [New 0%nat sizeof_child_args; New 1%nat STACK_SIZE;
         Sys (Eventfd 0 EFD_CLOEXEC) (ok 3);
         Sys (Clone 1%nat STACK_SIZE SIGCHLD (mk_child_args ["/bin/sleep"; "5"] 3)) (ok 4242);
         Delete 1%nat; Delete 0%nat]
    ∧ (1%nat ∉ heap w').
Proof.
  exists sleep_launched. split; [apply launch_sleep |].
  split; [reflexivity |]. unfold sleep_launched. cbn [heap]. set_solver.
Qed.

Lemma launch_stack_scoped_witness :
  sample_launch "/bin/sleep 5" (boot [ok 3; ok 4242]) = Ret (tracker FORKED) sleep_launched
  ∧ ∃ argv r1 r2,
      trace sleep_launched =
        trace (boot [ok 3; ok 4242]) ++
        [New 0%nat sizeof_child_args; New 1%nat STACK_SIZE;
         Sys (Eventfd 0 EFD_CLOEXEC) r1;
         Sys (Clone 1%nat STACK_SIZE SIGCHLD (mk_child_args argv (res_ret r1))) r2;
         Delete 1%nat; Delete 0%nat]
      ∧ (1%nat ∉ heap sleep_launched)
      ∧ tracker FORKED = mk_ChildProc (res_ret r2) (res_ret r1) FORKED None None.
Proof.
  split; [vm_compute; reflexivity |].
  apply (launch_stack_scoped sample_resolve sample_abs sample_split
           "/bin/sleep 5" (boot [ok 3; ok 4242]) (tracker FORKED) sleep_launched).
  vm_compute. reflexivity.
Defined.

(** C2: the kernel refuses the event descriptor (EMFILE), and [launch]
    goes on all the same: the error object is built and dropped, the child
    is cloned with descriptor -1, and the caller gets a Forked tracker. *)
Theorem launch_survives_eventfd_failure :
  ∃ w',
    sample_launch "/bin/sleep 5" (boot [failed 24; ok 4242]) =
      Ret (mk_ChildProc 4242 (-1) FORKED None None) w'
    ∧ calls (trace w') =
        [Eventfd 0 EFD_CLOEXEC;
         Clone 1%nat STACK_SIZE SIGCHLD (mk_child_args ["/bin/sleep"; "5"] (-1))].
Proof. eexists. split; vm_compute; reflexivity. Qed.

(** The sibling path: a failure of [clone] is thrown, with [errno]. *)
Example launch_reports_clone_failure :
  ∃ w',
    sample_launch "/bin/sleep 5" (boot [ok 3; failed 11; ok 0]) =
      Throw (system_error 11 "Failed to clone child") w'
    ∧ calls (trace w') =
        [Eventfd 0 EFD_CLOEXEC;
         Clone 1%nat STACK_SIZE SIGCHLD (mk_child_args ["/bin/sleep"; "5"] 3);
         Close 3].
Proof. eexists. split; vm_compute; reflexivity. Qed.

(** ** Run *)

(** C3: the child is alive and takes the PAUSE token, and the first wait
    of [run(true)] reports it stopped by SIGINT instead of SIGSTOP (a traced
    child stops for any signal that reaches it).  The status is reported by
    an exception thrown before the try block is entered: there is no detach
    and no kill, the answers the kernel had ready for them are left unused,
    and the child stays stopped with the tracker still in PausedAtExec. *)
Theorem run_pause_unexpected_stop_not_cleaned_up :
  ∃ p',
    run true (forked_process
                [ok 0; ok 8; ok 0; reported 4242 (stopped_by SIGINT); ok 0; ok 0; ok 0])
    = Throw (runtime_error "Child stopped unexpectedly, signal: 2") p'
    ∧ calls (trace (os p')) =
        [Waitpid 4242 WNOHANG; Write 3 CHILD_PTRACE 8; Close 3; Waitpid 4242 0]
    ∧ filter (λ c, is_kill c || is_detach c = true) (calls (trace (os p'))) = []
    ∧ script (os p') = [ok 0; ok 0; ok 0]
    ∧ self p' = tracker PTRACE_PAUSE.
Proof. eexists. split; [vm_compute; reflexivity |]. vm_compute. done. Qed.

(** The sibling path: the same unexpected status at the second wait, the
    one for the exec notification, is caught; the child is detached from,
    killed and waited for before the failure is thrown. *)
Example run_pause_exec_wait_cleaned_up :
  ∃ p',
    run true (forked_process
                [ok 0; ok 8; ok 0; reported 4242 (stopped_by SIGSTOP);
                 ok 0; ok 0; reported 4242 (stopped_by SIGINT);
                 ok 0; ok 0; ok 0; ok 0; reported 4242 SIGKILL])
    = Throw (system_error 0 "Failed to write 'go' event fd") p'
    ∧ calls (trace (os p')) =
        [Waitpid 4242 WNOHANG; Write 3 CHILD_PTRACE 8; Close 3; Waitpid 4242 0;
         Ptrace PTRACE_SETOPTIONS 4242 0 PTRACE_O_TRACEEXEC;
         Ptrace PTRACE_CONT 4242 0 0; Waitpid 4242 0;
         Ptrace PTRACE_DETACH 4242 0 0;
         Waitpid 4242 WNOHANG; Kill 4242 SIGKILL; Ptrace PTRACE_DETACH 4242 0 0;
         Waitpid 4242 0]
    ∧ self p' = mk_ChildProc 4242 3 DIED None (Some SIGKILL).
Proof. eexists. split; [vm_compute; reflexivity |]. vm_compute. done. Qed.

(** The good case: the child stops itself, then traps at exec. *)
Example run_pause_reaches_exec :
  ∃ p',
    run true (forked_process
                [ok 0; ok 8; ok 0; reported 4242 (stopped_by SIGSTOP);
                 ok 0; ok 0;
                 reported 4242 (stopped_by (Z.lor SIGTRAP (Z.shiftl PTRACE_EVENT_EXEC 8)))])
    = Ret tt p'
    ∧ self p' = tracker PTRACE_PAUSE.
Proof. eexists. split; vm_compute; reflexivity. Qed.

(** ** The lifetime of a tracker *)

(** C8: launch, [run(false)], destruction.  [run] closes the gate
    (descriptor 3) and leaves the number in [child_event_fd_]; the
    destructor finds it non-negative and closes descriptor 3 a second time
    (here the kernel answers EBADF). *)
Theorem gate_released_twice :
  ∃ w',
    lifetime sample_launch "/bin/sleep 5" (run false)
      (boot [ok 3; ok 4242; ok 0; ok 8; ok 0; failed EBADF; reported 4242 0])
    = Ret tt w'
    ∧ calls (trace w') =
        [Eventfd 0 EFD_CLOEXEC;
         Clone 1%nat STACK_SIZE SIGCHLD (mk_child_args ["/bin/sleep"; "5"] 3);
         Waitpid 4242 WNOHANG; Write 3 CHILD_GO 8; Close 3;
         Close 3; Waitpid 4242 WNOHANG]
    ∧ length (filter (λ c, is_close 3 c = true) (calls (trace w'))) = 2%nat.
Proof. eexists. split; [vm_compute; reflexivity |]. vm_compute. done. Qed.

(** A tracker that is never run is released once, by the destructor. *)
Example gate_released_by_destructor :
  ∃ w',
    lifetime sample_launch "/bin/sleep 5" (ret tt)
      (boot [ok 3; ok 4242; ok 0; ok 0; ok 0; ok 0; reported 4242 SIGKILL])
    = Ret tt w'
    ∧ calls (trace w') =
        [Eventfd 0 EFD_CLOEXEC;
         Clone 1%nat STACK_SIZE SIGCHLD (mk_child_args ["/bin/sleep"; "5"] 3);
         Close 3; Waitpid 4242 WNOHANG;
         Waitpid 4242 WNOHANG; Kill 4242 SIGKILL; Waitpid 4242 0].
Proof. eexists. split; vm_compute; reflexivity. Qed.

(** * Further properties of the tracker *)

(** ** Wait statuses *)

Lemma WTERMSIG_mod (s : Z) : WTERMSIG s = s mod 128.
Proof. unfold WTERMSIG. change 127 with (Z.ones 7). by rewrite Z.land_ones. Qed.

Lemma WEXITSTATUS_mod (s : Z) : WEXITSTATUS s = (s / 256) mod 256.
Proof.
  unfold WEXITSTATUS. rewrite Z.shiftr_land.
  change (Z.shiftr 65280 8) with (Z.ones 8).
  rewrite Z.land_ones by lia. by rewrite Z.shiftr_div_pow2.
Qed.

Lemma WIFSTOPPED_mod (s : Z) : WIFSTOPPED s = true ↔ s mod 256 = 127.
Proof.
  unfold WIFSTOPPED. change 255 with (Z.ones 8). rewrite Z.land_ones by lia.
  apply Z.eqb_eq.
Qed.

Lemma WIFSIGNALED_range (s : Z) : WIFSIGNALED s = true ↔ 1 ≤ WTERMSIG s ≤ 126.
Proof.
  unfold WIFSIGNALED. fold (WTERMSIG s). rewrite WTERMSIG_mod.
  pose proof (Z.mod_pos_bound s 128 ltac:(lia)) as Hb.
  unfold signed_char. rewrite Z.shiftr_div_pow2 by lia. change (2 ^ 1) with 2.
  destruct (128 <=? s mod 128 + 1) eqn:Hc.
  - apply Z.leb_le in Hc. split.
    + intros H. apply Z.ltb_lt in H.
      assert (s mod 128 + 1 - 256 = -128) as Heq by lia. rewrite Heq in H.
      change (-128 / 2) with (-64) in H. lia.
    + lia.
  - apply Z.leb_gt in Hc. split.
    + intros H. apply Z.ltb_lt in H.
      destruct (decide (s mod 128 = 0)) as [Hz | Hz]; [| lia].
      rewrite Hz in H. change ((0 + 1) / 2) with 0 in H. lia.
    + intros H. apply Z.ltb_lt.
      apply Z.div_str_pos. lia.
Qed.

(** The comment "Ignore STOP and CONT" of [check_wstatus] holds on the
    status words: a stop status (low byte 0x7f) and the continue status
    0xffff are neither an exit nor a death by signal, so [check_wstatus]
    returns with the tracker exactly as it was. *)
Theorem check_wstatus_ignores_stop_and_cont (wstatus : Z) (p : process) :
  WIFSTOPPED wstatus = true ∨ wstatus = 65535 →
  check_wstatus wstatus p = Ret tt p.
Proof.
  intros [Hstop | ->]; [| reflexivity].
  apply WIFSTOPPED_mod in Hstop.
  assert (Hterm : WTERMSIG wstatus = 127).
  { rewrite WTERMSIG_mod. Z.to_euclidean_division_equations. lia. }
  unfold check_wstatus.
  assert (Hex : WIFEXITED wstatus = false).
  { unfold WIFEXITED. rewrite Hterm. reflexivity. }
  assert (Hsig : WIFSIGNALED wstatus = false).
  { apply not_true_is_false. rewrite WIFSIGNALED_range, Hterm. lia. }
  rewrite Hex, Hsig. reflexivity.
Qed.

Lemma check_wstatus_ignores_stop_and_cont_witness :
  WIFSTOPPED (stopped_by SIGSTOP) = true
  ∧ check_wstatus (stopped_by SIGSTOP) paused_process = Ret tt paused_process.
Proof.
  split; [reflexivity |].
  apply (check_wstatus_ignores_stop_and_cont (stopped_by SIGSTOP) paused_process).
  left. reflexivity.
Defined.

(** What [check_wstatus] records is in range: it either changes nothing,
    or marks the child Dead with an exit code in 0..255 and the signal
    untouched, or marks it Dead with a terminating signal in 1..126 and
    the exit code untouched. *)
Theorem check_wstatus_records_in_range (wstatus : Z) (p : process) :
  ∃ p',
    check_wstatus wstatus p = Ret tt p'
    ∧ os p' = os p
    ∧ child_pid_ (self p') = child_pid_ (self p)
    ∧ child_event_fd_ (self p') = child_event_fd_ (self p)
    ∧ (self p' = self p
       ∨ (∃ code, 0 ≤ code ≤ 255
            ∧ exit_code_ (self p') = Some code
            ∧ term_signal_ (self p') = term_signal_ (self p)
            ∧ state_ (self p') = DIED)
       ∨ (∃ sig, 1 ≤ sig ≤ 126
            ∧ term_signal_ (self p') = Some sig
            ∧ exit_code_ (self p') = exit_code_ (self p)
            ∧ state_ (self p') = DIED)).
Proof.
  unfold check_wstatus.
  destruct (WIFEXITED wstatus) eqn:Hex.
  - eexists. split; [reflexivity |]. run_monad. repeat split; try done.
    right. left. exists (WEXITSTATUS wstatus). repeat split; try done.
    all: rewrite WEXITSTATUS_mod;
      pose proof (Z.mod_pos_bound (wstatus / 256) 256 ltac:(lia)); lia.
  - destruct (WIFSIGNALED wstatus) eqn:Hsig.
    + eexists. split; [reflexivity |]. run_monad. repeat split; try done.
      right. right. exists (WTERMSIG wstatus).
      apply WIFSIGNALED_range in Hsig. repeat split; try done; lia.
    + exists p. repeat split; try done. by left.
Qed.

(** ** Rules for specifications *)

Lemma triple_ret {S A} (a : A) (Q : A → S → Prop) (E : S → Prop) :
  triple (Q a) (ret a) Q E.
Proof. intros s Hs. exact Hs. Qed.

Lemma triple_ret_const {S A} (P : S → Prop) (a : A) (E : S → Prop) :
  triple P (ret a) (λ _, P) E.
Proof. intros s Hs. exact Hs. Qed.

Lemma triple_bind {S A B} (P : S → Prop) (m : M S A) (Q : A → S → Prop)
    (k : A → M S B) (Q' : B → S → Prop) (E : S → Prop) :
  triple P m Q E →
  (∀ a, triple (Q a) (k a) Q' E) →
  triple P (bind m k) Q' E.
Proof.
  intros Hm Hk s Hs. unfold bind. specialize (Hm s Hs).
  destruct (m s) as [a s'|e s'|h s']; [by apply Hk | done | done].
Qed.

Lemma triple_conseq {S A} (P P' : S → Prop) (m : M S A) (Q Q' : A → S → Prop)
    (E E' : S → Prop) :
  triple P' m Q' E' →
  (∀ s, P s → P' s) →
  (∀ a s, Q' a s → Q a s) →
  (∀ s, E' s → E s) →
  triple P m Q E.
Proof.
  intros Hm HP HQ HE s Hs. specialize (Hm s (HP s Hs)).
  destruct (m s); auto.
Qed.

Lemma triple_throw {S A} (P : S → Prop) (e : exn) (Q : A → S → Prop) (E : S → Prop) :
  (∀ s, P s → E s) → triple P (throw e) Q E.
Proof. intros H s Hs. by apply H. Qed.

Lemma triple_stop {S A} (P : S → Prop) (h : halt) (Q : A → S → Prop) (E : S → Prop) :
  (∀ s, P s → E s) → triple P (stop h) Q E.
Proof. intros H s Hs. by apply H. Qed.

Lemma triple_try_catch {S A} (P : S → Prop) (body : M S A) (handler : exn → M S A)
    (Q : A → S → Prop) (E1 E : S → Prop) :
  triple P body Q E1 →
  (∀ e, triple E1 (handler e) Q E) →
  (∀ s, E1 s → E s) →
  triple P (try_catch body handler) Q E.
Proof.
  intros Hb Hh HE s Hs. unfold try_catch. specialize (Hb s Hs).
  destruct (body s) as [a s'|e s'|h s']; [done | by apply Hh | by apply HE].
Qed.

Lemma triple_this {A B} (P : process → Prop) (f : ChildProc → A) (k : A → M process B)
    (Q : B → process → Prop) (E : process → Prop) :
  (∀ v, triple (λ p, P p ∧ f (self p) = v) (k v) Q E) →
  triple P (bind (this f) k) Q E.
Proof.
  intros Hk p Hp. unfold bind, this, gets. by apply (Hk (f (self p))).
Qed.

Lemma triple_when {S} (P : S → Prop) (b : bool) (m : M S unit)
    (Q : unit → S → Prop) (E : S → Prop) :
  (b = true → triple P m Q E) →
  (∀ s, P s → Q tt s) →
  triple P (when b then m) Q E.
Proof.
  intros Hm HQ. destruct b; [by apply Hm |]. intros s Hs. by apply HQ.
Qed.

(** ** The tracker keeps to its child *)

Lemma lifecycle_refl (st : State) : lifecycle st st.
Proof. by left. Qed.

Lemma lifecycle_trans (a b c : State) : lifecycle a b → lifecycle b c → lifecycle a c.
Proof. unfold lifecycle. intros [-> | [-> | ->]] [-> | [-> | Hc]]; auto; discriminate. Qed.

Lemma lifecycle_to_died (st : State) : lifecycle st DIED.
Proof. right. by left. Qed.

Lemma lifecycle_at_forked (st st' : State) : lifecycle st FORKED → lifecycle st st'.
Proof. intros [H | [H | H]]; [| discriminate |]; right; right; done. Qed.

Lemma tracks_start (p : process) : tracks (self p) (calls (trace (os p))) p.
Proof.
  repeat split; try done. { apply lifecycle_refl. }
  exists []. by rewrite app_nil_r.
Qed.

(** A step that keeps the child and the gate, moves on in the lifecycle
    and adds calls of its own keeps [tracks]. *)
Lemma tracks_step (c0 : ChildProc) (t0 : list call) (p p' : process) (l : list call) :
  tracks c0 t0 p →
  child_pid_ (self p') = child_pid_ (self p) →
  child_event_fd_ (self p') = child_event_fd_ (self p) →
  lifecycle (state_ c0) (state_ (self p')) →
  calls (trace (os p')) = calls (trace (os p)) ++ l →
  Forall (own_call (child_pid_ c0) (child_event_fd_ c0)) l →
  tracks c0 t0 p'.
Proof.
  intros (Hpid & Hfd & Hst & l0 & Hc & Hown) Hpid' Hfd' Hst' Hc' Hown'.
  repeat split; try congruence.
  exists (l0 ++ l). rewrite Hc', Hc, app_assoc. split; [done |].
  by apply Forall_app.
Qed.

Lemma tracks_sys (c0 : ChildProc) (t0 : list call) (c : call) :
  own_call (child_pid_ c0) (child_event_fd_ c0) c →
  triple (tracks c0 t0) (kernel (sys c)) (λ _, tracks c0 t0) (tracks c0 t0).
Proof.
  intros Hown p Hp.
  pose proof (kernel_sys_spec c p) as H.
  destruct (kernel (sys c) p) as [r p'|e p'|h p']; [| done |].
  - destruct H as (_ & Hself & Hc & _).
    apply (tracks_step c0 t0 p p' [c]); try (by rewrite Hself); try done.
    + rewrite Hself. apply Hp.
    + by constructor.
  - by destruct H as (_ & _ & ->).
Qed.

Lemma tracks_quiet {A} (c0 : ChildProc) (t0 : list call) (m : M world A) :
  (∀ w, ∃ a w', m w = Ret a w' ∧ calls (trace w') = calls (trace w)) →
  triple (tracks c0 t0) (kernel m) (λ _, tracks c0 t0) (tracks c0 t0).
Proof.
  intros Hm p Hp. unfold kernel.
  destruct (Hm (os p)) as (a & w' & -> & Hc).
  apply (tracks_step c0 t0 p _ []); try done.
  - apply Hp.
  - cbn [os]. by rewrite app_nil_r.
Qed.

Lemma tracks_LOG (c0 : ChildProc) (t0 : list call) (l : level) (msg : string) :
  triple (tracks c0 t0) (LOG l msg) (λ _, tracks c0 t0) (tracks c0 t0).
Proof.
  apply tracks_quiet. intros w. eexists _, _. split; [reflexivity |].
  cbn [log_event trace]. rewrite calls_app. simpl. by rewrite app_nil_r.
Qed.

Lemma tracks_SYS_ERROR (c0 : ChildProc) (t0 : list call) (msg : string) :
  triple (tracks c0 t0) (kernel (SYS_ERROR msg)) (λ _, tracks c0 t0) (tracks c0 t0).
Proof. apply tracks_quiet. intros w. by eexists _, _. Qed.

Lemma wait_flags_own (block : bool) : wait_flags block = 0 ∨ wait_flags block = WNOHANG.
Proof. destruct block; [by left | by right]. Qed.

Lemma tracks_check_child (c0 : ChildProc) (t0 : list call) (block : bool) :
  triple (tracks c0 t0) (check_child block) (λ _, tracks c0 t0) (tracks c0 t0).
Proof.
  intros p Hp.
  pose proof (check_child_spec block p) as H.
  assert (Hown : ∀ n, Forall (own_call (child_pid_ c0) (child_event_fd_ c0))
                        (replicate n (Waitpid (child_pid_ (self p)) (wait_flags block)))).
  { intros n. apply Forall_replicate. split; [apply Hp | apply wait_flags_own]. }
  destruct (check_child block p) as [[] p'|e p'|h p']; [| done |].
  - destruct H as (pre & r & _ & _ & _ & Hc & Hpid & Hfd & Hst & _).
    eapply (tracks_step c0 t0 p p'); [exact Hp | exact Hpid | exact Hfd | | exact Hc | apply Hown].
    rewrite Hst. destruct Hp as (_ & _ & Hlife & _).
    destruct (verdict_cases r (state_ (self p))) as [-> | ->];
      [apply lifecycle_to_died | done].
  - destruct H as (_ & _ & Hself & _ & Hc).
    eapply (tracks_step c0 t0 p p');
      [exact Hp | by rewrite Hself | by rewrite Hself | | exact Hc | apply Hown].
    rewrite Hself. apply Hp.
Qed.

Lemma triple_pre {S A} (P : S → Prop) (φ : Prop) (m : M S A) (Q : A → S → Prop)
    (E : S → Prop) :
  (∀ s, P s → φ) → (φ → triple P m Q E) → triple P m Q E.
Proof. intros Hφ Hm s Hs. by apply (Hm (Hφ s Hs)). Qed.

Lemma triple_weaken {S A} (P P' : S → Prop) (m : M S A) (Q : A → S → Prop) (E : S → Prop) :
  triple P' m Q E → (∀ s, P s → P' s) → triple P m Q E.
Proof. intros Hm HP. apply (triple_conseq P P' m Q Q E E); auto. Qed.

Lemma tracks_set_state_ (c0 : ChildProc) (t0 : list call) (st : State) :
  lifecycle (state_ c0) st →
  triple (tracks c0 t0) (set_state_ st) (λ _, tracks c0 t0) (tracks c0 t0).
Proof.
  intros Hst p Hp. unfold set_state_, modify.
  eapply (tracks_step c0 t0 p _ []); cbn [self os state_ child_pid_ child_event_fd_];
    try done.
  by rewrite app_nil_r.
Qed.

Lemma tracks_is_alive (c0 : ChildProc) (t0 : list call) :
  triple (tracks c0 t0) is_alive (λ _, tracks c0 t0) (tracks c0 t0).
Proof.
  unfold is_alive, died. apply triple_this. intros d.
  eapply triple_bind with (Q := λ _, tracks c0 t0).
  - apply triple_when.
    + intros _. eapply triple_weaken; [apply tracks_check_child | intros s' [Hs' Hv']; exact Hs'].
    + intros s' [Hs' Hv']; exact Hs'.
  - intros _. apply triple_this. intros d'.
    eapply triple_weaken; [apply triple_ret_const | intros s' [Hs' Hv']; exact Hs'].
Qed.

Lemma tracks_terminate (c0 : ChildProc) (t0 : list call) (force : bool) :
  triple (tracks c0 t0) (terminate force) (λ _, tracks c0 t0) (tracks c0 t0).
Proof.
  unfold terminate, died.
  eapply triple_bind; [apply tracks_check_child |]. intros ?.
  apply triple_this. intros d. destruct d.
  { eapply triple_weaken; [apply triple_ret_const | intros s' [Hs' Hv']; exact Hs']. }
  eapply triple_weaken with (P' := tracks c0 t0); [| intros s' [Hs' Hv']; exact Hs'].
  apply triple_this. intros pid.
  apply (triple_pre _ (pid = child_pid_ c0)).
  { intros p [Hp <-]. apply Hp. }
  intros ->.
  eapply triple_weaken with (P' := tracks c0 t0); [| intros s' [Hs' Hv']; exact Hs'].
  eapply triple_bind with (Q := λ _, tracks c0 t0).
  { apply triple_when; [intros _; apply tracks_LOG | done]. }
  intros ?.
  eapply triple_bind with (Q := λ _, tracks c0 t0).
  { apply tracks_sys. split; [done |]. destruct force; auto. }
  intros ?. apply triple_this. intros st.
  eapply triple_weaken with (P' := tracks c0 t0); [| intros s' [Hs' Hv']; exact Hs'].
  eapply triple_bind with (Q := λ _, tracks c0 t0).
  { apply triple_when; [intros _ | done].
    eapply triple_bind; [apply tracks_sys; split; auto |].
    intros ?. apply triple_ret_const. }
  intros ?. apply tracks_check_child.
Qed.

Lemma tracks_resume (c0 : ChildProc) (t0 : list call) :
  triple (tracks c0 t0) resume (λ _, tracks c0 t0) (tracks c0 t0).
Proof.
  unfold resume. apply triple_this. intros st.
  eapply triple_weaken with (P' := tracks c0 t0); [| intros s' [Hs' Hv']; exact Hs'].
  eapply triple_bind with (Q := λ _, tracks c0 t0).
  { unfold assert. destruct (bool_decide _); [apply triple_ret_const | by apply triple_stop]. }
  intros ?. apply triple_this. intros pid.
  apply (triple_pre _ (pid = child_pid_ c0)).
  { intros p [Hp <-]. apply Hp. }
  intros ->.
  eapply triple_weaken with (P' := tracks c0 t0); [| intros s' [Hs' Hv']; exact Hs'].
  eapply triple_bind; [apply tracks_sys; split; auto |].
  intros ?. apply triple_ret_const.
Qed.

Lemma tracks_errno (c0 : ChildProc) (t0 : list call) :
  triple (tracks c0 t0) (kernel (gets errno)) (λ _, tracks c0 t0) (tracks c0 t0).
Proof. apply tracks_quiet. intros w. by eexists _, _. Qed.

Lemma tracks_report_status (c0 : ChildProc) (t0 : list call) (wstatus : Z) :
  triple (tracks c0 t0) (report_status wstatus) (λ _, tracks c0 t0) (tracks c0 t0).
Proof. unfold report_status. by apply triple_throw. Qed.

(** Throwing the system error built from [errno]. *)
Lemma tracks_throw_SYS_ERROR {A} (c0 : ChildProc) (t0 : list call) (msg : string)
    (Q : A → process → Prop) :
  triple (tracks c0 t0) (e <- kernel (SYS_ERROR msg) ;; throw e) Q (tracks c0 t0).
Proof.
  eapply triple_bind; [apply tracks_SYS_ERROR |]. intros e. by apply triple_throw.
Qed.

Lemma tracks_run (c0 : ChildProc) (t0 : list call) (pause : bool) :
  triple (tracks c0 t0) (run pause) (λ _, tracks c0 t0) (tracks c0 t0).
Proof.
  unfold run.
  eapply triple_bind; [apply tracks_is_alive |]. intros alive.
  destruct (negb alive); [by apply triple_throw |].
  apply triple_this. intros st.
  unfold assert. case_bool_decide as Hst; cycle 1.
  { eapply triple_bind with (Q := λ _ _, False);
      [apply triple_stop; intros s [Hs _]; exact Hs | intros ? s []]. }
  subst st.
  apply (triple_pre _ (∀ st', lifecycle (state_ c0) st')).
  { intros p [(_ & _ & Hlife & _) Heq] st'. rewrite Heq in Hlife.
    by apply lifecycle_at_forked. }
  intros Hany.
  eapply triple_weaken with (P' := tracks c0 t0); [| intros s' [Hs' Hv']; exact Hs'].
  eapply triple_bind; [apply triple_ret_const |]. intros ?.
  apply triple_this. intros fd.
  apply (triple_pre _ (fd = child_event_fd_ c0)).
  { intros p [Hp <-]. apply Hp. }
  intros ->.
  eapply triple_weaken with (P' := tracks c0 t0); [| intros s' [Hs' Hv']; exact Hs'].
  apply triple_this. intros pid.
  apply (triple_pre _ (pid = child_pid_ c0)).
  { intros p [Hp <-]. apply Hp. }
  intros ->.
  eapply triple_weaken with (P' := tracks c0 t0); [| intros s' [Hs' Hv']; exact Hs'].
  eapply triple_bind.
  { apply tracks_sys. repeat split; destruct pause; auto. }
  intros r.
  destruct (res_ret r <? 0).
  { eapply triple_bind; [apply tracks_sys; done |]. intros ?.
    eapply triple_bind; [apply tracks_terminate |]. intros ?.
    apply tracks_throw_SYS_ERROR. }
  eapply triple_bind; [apply tracks_sys; done |]. intros ?.
  destruct (negb pause); [by apply tracks_set_state_ |].
  eapply triple_bind; [by apply tracks_set_state_ |]. intros ?.
  eapply triple_bind; [apply tracks_sys; split; auto |]. intros r1.
  eapply triple_bind; [apply tracks_errno |]. intros e.
  eapply triple_bind with (Q := λ _, tracks c0 t0).
  { apply triple_when; [intros _; by apply triple_throw | done]. }
  intros ?.
  eapply triple_bind with (Q := λ _, tracks c0 t0).
  { apply triple_when; [intros _; apply tracks_report_status | done]. }
  intros ?.
  eapply triple_try_catch with (E1 := tracks c0 t0); [| | done].
  - eapply triple_bind; [apply tracks_sys; split; auto |]. intros r2.
    eapply triple_bind with (Q := λ _, tracks c0 t0).
    { apply triple_when; [intros _; apply tracks_throw_SYS_ERROR | done]. }
    intros ?.
    eapply triple_bind; [apply tracks_sys; split; auto |]. intros r3.
    eapply triple_bind with (Q := λ _, tracks c0 t0).
    { apply triple_when; [intros _; apply tracks_throw_SYS_ERROR | done]. }
    intros ?.
    eapply triple_bind; [apply tracks_sys; split; auto |]. intros r4.
    eapply triple_bind with (Q := λ _, tracks c0 t0).
    { apply triple_when; [intros _; apply tracks_throw_SYS_ERROR | done]. }
    intros ?.
    destruct (_ && _); [apply triple_ret_const | apply tracks_report_status].
  - intros e'.
    eapply triple_bind; [apply tracks_sys; split; auto |]. intros ?.
    eapply triple_bind; [apply tracks_terminate |]. intros ?.
    apply tracks_throw_SYS_ERROR.
Qed.

Lemma tracks_destroy (c0 : ChildProc) (t0 : list call) :
  triple (tracks c0 t0) destroy (λ _, tracks c0 t0) (tracks c0 t0).
Proof.
  unfold destroy. apply triple_this. intros fd.
  apply (triple_pre _ (fd = child_event_fd_ c0)).
  { intros p [Hp <-]. apply Hp. }
  intros ->.
  eapply triple_weaken with (P' := tracks c0 t0); [| intros s' [Hs' Hv']; exact Hs'].
  eapply triple_bind with (Q := λ _, tracks c0 t0).
  { apply triple_when; [intros _ | done].
    eapply triple_bind; [apply tracks_sys; done |].
    intros ?. apply triple_ret_const. }
  intros ?.
  eapply triple_bind; [apply tracks_is_alive |]. intros alive.
  apply triple_when; [intros _; apply tracks_terminate | done].
Qed.

(** From the invariant to the two readings of it. *)
Lemma tracks_final {A} (m : M process A) :
  (∀ c0 t0, triple (tracks c0 t0) m (λ _, tracks c0 t0) (tracks c0 t0)) →
  ∀ p, tracks (self p) (calls (trace (os p))) (final (m p)).
Proof.
  intros Hm p. specialize (Hm (self p) (calls (trace (os p))) p (tracks_start p)).
  by destruct (m p).
Qed.

Lemma tracks_keeps_lifecycle {A} (m : M process A) :
  (∀ c0 t0, triple (tracks c0 t0) m (λ _, tracks c0 t0) (tracks c0 t0)) →
  keeps_lifecycle m.
Proof. intros Hm p. destruct (tracks_final m Hm p) as (? & ? & ? & _). done. Qed.

Lemma tracks_keeps_to_child {A} (m : M process A) :
  (∀ c0 t0, triple (tracks c0 t0) m (λ _, tracks c0 t0) (tracks c0 t0)) →
  keeps_to_child m.
Proof. intros Hm p. destruct (tracks_final m Hm p) as (_ & _ & _ & Hl). done. Qed.

(** The pid and the gate descriptor of a tracker never change, and its
    state only moves forward, Forked to Running or PausedAtExec to Dead
    (Dead is never left), in every method and on every way out of it:
    return, exception, failed assertion or a wait that never ends. *)
Theorem methods_keep_lifecycle (pause force block : bool) :
  keeps_lifecycle is_alive
  ∧ keeps_lifecycle (run pause)
  ∧ keeps_lifecycle resume
  ∧ keeps_lifecycle (terminate force)
  ∧ keeps_lifecycle (check_child block)
  ∧ keeps_lifecycle destroy.
Proof.
  split_and!; apply tracks_keeps_lifecycle; intros c0 t0.
  - apply tracks_is_alive.
  - apply tracks_run.
  - apply tracks_resume.
  - apply tracks_terminate.
  - apply tracks_check_child.
  - apply tracks_destroy.
Qed.

(** No method ever signals, waits for or traces a process other than its
    own child, or writes to or closes a descriptor other than its own gate:
    every system call it makes is a waitpid (blocking or WNOHANG), a kill
    with SIGKILL or SIGTERM or a ptrace detach, setoptions or cont on
    [child_pid_], or a write of one 8-byte GO or PAUSE token to, or a
    close of, [child_event_fd_]. *)
Theorem methods_keep_to_child (pause force block : bool) :
  keeps_to_child is_alive
  ∧ keeps_to_child (run pause)
  ∧ keeps_to_child resume
  ∧ keeps_to_child (terminate force)
  ∧ keeps_to_child (check_child block)
  ∧ keeps_to_child destroy.
Proof.
  split_and!; apply tracks_keeps_to_child; intros c0 t0.
  - apply tracks_is_alive.
  - apply tracks_run.
  - apply tracks_resume.
  - apply tracks_terminate.
  - apply tracks_check_child.
  - apply tracks_destroy.
Qed.

(** ** Exceptions *)

Lemma throws_mono {S A} (m : M S A) (Ex Ex' : exn → Prop) :
  throws m Ex → (∀ e, Ex e → Ex' e) → throws m Ex'.
Proof. intros Hm HEx s e s' H. apply HEx. by apply (Hm s e s'). Qed.

Lemma throws_ret {S A} (a : A) (Ex : exn → Prop) : throws (ret (S := S) a) Ex.
Proof. intros s e s' H. discriminate H. Qed.

Lemma throws_stop {S A} (h : halt) (Ex : exn → Prop) : throws (stop (S := S) (A := A) h) Ex.
Proof. intros s e s' H. discriminate H. Qed.

Lemma throws_throw {S A} (e : exn) (Ex : exn → Prop) :
  Ex e → throws (throw (S := S) (A := A) e) Ex.
Proof. intros He s e' s' H. injection H as <- _. exact He. Qed.

Lemma throws_bind {S A B} (m : M S A) (k : A → M S B) (Ex : exn → Prop) :
  throws m Ex → (∀ a, throws (k a) Ex) → throws (bind m k) Ex.
Proof.
  intros Hm Hk s e s' H. unfold bind in H.
  destruct (m s) as [a s1|e1 s1|h s1] eqn:Hms; [| | discriminate H].
  - by apply (Hk a s1 e s').
  - injection H as <- _. by apply (Hm s e1 s1).
Qed.

Lemma throws_try_catch {S A} (body : M S A) (handler : exn → M S A) (Ex : exn → Prop) :
  (∀ e, throws (handler e) Ex) → throws (try_catch body handler) Ex.
Proof.
  intros Hh s e s' H. unfold try_catch in H.
  destruct (body s) as [a s1|e1 s1|h s1]; [discriminate H | | discriminate H].
  by apply (Hh e1 s1 e s').
Qed.

Lemma throws_when {S} (b : bool) (m : M S unit) (Ex : exn → Prop) :
  throws m Ex → throws (when b then m) Ex.
Proof. intros Hm. destruct b; [done | apply throws_ret]. Qed.

Lemma throws_kernel {A} (m : M world A) (Ex : exn → Prop) :
  throws m Ex → throws (kernel m) Ex.
Proof.
  intros Hm p e p' H. unfold kernel in H.
  destruct (m (os p)) as [a w|e1 w|h w] eqn:Hmw; [discriminate H | | discriminate H].
  injection H as <- _. by apply (Hm (os p) e1 w).
Qed.

Lemma throws_sys (c : call) (Ex : exn → Prop) : throws (sys c) Ex.
Proof. intros w e w' H. unfold sys in H. destruct (script w); discriminate H. Qed.

Lemma throws_gets {S A} (f : S → A) (Ex : exn → Prop) : throws (gets f) Ex.
Proof. intros s e s' H. discriminate H. Qed.

Lemma throws_modify {S} (f : S → S) (Ex : exn → Prop) : throws (modify f) Ex.
Proof. intros s e s' H. discriminate H. Qed.

Lemma throws_check_child (block : bool) (Ex : exn → Prop) : throws (check_child block) Ex.
Proof.
  intros p e p' H. pose proof (check_child_spec block p) as Hs.
  rewrite H in Hs. done.
Qed.

Lemma throws_SYS_ERROR_throw {A} (msg : string) :
  throws (A := A) (e <- kernel (SYS_ERROR msg) ;; throw e)
    (λ e, ∃ code, e = system_error code msg).
Proof.
  intros p e p' H. unfold bind, kernel, SYS_ERROR, gets, throw in H.
  injection H as <- _. by eexists.
Qed.

Lemma throws_is_alive (Ex : exn → Prop) : throws is_alive Ex.
Proof.
  unfold is_alive, died, this.
  apply throws_bind; [apply throws_gets |]. intros d.
  apply throws_bind; [apply throws_when, throws_check_child |]. intros ?.
  apply throws_bind; [apply throws_gets |]. intros d'. apply throws_ret.
Qed.

Lemma throws_terminate (force : bool) (Ex : exn → Prop) : throws (terminate force) Ex.
Proof.
  unfold terminate, died, this, LOG, emit.
  apply throws_bind; [apply throws_check_child |]. intros ?.
  apply throws_bind; [apply throws_gets |]. intros d.
  destruct d; [apply throws_ret |].
  apply throws_bind; [apply throws_gets |]. intros pid.
  apply throws_bind; [apply throws_when, throws_kernel, throws_modify |]. intros ?.
  apply throws_bind; [apply throws_kernel, throws_sys |]. intros ?.
  apply throws_bind; [apply throws_gets |]. intros st.
  apply throws_bind; [| intros ?; apply throws_check_child].
  apply throws_when. apply throws_bind; [apply throws_kernel, throws_sys |].
  intros ?. apply throws_ret.
Qed.

(** Apart from [run], no method throws: [is_alive], [terminate], [resume],
    [check_child] and the destructor leave by returning (or stop), whatever
    the kernel answers. *)
Theorem methods_never_throw (force block : bool) :
  throws is_alive (λ _, False)
  ∧ throws (terminate force) (λ _, False)
  ∧ throws resume (λ _, False)
  ∧ throws (check_child block) (λ _, False)
  ∧ throws destroy (λ _, False).
Proof.
  split_and!.
  - apply throws_is_alive.
  - apply throws_terminate.
  - unfold resume, this, assert.
    apply throws_bind; [apply throws_gets |]. intros st.
    apply throws_bind.
    { destruct (bool_decide _); [apply throws_ret | apply throws_stop]. }
    intros ?. apply throws_bind; [apply throws_gets |]. intros pid.
    apply throws_bind; [apply throws_kernel, throws_sys |]. intros ?. apply throws_ret.
  - apply throws_check_child.
  - unfold destroy, this.
    apply throws_bind; [apply throws_gets |]. intros fd.
    apply throws_bind.
    { apply throws_when. apply throws_bind; [apply throws_kernel, throws_sys |].
      intros ?. apply throws_ret. }
    intros ?. apply throws_bind; [apply throws_is_alive |]. intros alive.
    apply throws_when, throws_terminate.
Qed.

(** ** Liveness polls *)

Lemma is_alive_spec (p : process) :
  match is_alive p with
  | Ret b p' =>
      b = negb (bool_decide (state_ (self p') = DIED))
      ∧ ((state_ (self p) = DIED ∧ p' = p)
         ∨ (state_ (self p) ≠ DIED ∧ check_child false p = Ret tt p'))
  | Stop h p' => state_ (self p) ≠ DIED ∧ check_child false p = Stop h p'
  | Throw _ _ => False
  end.
Proof.
  unfold is_alive, died. unfold bind at 1. unfold this at 1. unfold gets at 1.
  case_bool_decide as Hd; cbn [negb].
  - unfold bind, ret, this, gets. rewrite bool_decide_eq_true_2 by done.
    split; [done |]. by left.
  - unfold bind at 1.
    pose proof (throws_check_child false (λ _, False) p) as Hnt.
    destruct (check_child false p) as [[] p1|e p1|h p1] eqn:Hc.
    + unfold bind, this, gets, ret. split; [done |]. by right.
    + by apply (Hnt e p1).
    + done.
Qed.

(** [check_child] changes the tracker only by marking it Dead. *)
Lemma check_child_changes_only_to_dead (block : bool) (p : process) :
  self (final (check_child block p)) = self p
  ∨ state_ (self (final (check_child block p))) = DIED.
Proof.
  set (I := λ q : process, self q = self p ∨ state_ (self q) = DIED).
  assert (Hk : ∀ A (m : M world A), triple I (kernel m) (λ _, I) I).
  { intros A m q Hq. unfold kernel. by destruct (m (os q)). }
  assert (Hdied : triple (λ _, True) (set_state_ DIED) (λ _, I) I).
  { intros q _. right. done. }
  assert (H : triple I (check_child block) (λ _, I) I).
  { unfold check_child.
    apply triple_this. intros pid.
    eapply triple_weaken with (P' := I); [| intros s' [Hs' Hv']; exact Hs'].
    eapply triple_bind with (Q := λ _, I). { by intros q Hq. }
    intros turns.
    eapply triple_bind; [apply Hk |]. intros r.
    eapply triple_bind; [apply Hk |]. intros e.
    eapply triple_bind with (Q := λ _, I).
    { destruct (res_ret r <? 0); [| apply triple_ret_const].
      destruct (e =? EINVAL).
      - eapply triple_bind; [apply Hk |]. intros ?. apply triple_ret_const.
      - eapply triple_bind; [apply Hk |]. intros ?.
        eapply triple_bind; [eapply triple_weaken; [apply Hdied | done] |].
        intros ?. apply triple_ret_const. }
    intros proceed.
    destruct (negb proceed); [apply triple_ret_const |].
    destruct (res_ret r =? 0); [apply triple_ret_const |].
    unfold check_wstatus.
    destruct (WIFEXITED _).
    { eapply triple_bind with (Q := λ _ _, True); [by intros q Hq | intros ?; apply Hdied]. }
    destruct (WIFSIGNALED _); [| apply triple_ret_const].
    eapply triple_bind with (Q := λ _ _, True); [by intros q Hq | intros ?; apply Hdied]. }
  specialize (H p (or_introl eq_refl)).
  by destruct (check_child block p).
Qed.



(** ** Run *)

Lemma no_return_throw {S A} (e : exn) : no_return (throw (S := S) (A := A) e).
Proof. intros s a s' H. discriminate H. Qed.

Lemma no_return_bind {S A B} (m : M S A) (k : A → M S B) :
  (∀ a, no_return (k a)) → no_return (bind m k).
Proof.
  intros Hk s b s' H. unfold bind in H.
  destruct (m s) as [a s1|e s1|h s1]; [by apply (Hk a s1 b s') | discriminate H..].
Qed.

(** The gate is written from state Forked only: [run] on a tracker in any
    other state never returns and makes no call but non-blocking polls of
    its child, so no second token is written and nothing is closed.  It
    ends with "Child died unexpectedly" on a Dead tracker, and otherwise on
    the failed assertion (or in a poll that is never answered). *)
Theorem run_needs_forked (pause : bool) (p : process) :
  state_ (self p) ≠ FORKED →
  match run pause p with
  | Ret _ _ => False
  | Throw e p' => e = runtime_error "Child died unexpectedly" ∧ state_ (self p') = DIED
  | Stop h p' => (h = assertion_failed ∧ self p' = self p) ∨ h = blocked
  end
  ∧ ∃ n, calls (trace (os (final (run pause p)))) =
         calls (trace (os p)) ++ replicate n (Waitpid (child_pid_ (self p)) WNOHANG).
Proof.
  intros Hst. remember (run pause p) as o eqn:Ho.
  unfold run in Ho. unfold bind at 1 in Ho.
  pose proof (is_alive_spec p) as H.
  destruct (is_alive p) as [b p1|e p1|h p1]; [| done |].
  - destruct H as [-> Hcase].
    assert (Hpolls : ∃ n, calls (trace (os p1)) =
              calls (trace (os p)) ++ replicate n (Waitpid (child_pid_ (self p)) WNOHANG)).
    { destruct Hcase as [[_ ->] | [_ Hc]].
      - exists 0%nat. cbn. by rewrite app_nil_r.
      - pose proof (check_child_spec false p) as Hs. rewrite Hc in Hs.
        destruct Hs as (pre & r & _ & _ & _ & Hcalls & _). by eexists. }
    assert (Hch : self p1 = self p ∨ state_ (self p1) = DIED).
    { destruct Hcase as [[_ ->] | [_ Hc]]; [by left |].
      pose proof (check_child_changes_only_to_dead false p) as Hch.
      by rewrite Hc in Hch. }
    case_bool_decide as Hd; cbn [negb] in Ho.
    + subst o. unfold throw. cbn [final]. done.
    + destruct Hch as [Hself | ?]; [| done].
      unfold bind at 1 in Ho. unfold this at 1 in Ho. unfold gets at 1 in Ho.
      unfold bind at 1 in Ho. unfold assert in Ho.
      rewrite bool_decide_eq_false_2 in Ho by (rewrite Hself; done).
      subst o. unfold stop. cbn [final]. split; [by left | done].
  - destruct H as [Hd Hc]. subst o. cbn [final].
    pose proof (check_child_spec false p) as Hs. rewrite Hc in Hs.
    destruct Hs as (-> & _ & _ & _ & Hcalls). split; [by right | by eexists].
Qed.

Lemma run_needs_forked_witness :
  state_ (self stubborn_process) ≠ FORKED
  ∧ match run true stubborn_process with
    | Ret _ _ => False
    | Throw e p' => e = runtime_error "Child died unexpectedly" ∧ state_ (self p') = DIED
    | Stop h p' => (h = assertion_failed ∧ self p' = self stubborn_process) ∨ h = blocked
    end
  ∧ ∃ n, calls (trace (os (final (run true stubborn_process)))) =
         calls (trace (os stubborn_process)) ++
         replicate n (Waitpid (child_pid_ (self stubborn_process)) WNOHANG).
Proof.
  split; [discriminate |].
  apply (run_needs_forked true stubborn_process). discriminate.
Defined.

(** What a [run] that returns has found and done up to the close of the
    gate: the tracker was Forked, the polls of [is_alive] left it as it
    was, one token was written (GO or PAUSE by [pause]) and the gate was
    closed. *)
Lemma run_returns_start (pause : bool) (p p' : process) :
  run pause p = Ret tt p' →
  ∃ n p3,
    state_ (self p) = FORKED
    ∧ self p3 = self p
    ∧ calls (trace (os p3)) =
        calls (trace (os p)) ++
        replicate (Datatypes.S n) (Waitpid (child_pid_ (self p)) WNOHANG) ++
        [Write (child_event_fd_ (self p)) (if pause then CHILD_PTRACE else CHILD_GO) 8;
         Close (child_event_fd_ (self p))]
    ∧ (if pause then True else p' = mk_process (in_state RUNNING (self p)) (os p3)).
Proof.
  intros Hrun. unfold run in Hrun. unfold bind at 1 in Hrun.
  pose proof (is_alive_spec p) as H.
  destruct (is_alive p) as [b p1|e p1|h p1]; [| done | discriminate Hrun].
  destruct H as [-> Hcase].
  case_bool_decide as Hd; cbn [negb] in Hrun; [discriminate Hrun |].
  destruct Hcase as [[Hdead ->] | [Halive Hc]]; [done |].
  pose proof (check_child_spec false p) as Hs.
  pose proof (check_child_changes_only_to_dead false p) as Hch.
  rewrite Hc in Hs, Hch. cbn [final] in Hch.
  destruct Hch as [Hself | ?]; [| done].
  destruct Hs as (pre & r & _ & _ & _ & Hcalls & _).
  unfold bind at 1 in Hrun. unfold this at 1 in Hrun. unfold gets at 1 in Hrun.
  unfold bind at 1 in Hrun. unfold assert in Hrun.
  case_bool_decide as Hst; [| discriminate Hrun].
  unfold ret at 1 in Hrun.
  unfold bind at 1 in Hrun. unfold this at 1 in Hrun. unfold gets at 1 in Hrun.
  unfold bind at 1 in Hrun. unfold this at 1 in Hrun. unfold gets at 1 in Hrun.
  unfold bind at 1 in Hrun.
  match type of Hrun with
  | context [kernel (sys ?c) p1] =>
      pose proof (kernel_sys_spec c p1) as Hw;
      destruct (kernel (sys c) p1) as [rw p2|e p2|h p2]; [| done | discriminate Hrun]
  end.
  destruct Hw as (_ & Hself2 & Hcalls2 & _).
  destruct (res_ret rw <? 0).
  { exfalso. revert Hrun. apply no_return_bind. intros ?.
    apply no_return_bind. intros ?. apply no_return_bind. intros ?.
    apply no_return_throw. }
  unfold bind at 1 in Hrun.
  match type of Hrun with
  | context [kernel (sys ?c) p2] =>
      pose proof (kernel_sys_spec c p2) as Hcl;
      destruct (kernel (sys c) p2) as [rc p3|e p3|h p3]; [| done | discriminate Hrun]
  end.
  destruct Hcl as (_ & Hself3 & Hcalls3 & _).
  exists (length pre), p3.
  split_and!.
  - by rewrite <- Hself.
  - by rewrite Hself3, Hself2.
  - rewrite Hcalls3, Hcalls2, Hcalls, Hself. by rewrite <- !app_assoc.
  - destruct pause; [done |]. cbn [negb] in Hrun.
    unfold set_state_, modify in Hrun. injection Hrun as <-.
    unfold in_state. by rewrite Hself3, Hself2, Hself.
Qed.

(** A [run(false)] that returns has started a Forked child: it polled it,
    wrote one GO token of 8 bytes to the gate and closed the gate, in this
    order and with no other call; the tracker is Running and otherwise as
    it was.  In particular [child_event_fd_] still holds the number of the
    descriptor that has just been closed. *)
Theorem run_go_returns (p p' : process) :
  run false p = Ret tt p' →
  ∃ n,
    state_ (self p) = FORKED
    ∧ self p' = in_state RUNNING (self p)
    ∧ calls (trace (os p')) =
        calls (trace (os p)) ++
        replicate (Datatypes.S n) (Waitpid (child_pid_ (self p)) WNOHANG) ++
        [Write (child_event_fd_ (self p)) CHILD_GO 8; Close (child_event_fd_ (self p))].
Proof.
  intros Hrun.
  destruct (run_returns_start false p p' Hrun) as (n & p3 & Hst & Hself & Hcalls & ->).
  exists n. done.
Qed.

Lemma run_go_returns_witness :
  ∃ p',
    run false (forked_process [ok 0; ok 8; ok 0]) = Ret tt p'
    ∧ ∃ n,
        state_ (self (forked_process [ok 0; ok 8; ok 0])) = FORKED
        ∧ self p' = in_state RUNNING (self (forked_process [ok 0; ok 8; ok 0]))
        ∧ calls (trace (os p')) =
            calls (trace (os (forked_process [ok 0; ok 8; ok 0]))) ++
            replicate (Datatypes.S n)
              (Waitpid (child_pid_ (self (forked_process [ok 0; ok 8; ok 0]))) WNOHANG) ++
            [Write (child_event_fd_ (self (forked_process [ok 0; ok 8; ok 0]))) CHILD_GO 8;
             Close (child_event_fd_ (self (forked_process [ok 0; ok 8; ok 0])))].
Proof.
  eexists. split; [vm_compute; reflexivity |].
  apply (run_go_returns (forked_process [ok 0; ok 8; ok 0])).
  vm_compute. reflexivity.
Defined.






(** ** Waiting *)

(** The retry loop on a script whose interrupted answers are known. *)
Lemma waitpid_retry_skips (pid flags : Z) (pre : list response) (r : response)
    (rest : list response) (turns : nat) (tr : list event) (en : Z)
    (hp : gset block) (nb : block) :
  Forall (λ x, interrupted x = true) pre →
  interrupted r = false →
  (length pre < turns)%nat →
  ∃ en',
    waitpid_retry turns pid flags (mk_world (pre ++ r :: rest) tr en hp nb) =
      Ret r (mk_world rest (tr ++ (Sys (Waitpid pid flags) <$> (pre ++ [r]))) en' hp nb)
    ∧ (res_ret r < 0 → en' = res_errno r).
Proof.
  intros Hpre Hr. revert turns tr en.
  induction Hpre as [|x pre Hx _ IH]; intros turns tr en Hlen.
  - destruct turns as [|n]; [simpl in Hlen; lia |].
    cbn [app waitpid_retry]. unfold bind, sys, gets. cbn [script trace errno heap next_block].
    unfold interrupted in Hr.
    destruct (res_ret r <? 0) eqn:Hneg; cbn [andb] in *.
    + rewrite Hr. eexists. split; [reflexivity | done].
    + eexists. split; [reflexivity |]. apply Z.ltb_ge in Hneg. lia.
  - destruct turns as [|n]; [simpl in Hlen; lia |].
    cbn [app waitpid_retry]. unfold bind at 1. unfold sys at 1.
    cbn [script trace errno heap next_block]. unfold bind at 1. unfold gets at 1.
    cbn [errno]. unfold interrupted in Hx.
    apply andb_prop in Hx as [Hneg Hintr]. rewrite Hneg, Hintr. cbn [andb].
    destruct (IH n (tr ++ [Sys (Waitpid pid flags) x]) (res_errno x)
                ltac:(simpl in Hlen; lia)) as (en' & -> & Hen).
    exists en'. split; [| done]. cbn [fmap list_fmap app]. by rewrite <- app_assoc.
Qed.

(** The tracker [check_child] leaves, by the final answer of the wait and
    the [errno] after it. *)
Lemma check_child_given_answer (block : bool) (p : process) (r : response) (w' : world) :
  waitpid_retry (Datatypes.S (length (script (os p)))) (child_pid_ (self p))
    (wait_flags block) (os p) = Ret r w' →
  ∃ p',
    check_child block p = Ret tt p'
    ∧ script (os p') = script w'
    ∧ self p' =
        if res_ret r <? 0 then
          if errno w' =? EINVAL
          then mk_ChildProc (child_pid_ (self p)) (child_event_fd_ (self p)) DIED
                 (Some 0) (term_signal_ (self p))
          else in_state DIED (self p)
        else if res_ret r =? 0 then self p
        else if WIFEXITED (res_out r)
        then mk_ChildProc (child_pid_ (self p)) (child_event_fd_ (self p)) DIED
               (Some (WEXITSTATUS (res_out r))) (term_signal_ (self p))
        else if WIFSIGNALED (res_out r)
        then mk_ChildProc (child_pid_ (self p)) (child_event_fd_ (self p)) DIED
               (exit_code_ (self p)) (Some (WTERMSIG (res_out r)))
        else self p.
Proof.
  intros Hw. unfold check_child. fold (wait_flags block).
  unfold bind at 1. unfold this at 1. unfold gets at 1.
  unfold bind at 1. unfold gets at 1. unfold bind at 1. unfold kernel at 1.
  rewrite Hw. unfold bind at 1. unfold kernel at 1. unfold gets at 1. cbn [self os].
  destruct (res_ret r <? 0) eqn:Hneg.
  - assert (Hz : (res_ret r =? 0) = false) by (apply Z.ltb_lt in Hneg; apply Z.eqb_neq; lia).
    assert (Hpos : (0 <? res_ret r) = false) by (apply Z.ltb_lt in Hneg; apply Z.ltb_ge; lia).
    destruct (errno w' =? EINVAL).
    + run_monad. rewrite Hz, Hpos. unfold check_wstatus. run_monad.
      eexists. split_and!; reflexivity.
    + run_monad. eexists. split_and!; reflexivity.
  - run_monad. destruct (res_ret r =? 0) eqn:Hz.
    { eexists. split_and!; reflexivity. }
    assert (Hpos : (0 <? res_ret r) = true).
    { apply Z.ltb_ge in Hneg. apply Z.eqb_neq in Hz. apply Z.ltb_lt. lia. }
    rewrite Hpos. unfold check_wstatus.
    destruct (WIFEXITED (res_out r)); [run_monad; eexists; split_and!; reflexivity |].
    destruct (WIFSIGNALED (res_out r)); run_monad; eexists; split_and!; try reflexivity.
Qed.

(** Interrupted waits are transparent: when the kernel answers EINTR any
    number of times before its final answer, [check_child] calls waitpid
    once more for each, consumes exactly these answers, and leaves the
    tracker exactly as it would have had the final answer come at once. *)
Theorem check_child_retries_interrupted (block : bool) (c : ChildProc) (w : world)
    (pre : list response) (r : response) (rest : list response) :
  script w = pre ++ r :: rest →
  Forall (λ x, interrupted x = true) pre →
  interrupted r = false →
  ∃ p' q',
    check_child block (mk_process c w) = Ret tt p'
    ∧ check_child block
        (mk_process c (mk_world (r :: rest) (trace w) (errno w) (heap w) (next_block w)))
      = Ret tt q'
    ∧ self p' = self q'
    ∧ script (os p') = rest
    ∧ script (os q') = rest
    ∧ calls (trace (os p')) =
        calls (trace w) ++
        replicate (Datatypes.S (length pre)) (Waitpid (child_pid_ c) (wait_flags block)).
Proof.
  intros Hscr Hpre Hr. destruct w as [scr tr en hp nb]. cbn in Hscr. subst scr.
  cbn [trace errno heap next_block].
  destruct (waitpid_retry_skips (child_pid_ c) (wait_flags block) pre r rest
              (Datatypes.S (length (pre ++ r :: rest))) tr en hp nb Hpre Hr
              ltac:(rewrite length_app; lia)) as (en1 & Hw1 & Hen1).
  destruct (waitpid_retry_skips (child_pid_ c) (wait_flags block) [] r rest
              (Datatypes.S (length (r :: rest))) tr en hp nb ltac:(constructor) Hr
              ltac:(simpl; lia)) as (en2 & Hw2 & Hen2).
  cbn [app] in Hw2.
  pose proof (check_child_given_answer block
                (mk_process c (mk_world (pre ++ r :: rest) tr en hp nb)) r _ Hw1)
    as (p' & Hp' & Hscr1 & Hself1).
  pose proof (check_child_given_answer block
                (mk_process c (mk_world (r :: rest) tr en hp nb)) r _ Hw2)
    as (q' & Hq' & Hscr2 & Hself2).
  exists p', q'. cbn [self os script errno] in *.
  split_and!; try done.
  - rewrite Hself1, Hself2. destruct (res_ret r <? 0) eqn:Hneg; [| done].
    apply Z.ltb_lt in Hneg. by rewrite (Hen1 Hneg), (Hen2 Hneg).
  - pose proof (check_child_spec block (mk_process c (mk_world (pre ++ r :: rest) tr en hp nb)))
      as Hs.
    rewrite Hp' in Hs. destruct Hs as (pre' & r' & Hs & Hpre' & Hr' & Hcalls & _).
    cbn [self os script trace] in *. rewrite Hscr1 in Hs.
    assert (length pre' = length pre) as <-; [| done].
    clear -Hs Hpre Hpre' Hr Hr'.
    revert pre' Hs Hpre'. induction Hpre as [|x pre Hx _ IH]; intros pre' Hs Hpre'.
    + destruct Hpre' as [|y pre' Hy _]; [done |].
      cbn in Hs. injection Hs as -> _. congruence.
    + destruct Hpre' as [|y pre' Hy Hpre']; cbn in Hs.
      * injection Hs as <- _. congruence.
      * injection Hs as _ Hs. cbn. f_equal. by apply IH.
Qed.

Lemma check_child_retries_interrupted_witness :
  Forall (λ x, interrupted x = true) [failed EINTR; failed EINTR]
  ∧ interrupted (reported 4242 0) = false
  ∧ ∃ p' q',
      check_child true
        (mk_process (tracker RUNNING) (boot [failed EINTR; failed EINTR; reported 4242 0]))
      = Ret tt p'
      ∧ check_child true
          (mk_process (tracker RUNNING)
             (mk_world [reported 4242 0]
                (trace (boot [failed EINTR; failed EINTR; reported 4242 0]))
                (errno (boot [failed EINTR; failed EINTR; reported 4242 0]))
                (heap (boot [failed EINTR; failed EINTR; reported 4242 0]))
                (next_block (boot [failed EINTR; failed EINTR; reported 4242 0]))))
        = Ret tt q'
      ∧ self p' = self q'
      ∧ script (os p') = []
      ∧ script (os q') = []
      ∧ calls (trace (os p')) =
          calls (trace (boot [failed EINTR; failed EINTR; reported 4242 0])) ++
          replicate (Datatypes.S (length [failed EINTR; failed EINTR]))
            (Waitpid (child_pid_ (tracker RUNNING)) (wait_flags true)).
Proof.
  split; [repeat constructor |]. split; [reflexivity |].
  apply (check_child_retries_interrupted true (tracker RUNNING)
           (boot [failed EINTR; failed EINTR; reported 4242 0])
           [failed EINTR; failed EINTR] (reported 4242 0) []);
    [reflexivity | repeat constructor | reflexivity].
Defined.

(** A wait that fails for good (neither with EINTR, which is retried, nor
    with EINVAL) leaves the tracker Dead without a status being read: pid,
    gate, exit code and signal stay as they were, and one WARNING that
    names the pid and the error number is logged after the call. *)
Theorem check_child_failed_wait_marks_dead (block : bool) (p : process)
    (r : response) (rest : list response) :
  script (os p) = r :: rest →
  res_ret r < 0 →
  res_errno r ≠ EINTR →
  res_errno r ≠ EINVAL →
  ∃ p',
    check_child block p = Ret tt p'
    ∧ script (os p') = rest
    ∧ trace (os p') =
        trace (os p) ++
        [Sys (Waitpid (child_pid_ (self p)) (wait_flags block)) r;
         Log WARNING ("waitpid(" +:+ pretty (child_pid_ (self p)) +:+
                      ") returned unexpected error: " +:+ pretty (res_errno r) +:+
                      ". Marking the child as dead")]
    ∧ self p' =
        mk_ChildProc (child_pid_ (self p)) (child_event_fd_ (self p)) DIED
          (exit_code_ (self p)) (term_signal_ (self p)).
Proof.
  intros Hscr Hneg Hintr Hinval. destruct p as [c [scr tr en hp nb]]. cbn in Hscr. subst scr.
  cbn [self os script trace].
  apply Z.ltb_lt in Hneg. apply Z.eqb_neq in Hintr. apply Z.eqb_neq in Hinval.
  unfold check_child. fold (wait_flags block).
  unfold bind at 1. unfold this at 1. unfold gets at 1.
  unfold bind at 1. unfold gets at 1. unfold bind at 1. unfold kernel at 1.
  cbn [self os script length waitpid_retry].
  unfold bind at 1. unfold sys at 1. cbn [script trace errno heap next_block].
  unfold bind at 1. unfold gets at 1. cbn [errno]. rewrite Hneg, Hintr. cbn [andb].
  unfold ret at 1. unfold bind at 1. unfold kernel at 1. unfold gets at 1.
  cbn [self os errno]. rewrite Hinval.
  run_monad. rewrite Hneg. eexists. split_and!; try reflexivity.
  cbn [trace os self log_event]. rewrite <- app_assoc. reflexivity.
Qed.

Lemma check_child_failed_wait_marks_dead_witness :
  script (os reaped_process) = [failed ECHILD]
  ∧ res_ret (failed ECHILD) < 0
  ∧ res_errno (failed ECHILD) ≠ EINTR
  ∧ res_errno (failed ECHILD) ≠ EINVAL
  ∧ ∃ p',
      check_child false reaped_process = Ret tt p'
      ∧ script (os p') = []
      ∧ trace (os p') =
          trace (os reaped_process) ++
          [Sys (Waitpid (child_pid_ (self reaped_process)) (wait_flags false)) (failed ECHILD);
           Log WARNING ("waitpid(" +:+ pretty (child_pid_ (self reaped_process)) +:+
                        ") returned unexpected error: " +:+
                        pretty (res_errno (failed ECHILD)) +:+
                        ". Marking the child as dead")]
      ∧ self p' =
          mk_ChildProc (child_pid_ (self reaped_process))
            (child_event_fd_ (self reaped_process)) DIED
            (exit_code_ (self reaped_process))
            (term_signal_ (self reaped_process)).
Proof.
  split; [reflexivity |]. split; [reflexivity |]. split; [discriminate |].
  split; [discriminate |].
  apply (check_child_failed_wait_marks_dead false reaped_process (failed ECHILD) []);
    [reflexivity | reflexivity | discriminate | discriminate].
Defined.

(** ** More on command validation and launch *)

Section LaunchOutcomes.

Variable resolve_binary_path : string → list string.
Variable abs_path : string → option string.
Variable split_string : string → ascii → list string.

Local Abbreviation validate := (validate_cmd resolve_binary_path abs_path).
Local Abbreviation launch_ := (launch resolve_binary_path abs_path split_string).

Lemma validate_cmd_returns {S} (cmd cmd' : list string) (s s' : S) :
  validate cmd s = Ret cmd' s' →
  s' = s
  ∧ ∃ cmd0 args front rest,
      cmd = cmd0 :: args
      ∧ resolve_binary_path cmd0 = front :: rest
      ∧ cmd' = front :: args
      ∧ length cmd' = length cmd
      ∧ Z.of_nat (length cmd') < maxargs - 1.
Proof.
  intros H. pose proof (validate_cmd_pure resolve_binary_path abs_path cmd s) as Hpure.
  rewrite H in Hpure. split; [done |].
  unfold validate_cmd in H. destruct cmd as [|cmd0 args]; [discriminate H |].
  unfold bind in H.
  destruct (resolve_binary_path cmd0) as [|front rest] eqn:Hres; [discriminate H |].
  exists cmd0, args, front, rest.
  assert (Hfin : ∀ o : outcome S (list string),
            o = Ret cmd' s' →
            o = (if maxargs - 1 <=? Z.of_nat (length (front :: args))
                 then throw (too_many_arguments (length (front :: args)))
                 else ret (front :: args)) s →
            cmd' = front :: args ∧ Z.of_nat (length (front :: args)) < maxargs - 1).
  { intros o -> Ho. destruct (maxargs - 1 <=? _) eqn:Hb; [discriminate Ho |].
    injection Ho as -> _. apply Z.leb_gt in Hb. done. }
  destruct rest as [|second rest].
  - destruct (Hfin _ H eq_refl) as [-> Hlen]. done.
  - destruct (_ =? 1)%nat; [| discriminate H].
    destruct (Hfin _ H eq_refl) as [-> Hlen]. done.
Qed.

(** An accepted command is the given one with its first token replaced by
    the first candidate of the search: the arguments and the token count
    are untouched, the count is below [maxargs - 1], so the command and
    its terminator fit the [maxargs] slots of the child's [argv], and the
    state is not touched. *)
Theorem validate_cmd_accepts {S} (cmd cmd' : list string) (s s' : S) :
  validate cmd s = Ret cmd' s' →
  s' = s
  ∧ ∃ cmd0 args front rest,
      cmd = cmd0 :: args
      ∧ resolve_binary_path cmd0 = front :: rest
      ∧ cmd' = front :: args
      ∧ length cmd' = length cmd
      ∧ Z.of_nat (length cmd') < maxargs - 1.
Proof. apply validate_cmd_returns. Qed.

(** The outcome of [validate_cmd] does not depend on the state it runs in. *)
Lemma validate_cmd_any_state {S1 S2} (cmd : list string) (s1 : S1) (s2 : S2) :
  match validate cmd s1 with
  | Ret cmd' _ => validate cmd s2 = Ret cmd' s2
  | Throw e _ => validate cmd s2 = Throw e s2
  | Stop h _ => validate cmd s2 = Stop h s2
  end.
Proof.
  unfold validate_cmd. destruct cmd as [|cmd0 args]; [done |].
  unfold bind, ret, throw.
  destruct (resolve_binary_path cmd0) as [|front [|second rest]]; [done | |].
  - cbv beta iota. by destruct (maxargs - 1 <=? _).
  - destruct (_ =? 1)%nat; [| done].
    cbv beta iota. by destruct (maxargs - 1 <=? _).
Qed.

(** A command that does not validate is never launched: [launch] throws
    the exception of [validate_cmd] as it is, and no system call is made,
    neither the event descriptor nor the clone; the two heap blocks are
    allocated and released around it. *)
Theorem launch_rejects_without_system_call (cmdline : string) (e : exn) (w : world) :
  validate (split_string cmdline " ") tt = Throw e tt →
  launch_ cmdline w =
    Throw e (mk_world (script w)
               (trace w ++ [New (next_block w) sizeof_child_args;
                            New (Datatypes.S (next_block w)) STACK_SIZE;
                            Delete (Datatypes.S (next_block w));
                            Delete (next_block w)])
               (errno w)
               (({[Datatypes.S (next_block w)]} ∪ ({[next_block w]} ∪ heap w))
                  ∖ {[Datatypes.S (next_block w)]} ∖ {[next_block w]})
               (Datatypes.S (Datatypes.S (next_block w))))
  ∧ calls (trace (final (launch_ cmdline w))) = calls (trace w).
Proof.
  intros Hv.
  assert (Hl : launch_ cmdline w = Throw e (mk_world (script w)
               (trace w ++ [New (next_block w) sizeof_child_args;
                            New (Datatypes.S (next_block w)) STACK_SIZE;
                            Delete (Datatypes.S (next_block w));
                            Delete (next_block w)])
               (errno w)
               (({[Datatypes.S (next_block w)]} ∪ ({[next_block w]} ∪ heap w))
                  ∖ {[Datatypes.S (next_block w)]} ∖ {[next_block w]})
               (Datatypes.S (Datatypes.S (next_block w))))).
  { unfold launch, with_unique.
    unfold bind at 1. unfold alloc at 1. cbv zeta.
    unfold bind at 1. unfold alloc at 1. cbv zeta.
    cbn [next_block script trace errno heap].
    unfold bind at 1.
    match goal with
    | |- context [validate_cmd _ _ ?cmd ?s] =>
        pose proof (validate_cmd_any_state cmd tt s) as Hany
    end.
    rewrite Hv in Hany. rewrite Hany.
    unfold bind, free, throw. cbn [script trace errno heap next_block].
    by rewrite <- !app_assoc. }
  split; [exact Hl |]. rewrite Hl. cbn [final trace].
  rewrite calls_app. cbn. by rewrite app_nil_r.
Qed.

Lemma heap_restored (a b : block) (h : gset block) :
  a ∉ h → b ∉ h → ({[b]} ∪ ({[a]} ∪ h)) ∖ {[b]} ∖ {[a]} = h.
Proof.
  intros Ha Hb. apply set_eq. intros x.
  rewrite !elem_of_difference, !elem_of_union, !elem_of_singleton.
  split; [tauto |]. intros Hx. split_and!; [tauto | congruence | congruence].
Qed.

(** The body of [launch] between the allocations and the releases: it
    never touches the heap. *)
Lemma launch_outcomes (cmdline : string) (w : world) :
  let a := next_block w in
  let b := Datatypes.S (next_block w) in
  let h := ({[b]} ∪ ({[a]} ∪ heap w)) ∖ {[b]} ∖ {[a]} in
  match launch_ cmdline w with
  | Ret c w' =>
      heap w' = h
      ∧ ∃ cmd r1 r2 rest,
          validate (split_string cmdline " ") tt = Ret cmd tt
          ∧ script w = r1 :: r2 :: rest ∧ script w' = rest
          ∧ 0 < res_ret r2
          ∧ c = mk_ChildProc (res_ret r2) (res_ret r1) FORKED None None
          ∧ calls (trace w') =
              calls (trace w) ++
              [Eventfd 0 EFD_CLOEXEC;
               Clone b STACK_SIZE SIGCHLD (mk_child_args cmd (res_ret r1))]
  | Throw e w' =>
      heap w' = h
      ∧ (validate (split_string cmdline " ") tt = Throw e tt
         ∨ ∃ cmd r1 r2 r3 rest,
             validate (split_string cmdline " ") tt = Ret cmd tt
             ∧ script w = r1 :: r2 :: r3 :: rest ∧ script w' = rest
             ∧ res_ret r2 ≤ 0
             ∧ e = system_error (errno w') "Failed to clone child"
             ∧ errno w' =
                 (if res_ret r3 <? 0 then res_errno r3
                  else if res_ret r2 <? 0 then res_errno r2
                  else if res_ret r1 <? 0 then res_errno r1
                  else errno w)
             ∧ calls (trace w') =
                 calls (trace w) ++
                 [Eventfd 0 EFD_CLOEXEC;
                  Clone b STACK_SIZE SIGCHLD (mk_child_args cmd (res_ret r1));
                  Close (res_ret r1)])
  | Stop h _ =>
      validate (split_string cmdline " ") tt = Stop h tt
      ∨ (h = blocked ∧ (length (script w) ≤ 2)%nat)
  end.
Proof.
  cbv zeta. unfold launch, with_unique.
  unfold bind at 1. unfold alloc at 1. cbv zeta.
  unfold bind at 1. unfold alloc at 1. cbv zeta.
  cbn [next_block script trace errno heap].
  unfold bind at 1.
  match goal with
  | |- context [validate_cmd _ _ ?cmd ?s] =>
      pose proof (validate_cmd_any_state cmd s tt) as Hany;
      pose proof (validate_cmd_pure resolve_binary_path abs_path cmd s) as Hpure;
      destruct (validate_cmd resolve_binary_path abs_path cmd s) as [cmd' s1|e s1|h s1]
  end; subst s1.
  - unfold bind, sys, SYS_ERROR, gets, ret, throw, free.
    cbn [script trace errno heap next_block].
    destruct (script w) as [|r1 [|r2 rest]]; [right; cbn; split; [done | lia] | |].
    { destruct (res_ret r1 <? 0); right; cbn; split; done || lia. }
    assert (Hcalls : ∀ t (l : list event) (l' : list call),
              calls l = l' → calls (t ++ l) = calls t ++ l').
    { intros t l l' <-. apply calls_app. }
    destruct (res_ret r1 <? 0) eqn:H1; cbn [script trace errno heap next_block];
      destruct (res_ret r2 <=? 0) eqn:H2; cbn [script trace errno heap next_block].
    all: try (destruct rest as [|r3 rest]; [right; cbn; split; [done | lia] |];
              cbn [script trace errno heap next_block];
              split; [done |]; right; exists cmd', r1, r2, r3, rest).
    all: try (split; [done |]; exists cmd', r1, r2, rest).
    all: split_and!; try done; try (apply Z.leb_le in H2; lia); try (apply Z.leb_gt in H2; lia).
    all: try (rewrite <- !app_assoc; apply Hcalls; reflexivity).
    all: rewrite ?H1; try reflexivity.
    all: by destruct (res_ret r3 <? 0), (res_ret r2 <? 0).
  - unfold bind, free, throw. cbn [script trace errno heap next_block].
    split; [done | by left].
  - by left.
Qed.

(** [launch] never leaks: however the call ends, by returning a tracker or
    by throwing (a rejected command, a failed clone), both blocks it
    allocated, the arguments and the 64 KiB stack, are released again and
    the heap is what it was before the call. *)
Theorem launch_never_leaks (cmdline : string) (w : world) :
  next_block w ∉ heap w →
  Datatypes.S (next_block w) ∉ heap w →
  match launch_ cmdline w with
  | Ret _ w' | Throw _ w' => heap w' = heap w
  | Stop _ _ => True
  end.
Proof.
  intros Ha Hb. pose proof (launch_outcomes cmdline w) as H. cbv zeta in H.
  destruct (launch_ cmdline w) as [c w'|e w'|h w']; [| | done];
    destruct H as [-> _]; by apply heap_restored.
Qed.

(** The tracker [launch] returns is in state Forked with a positive pid
    (the return value of clone) and no exit status, and it holds the very
    descriptor that was handed to the child; the child was cloned once,
    on the stack block of this call with SIGCHLD as its only flag, and was
    given the validated command, whose token count is below [maxargs - 1];
    the event descriptor and the clone are the only system calls made. *)
Theorem launch_returns_forked (cmdline : string) (w : world) (c : ChildProc) (w' : world) :
  launch_ cmdline w = Ret c w' →
  0 < child_pid_ c
  ∧ state_ c = FORKED
  ∧ exit_code_ c = None
  ∧ term_signal_ c = None
  ∧ ∃ cmd,
      validate (split_string cmdline " ") tt = Ret cmd tt
      ∧ Z.of_nat (length cmd) < maxargs - 1
      ∧ calls (trace w') =
          calls (trace w) ++
          [Eventfd 0 EFD_CLOEXEC;
           Clone (Datatypes.S (next_block w)) STACK_SIZE SIGCHLD
             (mk_child_args cmd (child_event_fd_ c))].
Proof.
  intros Hl. pose proof (launch_outcomes cmdline w) as H. cbv zeta in H.
  rewrite Hl in H.
  destruct H as (_ & cmd & r1 & r2 & rest & Hv & _ & _ & Hpid & -> & Hcalls).
  cbn [child_pid_ state_ exit_code_ term_signal_ child_event_fd_].
  split_and!; try done. exists cmd. split_and!; try done.
  by destruct (validate_cmd_returns _ _ _ _ Hv) as (_ & ? & ? & ? & ? & _ & _ & -> & _ & ?).
Qed.

(** When clone fails (it returns zero or less), [launch] closes the event
    descriptor it had just created and throws the system error "Failed to
    clone child"; the code of the error is [errno] as it stands after that
    close, so it is the error of clone only if the close succeeds. *)
Theorem launch_clone_failure (cmdline : string) (w : world) (cmd : list string)
    (r1 r2 r3 : response) (rest : list response) :
  validate (split_string cmdline " ") tt = Ret cmd tt →
  script w = r1 :: r2 :: r3 :: rest →
  res_ret r2 ≤ 0 →
  ∃ w',
    launch_ cmdline w = Throw (system_error (errno w') "Failed to clone child") w'
    ∧ script w' = rest
    ∧ errno w' =
        (if res_ret r3 <? 0 then res_errno r3
         else if res_ret r2 <? 0 then res_errno r2
         else if res_ret r1 <? 0 then res_errno r1
         else errno w)
    ∧ calls (trace w') =
        calls (trace w) ++
        [Eventfd 0 EFD_CLOEXEC;
         Clone (Datatypes.S (next_block w)) STACK_SIZE SIGCHLD
           (mk_child_args cmd (res_ret r1));
         Close (res_ret r1)].
Proof.
  intros Hv Hscr Hfail. pose proof (launch_outcomes cmdline w) as H. cbv zeta in H.
  destruct (launch_ cmdline w) as [c w'|e w'|h w'].
  - destruct H as (_ & cmd' & r1' & r2' & rest' & _ & Hscr' & _ & Hpos & _).
    rewrite Hscr in Hscr'. injection Hscr' as _ <- _. lia.
  - destruct H as (_ & [Hv' | (cmd' & r1' & r2' & r3' & rest' & Hv' & Hscr' & Hrest & _ & -> & Hen & Hcalls)]).
    { rewrite Hv in Hv'. discriminate Hv'. }
    rewrite Hv in Hv'. injection Hv' as <-.
    rewrite Hscr in Hscr'. injection Hscr' as <- <- <- <-.
    exists w'. done.
  - destruct H as [Hv' | [_ Hlen]].
    + rewrite Hv in Hv'. discriminate Hv'.
    + rewrite Hscr in Hlen. cbn in Hlen. lia.
Qed.

End LaunchOutcomes.

Lemma validate_cmd_accepts_witness :
  validate_cmd sample_resolve sample_abs ["ping"; "-c"; "1"] tt =
    Ret ["/usr/bin/ping"; "-c"; "1"] tt
  ∧ tt = tt
  ∧ ∃ cmd0 args front rest,
      ["ping"; "-c"; "1"] = cmd0 :: args
      ∧ sample_resolve cmd0 = front :: rest
      ∧ ["/usr/bin/ping"; "-c"; "1"] = front :: args
      ∧ length ["/usr/bin/ping"; "-c"; "1"] = length ["ping"; "-c"; "1"]
      ∧ Z.of_nat (length ["/usr/bin/ping"; "-c"; "1"]) < maxargs - 1.
Proof.
  split; [reflexivity |].
  apply (validate_cmd_accepts sample_resolve sample_abs
           ["ping"; "-c"; "1"] ["/usr/bin/ping"; "-c"; "1"] tt tt).
  reflexivity.
Defined.

Lemma launch_rejects_without_system_call_witness :
  validate_cmd sample_resolve sample_abs (sample_split "python -V" " ") tt =
    Throw (ambiguous_binary "python" 2) tt
  ∧ calls (trace (final (sample_launch "python -V" (boot [ok 3; ok 4242])))) =
    calls (trace (boot [ok 3; ok 4242])).
Proof.
  split; [reflexivity |].
  apply (launch_rejects_without_system_call sample_resolve sample_abs sample_split
           "python -V" (ambiguous_binary "python" 2) (boot [ok 3; ok 4242])).
  reflexivity.
Defined.

Lemma launch_never_leaks_witness :
  (next_block (boot [ok 3; failed 11; ok 0]) ∉ heap (boot [ok 3; failed 11; ok 0]))
  ∧ (Datatypes.S (next_block (boot [ok 3; failed 11; ok 0])) ∉ heap (boot [ok 3; failed 11; ok 0]))
  ∧ match sample_launch "/bin/sleep 5" (boot [ok 3; failed 11; ok 0]) with
    | Ret _ w' | Throw _ w' => heap w' = heap (boot [ok 3; failed 11; ok 0])
    | Stop _ _ => True
    end.
Proof.
  split; [apply not_elem_of_empty |]. split; [apply not_elem_of_empty |].
  apply (launch_never_leaks sample_resolve sample_abs sample_split
           "/bin/sleep 5" (boot [ok 3; failed 11; ok 0])); apply not_elem_of_empty.
Defined.

Lemma launch_returns_forked_witness :
  sample_launch "/bin/sleep 5" (boot [ok 3; ok 4242]) = Ret (tracker FORKED) sleep_launched
  ∧ 0 < child_pid_ (tracker FORKED)
  ∧ state_ (tracker FORKED) = FORKED
  ∧ exit_code_ (tracker FORKED) = None
  ∧ term_signal_ (tracker FORKED) = None
  ∧ ∃ cmd,
      validate_cmd sample_resolve sample_abs (sample_split "/bin/sleep 5" " ") tt = Ret cmd tt
      ∧ Z.of_nat (length cmd) < maxargs - 1
      ∧ calls (trace sleep_launched) =
          calls (trace (boot [ok 3; ok 4242])) ++
          [Eventfd 0 EFD_CLOEXEC;
           Clone (Datatypes.S (next_block (boot [ok 3; ok 4242]))) STACK_SIZE SIGCHLD
             (mk_child_args cmd (child_event_fd_ (tracker FORKED)))].
Proof.
  split; [vm_compute; reflexivity |].
  apply (launch_returns_forked sample_resolve sample_abs sample_split
           "/bin/sleep 5" (boot [ok 3; ok 4242]) (tracker FORKED) sleep_launched).
  vm_compute. reflexivity.
Defined.

Lemma launch_clone_failure_witness :
  validate_cmd sample_resolve sample_abs (sample_split "/bin/sleep 5" " ") tt =
    Ret ["/bin/sleep"; "5"] tt
  ∧ res_ret (failed 11) ≤ 0
  ∧ ∃ w',
      sample_launch "/bin/sleep 5" (boot [ok 3; failed 11; ok 0]) =
        Throw (system_error (errno w') "Failed to clone child") w'
      ∧ script w' = []
      ∧ errno w' =
          (if res_ret (ok 0) <? 0 then res_errno (ok 0)
           else if res_ret (failed 11) <? 0 then res_errno (failed 11)
           else if res_ret (ok 3) <? 0 then res_errno (ok 3)
           else errno (boot [ok 3; failed 11; ok 0]))
      ∧ calls (trace w') =
          calls (trace (boot [ok 3; failed 11; ok 0])) ++
          [Eventfd 0 EFD_CLOEXEC;
           Clone (Datatypes.S (next_block (boot [ok 3; failed 11; ok 0]))) STACK_SIZE SIGCHLD
             (mk_child_args ["/bin/sleep"; "5"] (res_ret (ok 3)));
           Close (res_ret (ok 3))].
Proof.
  split; [reflexivity |]. split; [vm_compute; discriminate |].
  apply (launch_clone_failure sample_resolve sample_abs sample_split
           "/bin/sleep 5" (boot [ok 3; failed 11; ok 0]) ["/bin/sleep"; "5"]
           (ok 3) (failed 11) (ok 0) []);
    [reflexivity | reflexivity | vm_compute; discriminate].
Defined.

(** ** More on the child *)


Lemma childfn_defined (environ : list string) (args : child_args) (w : world)
    (argv0 : string) (argv' : list string) (h : halt) (w' : world) :
  cmd args = argv0 :: argv' →
  Z.of_nat (length (cmd args)) < maxargs →
  childfn environ args w = Stop h w' →
  h = blocked ∨ h = image_replaced.
Proof.
  intros Hcmd Hlen. apply Z.leb_gt in Hlen.
  destruct w as [scr tr en hp nb]. destruct args as [argv fd]. cbn [cmd] in *. subst argv.
  unfold childfn. cbn [cmd event_fd].
  unfold bind, sys, ret, emit, modify, stop. rewrite Hlen. simpl.
  destruct scr as [|r1 scr]; [intros [= <- _]; by left |].
  destruct (negb (res_ret r1 =? 0)); [discriminate |]. simpl.
  destruct scr as [|r2 scr]; [intros [= <- _]; by left |].
  destruct (res_ret r2 <? 0); [discriminate |]. simpl.
  destruct scr as [|r3 scr]; [intros [= <- _]; by left |]. simpl.
  destruct (res_out r2 =? CHILD_PTRACE).
  - destruct scr as [|r4 scr]; [intros [= <- _]; by left |]. simpl.
    destruct (res_ret r4 <? 0); simpl.
    all: destruct scr as [|r5 scr]; [intros [= <- _]; by left |]; simpl.
    all: destruct scr as [|r6 scr]; [intros [= <- _]; by left |]; simpl.
    all: destruct (negb (res_ret r6 =? 0)); simpl.
    all: destruct scr as [|r7 scr]; [intros [= <- _]; by left |]; simpl.
    all: destruct (0 <=? res_ret r7); [intros [= <- _]; by right | discriminate].
  - destruct scr as [|r4 scr]; [intros [= <- _]; by left |]. simpl.
    destruct (0 <=? res_ret r4); [intros [= <- _]; by right | discriminate].
Qed.

(** Validation and the child fit together: on a command that
    [validate_cmd] accepted, [childfn] never runs into undefined behaviour,
    neither an overflow of its [argv] array of [maxargs] slots nor a null
    [argv[0]]; if it stops at all, it waits for the kernel or has become
    the target. *)
Theorem validated_command_fits_child {S} (resolve_binary_path : string → list string)
    (abs_path : string → option string) (cmd cmd' : list string) (s s' : S)
    (environ : list string) (fd : Z) (w : world) (h : halt) (w' : world) :
  validate_cmd resolve_binary_path abs_path cmd s = Ret cmd' s' →
  childfn environ (mk_child_args cmd' fd) w = Stop h w' →
  h = blocked ∨ h = image_replaced.
Proof.
  intros Hv Hc.
  destruct (validate_cmd_returns _ _ _ _ _ _ Hv)
    as (_ & cmd0 & args & front & rest & _ & _ & -> & _ & Hlen).
  apply (childfn_defined environ (mk_child_args (front :: args) fd) w front args h w');
    [done | | done].
  simpl. simpl in Hlen. unfold maxargs in *. lia.
Qed.

Lemma validated_command_fits_child_witness :
  validate_cmd sample_resolve sample_abs ["/bin/sleep"; "5"] tt = Ret ["/bin/sleep"; "5"] tt
  ∧ childfn [] (mk_child_args ["/bin/sleep"; "5"] 3)
      (boot [ok 0; mk_response 8 0 CHILD_GO; ok 0; ok 0]) =
    Stop image_replaced
      (final (childfn [] (mk_child_args ["/bin/sleep"; "5"] 3)
                (boot [ok 0; mk_response 8 0 CHILD_GO; ok 0; ok 0])))
  ∧ (image_replaced = blocked ∨ image_replaced = image_replaced).
Proof.
  split; [reflexivity |]. split; [reflexivity |].
  apply (validated_command_fits_child sample_resolve sample_abs
           ["/bin/sleep"; "5"] ["/bin/sleep"; "5"] tt tt [] 3
           (boot [ok 0; mk_response 8 0 CHILD_GO; ok 0; ok 0]) image_replaced
           (final (childfn [] (mk_child_args ["/bin/sleep"; "5"] 3)
                     (boot [ok 0; mk_response 8 0 CHILD_GO; ok 0; ok 0]))));
    reflexivity.
Defined.

(** ** Destruction *)

(** The destructor of a tracker that is not Dead and holds a gate
    descriptor closes the gate and polls the child ([c] answers the close,
    [r0] ends the poll of [is_alive]).  When that poll shows the child
    dead it stops there.  Otherwise it runs [terminate(true)]: a second
    poll, ended by [r1], and, unless this one shows the child dead,
    SIGKILL, the detach of a child paused at exec, and a wait without
    WNOHANG, whose answer [r2] gives the state that is left.  It returns
    in each case. *)
Theorem destroy_kills_live_child (p : process) (c : response)
    (pre0 : list response) (r0 : response) (pre1 : list response) (r1 k : response)
    (ds pre2 : list response) (r2 : response) (rest : list response) :
  state_ (self p) ≠ DIED →
  0 ≤ child_event_fd_ (self p) →
  script (os p) = c :: pre0 ++ r0 :: pre1 ++ r1 :: k :: ds ++ pre2 ++ r2 :: rest →
  Forall (λ x, interrupted x = true) pre0 →
  interrupted r0 = false →
  Forall (λ x, interrupted x = true) pre1 →
  interrupted r1 = false →
  length ds = (if bool_decide (state_ (self p) = PTRACE_PAUSE) then 1 else 0)%nat →
  Forall (λ x, interrupted x = true) pre2 →
  interrupted r2 = false →
  ∃ p',
    destroy p = Ret tt p'
    ∧ if bool_decide (verdict r0 (state_ (self p)) = DIED) then
        state_ (self p') = DIED
        ∧ script (os p') = pre1 ++ r1 :: k :: ds ++ pre2 ++ r2 :: rest
        ∧ calls (trace (os p')) =
            calls (trace (os p)) ++
            Close (child_event_fd_ (self p)) ::
            replicate (Datatypes.S (length pre0)) (Waitpid (child_pid_ (self p)) WNOHANG)
      else if bool_decide (verdict r1 (state_ (self p)) = DIED) then
        state_ (self p') = DIED
        ∧ script (os p') = k :: ds ++ pre2 ++ r2 :: rest
        ∧ calls (trace (os p')) =
            calls (trace (os p)) ++
            Close (child_event_fd_ (self p)) ::
            replicate (Datatypes.S (length pre0)) (Waitpid (child_pid_ (self p)) WNOHANG) ++
            replicate (Datatypes.S (length pre1)) (Waitpid (child_pid_ (self p)) WNOHANG)
      else
        state_ (self p') = verdict r2 (state_ (self p))
        ∧ script (os p') = rest
        ∧ calls (trace (os p')) =
            calls (trace (os p)) ++
            Close (child_event_fd_ (self p)) ::
            replicate (Datatypes.S (length pre0)) (Waitpid (child_pid_ (self p)) WNOHANG) ++
            replicate (Datatypes.S (length pre1)) (Waitpid (child_pid_ (self p)) WNOHANG) ++
            [Kill (child_pid_ (self p)) SIGKILL] ++
            (if bool_decide (state_ (self p) = PTRACE_PAUSE)
             then [Ptrace PTRACE_DETACH (child_pid_ (self p)) 0 0] else []) ++
            replicate (Datatypes.S (length pre2)) (Waitpid (child_pid_ (self p)) 0).
Proof.
  intros Halive Hfd Hscr Hpre0 Hr0 Hpre1 Hr1 Hds Hpre2 Hr2.
  unfold destroy. unfold bind at 1. unfold this at 1. unfold gets at 1.
  assert (Hle : (0 <=? child_event_fd_ (self p)) = true) by by apply Z.leb_le.
  rewrite Hle. unfold bind at 1. unfold bind at 1.
  pose proof (kernel_sys_spec (Close (child_event_fd_ (self p))) p) as Hk.
  destruct (kernel (sys (Close _)) p) as [rc p1|e p1|h p1]; [| done |]; cycle 1.
  { destruct Hk as (_ & Hnil & _). rewrite Hscr in Hnil. discriminate Hnil. }
  destruct Hk as (Hscr1 & Hs1 & Hc1 & _).
  rewrite Hscr in Hscr1. injection Hscr1 as _ Hscr1. symmetry in Hscr1.
  unfold ret at 1. unfold bind at 1.
  destruct (check_child_by_answer false p1 pre0 r0 _ Hscr1 Hpre0 Hr0)
    as (p2 & Hc & Hscr2 & Hc2 & Hpid2 & Hfd2 & Hst2).
  rewrite Hs1 in Hc2, Hpid2, Hfd2, Hst2.
  pose proof (is_alive_spec p1) as Hia.
  destruct (is_alive p1) as [b q|e q|h q]; [| done |]; cycle 1.
  { destruct Hia as [_ Hstop]. rewrite Hc in Hstop. discriminate Hstop. }
  destruct Hia as [-> [[Hd _] | [_ Hq]]]; [by rewrite Hs1 in Hd |].
  rewrite Hc in Hq. injection Hq as <-.
  destruct (decide (verdict r0 (state_ (self p)) = DIED)) as [Hv0 | Hv0];
    [rewrite (bool_decide_eq_true_2 (verdict r0 (state_ (self p)) = DIED)) by done
    | rewrite (bool_decide_eq_false_2 (verdict r0 (state_ (self p)) = DIED)) by done].
  { rewrite bool_decide_eq_true_2 by congruence. cbn [negb]. unfold ret.
    exists p2. split_and!; try done; [congruence |].
    rewrite Hc2, Hc1, <- app_assoc. done. }
  assert (Hst : state_ (self p2) = state_ (self p)).
  { rewrite Hst2. by destruct (verdict_cases r0 (state_ (self p))). }
  rewrite bool_decide_eq_false_2 by congruence. cbn [negb].
  destruct (decide (verdict r1 (state_ (self p)) = DIED)) as [Hv1 | Hv1];
    [rewrite (bool_decide_eq_true_2 (verdict r1 (state_ (self p)) = DIED)) by done
    | rewrite (bool_decide_eq_false_2 (verdict r1 (state_ (self p)) = DIED)) by done].
  - destruct (terminate_poll_finds_dead true p2 pre1 r1 _ Hscr2 Hpre1 Hr1)
      as (p' & Ht & Hs & _ & _ & Hcalls & Hdead); [by rewrite Hst |].
    exists p'. split_and!; try done.
    rewrite Hcalls, Hc2, Hc1, Hpid2, <- !app_assoc. done.
  - destruct (terminate_signals_live_child true p2 pre1 r1 k ds pre2 r2 rest)
      as (p' & Ht & Hs & _ & _ & Hcalls & Hlast); try done; try by rewrite Hst.
    exists p'. rewrite Hst in Hlast, Hcalls. split_and!; try done.
    rewrite Hcalls, Hc2, Hc1, Hpid2. unfold terminate_calls.
    rewrite <- !app_assoc. done.
Qed.

Lemma destroy_kills_live_child_witness :
  state_ (self abandoned_process) ≠ DIED
  ∧ 0 ≤ child_event_fd_ (self abandoned_process)
  ∧ script (os abandoned_process) =
      ok 0 :: [] ++ ok 0 :: [] ++ ok 0 :: ok 0 :: [ok 0] ++ [] ++ reported 4242 SIGKILL :: []
  ∧ ∃ p',
      destroy abandoned_process = Ret tt p'
      ∧ state_ (self p') = DIED
      ∧ script (os p') = []
      ∧ calls (trace (os p')) =
          [Close 3; Waitpid 4242 WNOHANG; Waitpid 4242 WNOHANG; Kill 4242 SIGKILL;
           Ptrace PTRACE_DETACH 4242 0 0; Waitpid 4242 0].
Proof.
  split; [discriminate |]. split; [vm_compute; discriminate |]. split; [reflexivity |].
  apply (destroy_kills_live_child abandoned_process (ok 0) [] (ok 0) [] (ok 0) (ok 0)
           [ok 0] [] (reported 4242 SIGKILL) []);
    [discriminate | vm_compute; discriminate | reflexivity | constructor | reflexivity
    | constructor | reflexivity | reflexivity | constructor | reflexivity].
Defined.

Example destroy_abandoned :
  ∃ p',
    destroy abandoned_process = Ret tt p'
    ∧ calls (trace (os p')) =
        [Close 3; Waitpid 4242 WNOHANG; Waitpid 4242 WNOHANG; Kill 4242 SIGKILL;
         Ptrace PTRACE_DETACH 4242 0 0; Waitpid 4242 0]
    ∧ self p' = mk_ChildProc 4242 3 DIED None (Some SIGKILL).
Proof. eexists. split; [vm_compute; reflexivity |]. vm_compute. done. Qed.

(** ** Status reports and resumption *)

(** [report_status] never returns, and the message it throws is empty for
    exactly the status words whose low byte is 0xff (the continue status
    0xffff is one): these are neither a stop, an exit nor a death by
    signal, so none of its branches writes to the message. *)
Theorem report_status_empty_message {S} (wstatus : Z) (s : S) :
  ∃ msg,
    report_status wstatus s = Throw (runtime_error msg) s
    ∧ (msg = EmptyString ↔ wstatus mod 256 = 255).
Proof.
  unfold report_status, throw. eexists. split; [reflexivity |].
  destruct (WIFSTOPPED wstatus) eqn:Hs.
  { apply WIFSTOPPED_mod in Hs. split; [discriminate | lia]. }
  assert (Hns : wstatus mod 256 ≠ 127).
  { intros H. apply WIFSTOPPED_mod in H. congruence. }
  destruct (WIFEXITED wstatus) eqn:He.
  { unfold WIFEXITED in He. apply Z.eqb_eq in He. rewrite WTERMSIG_mod in He.
    split; [discriminate |]. Z.to_euclidean_division_equations. lia. }
  unfold WIFEXITED in He. apply Z.eqb_neq in He. rewrite WTERMSIG_mod in He.
  destruct (WIFSIGNALED wstatus) eqn:Hg.
  { apply WIFSIGNALED_range in Hg. rewrite WTERMSIG_mod in Hg.
    split.
    - destruct (WCOREDUMP wstatus); discriminate.
    - Z.to_euclidean_division_equations. lia. }
  split; [| done]. intros _.
  assert (Hr : ¬ 1 ≤ wstatus mod 128 ≤ 126).
  { intros H. rewrite <- WTERMSIG_mod in H. apply WIFSIGNALED_range in H. congruence. }
  Z.to_euclidean_division_equations. lia.
Qed.

(** [resume] detaches from a paused child but leaves the tracker in state
    PausedAtExec ([d0] is the kernel's answer to its detach).  A
    [terminate] that follows therefore takes the child as still paused:
    when the answer [r1] to its poll does not show the child dead, it
    sends the signal and detaches a second time before it waits. *)
Theorem resume_then_terminate_detaches_again (force : bool) (p : process)
    (d0 : response) (pre1 : list response) (r1 k d : response)
    (pre2 : list response) (r2 : response) (rest : list response) :
  state_ (self p) = PTRACE_PAUSE →
  script (os p) = d0 :: pre1 ++ r1 :: k :: d :: pre2 ++ r2 :: rest →
  Forall (λ x, interrupted x = true) pre1 →
  interrupted r1 = false →
  verdict r1 PTRACE_PAUSE ≠ DIED →
  Forall (λ x, interrupted x = true) pre2 →
  interrupted r2 = false →
  ∃ p1 p',
    resume p = Ret tt p1
    ∧ self p1 = self p
    ∧ terminate force p1 = Ret tt p'
    ∧ script (os p') = rest
    ∧ state_ (self p') = verdict r2 PTRACE_PAUSE
    ∧ calls (trace (os p')) =
        calls (trace (os p)) ++
        Ptrace PTRACE_DETACH (child_pid_ (self p)) 0 0 ::
        replicate (Datatypes.S (length pre1)) (Waitpid (child_pid_ (self p)) WNOHANG) ++
        [Kill (child_pid_ (self p)) (if force then SIGKILL else SIGTERM);
         Ptrace PTRACE_DETACH (child_pid_ (self p)) 0 0] ++
        replicate (Datatypes.S (length pre2))
          (Waitpid (child_pid_ (self p)) (wait_flags force)).
Proof.
  intros Hst Hscr Hpre1 Hr1 Hv Hpre2 Hr2.
  unfold resume. unfold bind at 1. unfold this at 1. unfold gets at 1. rewrite Hst.
  rewrite bool_decide_eq_true_2 by done.
  unfold bind at 1. unfold assert at 1. unfold ret at 1.
  unfold bind at 1. unfold this at 1. unfold gets at 1. unfold bind at 1.
  pose proof (kernel_sys_spec (Ptrace PTRACE_DETACH (child_pid_ (self p)) 0 0) p) as Hk.
  destruct (kernel (sys (Ptrace PTRACE_DETACH (child_pid_ (self p)) 0 0)) p)
    as [rd p1|e p1|h p1]; [| done |]; cycle 1.
  { destruct Hk as (_ & Hnil & _). rewrite Hscr in Hnil. discriminate Hnil. }
  destruct Hk as (Hscr1 & Hself & Hcalls & _).
  rewrite Hscr in Hscr1. injection Hscr1 as _ Hscr1. symmetry in Hscr1.
  exists p1.
  destruct (terminate_signals_live_child force p1 pre1 r1 k [d] pre2 r2 rest)
    as (p' & Ht & Hs & _ & _ & Hc & Hlast); try done.
  { by rewrite Hself, Hst. }
  { by rewrite Hself, Hst, bool_decide_eq_true_2. }
  exists p'. rewrite Hself, Hst in Hlast. rewrite Hself, Hst in Hc.
  rewrite bool_decide_eq_true_2 in Hc by done.
  unfold ret. split_and!; try done.
  rewrite Hc, Hcalls. unfold terminate_calls. rewrite <- !app_assoc. done.
Qed.

Lemma resume_then_terminate_detaches_again_witness :
  state_ (self resumed_process) = PTRACE_PAUSE
  ∧ script (os resumed_process) =
      ok 0 :: [] ++ ok 0 :: ok 0 :: ok 0 :: [] ++ reported 4242 SIGKILL :: []
  ∧ verdict (ok 0) PTRACE_PAUSE ≠ DIED
  ∧ ∃ p1 p',
      resume resumed_process = Ret tt p1
      ∧ self p1 = self resumed_process
      ∧ terminate true p1 = Ret tt p'
      ∧ script (os p') = []
      ∧ state_ (self p') = verdict (reported 4242 SIGKILL) PTRACE_PAUSE
      ∧ calls (trace (os p')) =
          [Ptrace PTRACE_DETACH 4242 0 0; Waitpid 4242 WNOHANG; Kill 4242 SIGKILL;
           Ptrace PTRACE_DETACH 4242 0 0; Waitpid 4242 0].
Proof.
  split; [reflexivity |]. split; [reflexivity |]. split; [discriminate |].
  apply (resume_then_terminate_detaches_again true resumed_process (ok 0) [] (ok 0)
           (ok 0) (ok 0) [] (reported 4242 SIGKILL) []);
    [reflexivity | reflexivity | constructor | reflexivity | discriminate
    | constructor | reflexivity].
Defined.

Example resume_then_terminate_trace :
  calls (trace (os (final ((resume ;; terminate true) resumed_process)))) =
    [Ptrace PTRACE_DETACH 4242 0 0; Waitpid 4242 WNOHANG; Kill 4242 SIGKILL;
     Ptrace PTRACE_DETACH 4242 0 0; Waitpid 4242 0].
Proof. vm_compute. reflexivity. Qed.

(** ** The exceptions of run *)

Lemma kernel_sys_answer (c : call) (p : process) (r : response) (p' : process) :
  kernel (sys c) p = Ret r p' →
  self p' = self p
  ∧ trace (os p') = trace (os p) ++ [Sys c r]
  ∧ errno (os p') = (if res_ret r <? 0 then res_errno r else errno (os p)).
Proof.
  unfold kernel, sys. destruct (script (os p)) as [|r' rest]; [discriminate |].
  intros [= <- <-]. done.
Qed.

Lemma throw_SYS_ERROR_outcome {A} (msg : string) (p : process) :
  (e <- kernel (SYS_ERROR msg) ;; throw e) p =
    Throw (A := A) (system_error (errno (os p)) msg) p.
Proof. by destruct p. Qed.

Lemma calls_snoc_sys (t : list event) (c : call) (r : response) :
  calls (t ++ [Sys c r]) = calls t ++ [c].
Proof. by rewrite calls_app. Qed.

(** [run] leaves by an exception in three ways only, told apart by the
    calls made before it.  (1) The child was found dead by the polls at
    the start: "Child died unexpectedly", and nothing but polls.  (2) The
    first wait of the rendezvous, which stands before the try block: the
    wait failed with ECHILD ("Child died unexpectedly") or its status is
    not a stop by SIGSTOP (the message of [report_status] for this
    status); this wait is the last call, no ptrace request was made.
    (3) The write to the gate failed, or the try block threw (a failed
    PTRACE_SETOPTIONS, PTRACE_CONT or wait, or a status that is not the
    exec trap): then the gate was closed, respectively the child detached
    from, [terminate(true)] has run and returned, and the exception is the
    system error built from "Failed to write 'go' event fd" and the
    [errno] that [terminate] left.  So whatever is thrown inside the try
    block is replaced, and none of its errors reaches the caller. *)
Theorem run_exceptions (pause : bool) (p : process) (e : exn) (p' : process) :
  run pause p = Throw e p' →
  (e = runtime_error "Child died unexpectedly"
   ∧ state_ (self p') = DIED
   ∧ ∃ n, calls (trace (os p')) =
          calls (trace (os p)) ++ replicate n (Waitpid (child_pid_ (self p)) WNOHANG))
  ∨ (pause = true
     ∧ self p' = in_state PTRACE_PAUSE (self p)
     ∧ ∃ n t r1,
         calls t =
           calls (trace (os p)) ++
           replicate (Datatypes.S n) (Waitpid (child_pid_ (self p)) WNOHANG) ++
           [Write (child_event_fd_ (self p)) CHILD_PTRACE 8;
            Close (child_event_fd_ (self p))]
         ∧ trace (os p') = t ++ [Sys (Waitpid (child_pid_ (self p)) 0) r1]
         ∧ ((res_ret r1 < 0 ∧ res_errno r1 = ECHILD
             ∧ e = runtime_error "Child died unexpectedly")
            ∨ ((WIFSTOPPED (res_out r1) = false ∨ WSTOPSIG (res_out r1) ≠ SIGSTOP)
               ∧ report_status (res_out r1) p' = Throw e p')))
  ∨ (e = system_error (errno (os p')) "Failed to write 'go' event fd"
     ∧ ∃ q n t,
         terminate true q = Ret tt p'
         ∧ calls t =
             calls (trace (os p)) ++
             replicate (Datatypes.S n) (Waitpid (child_pid_ (self p)) WNOHANG)
         ∧ ((∃ rw rc,
               self q = self p
               ∧ trace (os q) =
                   t ++ [Sys (Write (child_event_fd_ (self p))
                                (if pause then CHILD_PTRACE else CHILD_GO) 8) rw;
                         Sys (Close (child_event_fd_ (self p))) rc]
               ∧ res_ret rw < 0)
            ∨ (∃ rw rc r1 evs rd,
                 pause = true
                 ∧ self q = in_state PTRACE_PAUSE (self p)
                 ∧ trace (os q) =
                     t ++ [Sys (Write (child_event_fd_ (self p)) CHILD_PTRACE 8) rw;
                           Sys (Close (child_event_fd_ (self p))) rc;
                           Sys (Waitpid (child_pid_ (self p)) 0) r1] ++
                     evs ++ [Sys (Ptrace PTRACE_DETACH (child_pid_ (self p)) 0 0) rd]
                 ∧ 0 ≤ res_ret rw
                 ∧ WIFSTOPPED (res_out r1) = true ∧ WSTOPSIG (res_out r1) = SIGSTOP
                 ∧ try_block_failed (child_pid_ (self p)) (res_out r1) evs))).
Proof.
  intros Hrun. unfold run in Hrun. unfold bind at 1 in Hrun.
  pose proof (is_alive_spec p) as H.
  destruct (is_alive p) as [b p1|e1 p1|h p1]; [| done | discriminate Hrun].
  destruct H as [-> Hcase].
  case_bool_decide as Hd; cbn [negb] in Hrun.
  { (* found dead *)
    injection Hrun as <- <-. left. split_and!; try done.
    destruct Hcase as [[_ ->] | [_ Hc]]; [exists 0%nat; cbn; by rewrite app_nil_r |].
    pose proof (check_child_spec false p) as Hs. rewrite Hc in Hs.
    destruct Hs as (pre & r & _ & _ & _ & Hcalls & _).
    by exists (Datatypes.S (length pre)). }
  destruct Hcase as [[Hdead ->] | [Halive Hc]]; [done |].
  pose proof (check_child_spec false p) as Hs.
  pose proof (check_child_changes_only_to_dead false p) as Hch.
  rewrite Hc in Hs, Hch. cbn [final] in Hch.
  destruct Hch as [Hself | ?]; [| done].
  destruct Hs as (pre & r & _ & _ & _ & Hcalls & _).
  unfold bind at 1 in Hrun. unfold this at 1 in Hrun. unfold gets at 1 in Hrun.
  unfold bind at 1 in Hrun. unfold assert in Hrun.
  case_bool_decide as Hst; [| discriminate Hrun].
  unfold ret at 1 in Hrun.
  unfold bind at 1 in Hrun. unfold this at 1 in Hrun. unfold gets at 1 in Hrun.
  unfold bind at 1 in Hrun. unfold this at 1 in Hrun. unfold gets at 1 in Hrun.
  unfold bind at 1 in Hrun.
  match type of Hrun with
  | context [kernel (sys ?c) p1] =>
      destruct (kernel (sys c) p1) as [rw p2|e2 p2|h p2] eqn:Hw; [| | discriminate Hrun]
  end.
  2: { pose proof (kernel_sys_spec (Write (child_event_fd_ (self p1))
                     (if pause then CHILD_PTRACE else CHILD_GO) 8) p1) as F.
       by rewrite Hw in F. }
  apply kernel_sys_answer in Hw as (Hself2 & Htr2 & _).
  rewrite Hself in Hrun, Htr2.
  destruct (res_ret rw <? 0) eqn:Hneg.
  { (* the write failed *)
    unfold bind at 1 in Hrun.
    match type of Hrun with
    | context [kernel (sys ?c) p2] =>
        destruct (kernel (sys c) p2) as [rc p3|e3 p3|h p3] eqn:Hcl; [| | discriminate Hrun]
    end.
    2: { pose proof (kernel_sys_spec (Close (child_event_fd_ (self p))) p2) as F.
         by rewrite Hcl in F. }
    apply kernel_sys_answer in Hcl as (Hself3 & Htr3 & _).
    unfold bind at 1 in Hrun.
    pose proof (terminate_spec true p3) as Ht.
    destruct (terminate true p3) as [[] p4|e4 p4|h p4] eqn:Hterm; [| done | discriminate Hrun].
    cbv beta in Hrun. rewrite throw_SYS_ERROR_outcome in Hrun.
    injection Hrun as <- <-.
    right. right. split; [done |].
    exists p3, (length pre), (trace (os p1)). split_and!; try done.
    left. exists rw, rc. split_and!.
    - by rewrite Hself3, Hself2.
    - rewrite Htr3, Htr2, <- app_assoc. done.
    - by apply Z.ltb_lt. }
  apply Z.ltb_ge in Hneg.
  unfold bind at 1 in Hrun.
  match type of Hrun with
  | context [kernel (sys ?c) p2] =>
      destruct (kernel (sys c) p2) as [rc p3|e3 p3|h p3] eqn:Hcl; [| | discriminate Hrun]
  end.
  2: { pose proof (kernel_sys_spec (Close (child_event_fd_ (self p))) p2) as F.
       by rewrite Hcl in F. }
  apply kernel_sys_answer in Hcl as (Hself3 & Htr3 & _).
  destruct pause; cbn [negb] in Hrun; [| discriminate Hrun].
  unfold bind at 1 in Hrun. unfold set_state_ at 1 in Hrun. unfold modify at 1 in Hrun.
  set (p4 := mk_process _ (os p3)) in Hrun.
  assert (Hself4 : self p4 = in_state PTRACE_PAUSE (self p)).
  { subst p4. cbn [self]. unfold in_state. by rewrite Hself3, Hself2, Hself. }
  unfold bind at 1 in Hrun.
  match type of Hrun with
  | context [kernel (sys ?c) p4] =>
      destruct (kernel (sys c) p4) as [r1 p5|e5 p5|h p5] eqn:H1; [| | discriminate Hrun]
  end.
  2: { pose proof (kernel_sys_spec (Waitpid (child_pid_ (self p)) 0) p4) as F.
       by rewrite H1 in F. }
  apply kernel_sys_answer in H1 as (Hself5 & Htr5 & Hen5).
  assert (Hbefore : calls (trace (os p3)) =
            calls (trace (os p)) ++
            replicate (Datatypes.S (length pre)) (Waitpid (child_pid_ (self p)) WNOHANG) ++
            [Write (child_event_fd_ (self p)) CHILD_PTRACE 8;
             Close (child_event_fd_ (self p))]).
  { rewrite Htr3, Htr2, <- app_assoc, calls_app, Hcalls, <- app_assoc. done. }
  unfold bind at 1 in Hrun. unfold kernel at 1 in Hrun. unfold gets at 1 in Hrun.
  unfold bind at 1 in Hrun.
  destruct ((res_ret r1 <? 0) && (errno (os p5) =? ECHILD)) eqn:Hechild.
  { (* the first wait failed with ECHILD *)
    injection Hrun as <- <-. right. left.
    apply andb_prop in Hechild as [Hn He]. apply Z.eqb_eq in He.
    rewrite Hen5, Hn in He. apply Z.ltb_lt in Hn.
    split_and!; try done; [by rewrite Hself5 |].
    exists (length pre), (trace (os p3)), r1. split_and!; try done. by left. }
  unfold ret at 1 in Hrun.
  replace (mk_process (self p5) (os p5)) with p5 in Hrun by (by destruct p5).
  unfold bind at 1 in Hrun.
  destruct (negb (WIFSTOPPED (res_out r1)) || negb (WSTOPSIG (res_out r1) =? SIGSTOP))
    eqn:Hstop.
  { (* the first status is not a stop by SIGSTOP *)
    assert (Hthrow : report_status (res_out r1) p5 = Throw e p').
    { unfold report_status, throw in *. exact Hrun. }
    assert (p' = p5) as -> by (unfold report_status, throw in Hthrow; congruence).
    right. left. split_and!; try done; [by rewrite Hself5 |].
    exists (length pre), (trace (os p3)), r1. split_and!; try done. right.
    split; [| done].
    apply orb_prop in Hstop as [Hs | Hs]; apply negb_true_iff in Hs; [by left | right].
    by apply Z.eqb_neq in Hs. }
  unfold ret at 1 in Hrun.
  apply orb_false_elim in Hstop as [Hstopped Hsig].
  apply negb_false_iff in Hstopped. apply negb_false_iff, Z.eqb_eq in Hsig.
  (* the try block *)
  unfold try_catch in Hrun.
  match type of Hrun with
  | context [match ?body p5 with _ => _ end] =>
      destruct (body p5) as [[] q0|e0 q0|h q0] eqn:Hbody
  end; [discriminate Hrun | | discriminate Hrun].
  assert (Hfailed : self q0 = self p5
                    ∧ ∃ evs, trace (os q0) = trace (os p5) ++ evs
                             ∧ try_block_failed (child_pid_ (self p)) (res_out r1) evs).
  { clear Hrun. unfold bind at 1 in Hbody.
    match type of Hbody with
    | context [kernel (sys ?c) p5] =>
        destruct (kernel (sys c) p5) as [r2 p6|e6 p6|h p6] eqn:H2; [| | discriminate Hbody]
    end.
    2: { pose proof (kernel_sys_spec
                       (Ptrace PTRACE_SETOPTIONS (child_pid_ (self p)) 0 PTRACE_O_TRACEEXEC) p5) as F.
         by rewrite H2 in F. }
    apply kernel_sys_answer in H2 as (Hself6 & Htr6 & _).
    unfold bind at 1 in Hbody.
    destruct (res_ret r2 <? 0) eqn:Hr2.
    { cbv beta in Hbody. rewrite throw_SYS_ERROR_outcome in Hbody.
      injection Hbody as _ <-. cbn [self os]. split; [done |].
      eexists. split; [by rewrite Htr6 |]. left. exists r2. split; [done |].
      by apply Z.ltb_lt. }
    apply Z.ltb_ge in Hr2. unfold ret at 1 in Hbody.
    unfold bind at 1 in Hbody.
    match type of Hbody with
    | context [kernel (sys ?c) p6] =>
        destruct (kernel (sys c) p6) as [r3 p7|e7 p7|h p7] eqn:H3; [| | discriminate Hbody]
    end.
    2: { pose proof (kernel_sys_spec (Ptrace PTRACE_CONT (child_pid_ (self p)) 0 0) p6) as F.
         by rewrite H3 in F. }
    apply kernel_sys_answer in H3 as (Hself7 & Htr7 & _).
    unfold bind at 1 in Hbody.
    destruct (res_ret r3 <? 0) eqn:Hr3.
    { cbv beta in Hbody. rewrite throw_SYS_ERROR_outcome in Hbody.
      injection Hbody as _ <-. cbn [self os]. split; [congruence |].
      eexists. split; [by rewrite Htr7, Htr6, <- app_assoc |].
      right. left. exists r2, r3. split_and!; try done. by apply Z.ltb_lt. }
    apply Z.ltb_ge in Hr3. unfold ret at 1 in Hbody.
    unfold bind at 1 in Hbody.
    match type of Hbody with
    | context [kernel (sys ?c) p7] =>
        destruct (kernel (sys c) p7) as [r4 p8|e8 p8|h p8] eqn:H4; [| | discriminate Hbody]
    end.
    2: { pose proof (kernel_sys_spec (Waitpid (child_pid_ (self p)) 0) p7) as F.
         by rewrite H4 in F. }
    apply kernel_sys_answer in H4 as (Hself8 & Htr8 & _).
    unfold bind at 1 in Hbody.
    destruct (res_ret r4 <? 0) eqn:Hr4.
    { cbv beta in Hbody. rewrite throw_SYS_ERROR_outcome in Hbody.
      injection Hbody as _ <-. cbn [self os]. split; [congruence |].
      eexists. split; [by rewrite Htr8, Htr7, Htr6, <- !app_assoc |].
      right. right. exists r2, r3, r4. split_and!; try done. left. by apply Z.ltb_lt. }
    unfold ret at 1 in Hbody.
    destruct (WIFSTOPPED _ && _) eqn:Htrap; [discriminate Hbody |].
    unfold report_status, throw in Hbody. injection Hbody as _ <-.
    split; [congruence |].
    eexists. split; [by rewrite Htr8, Htr7, Htr6, <- !app_assoc |].
    right. right. exists r2, r3, r4. split_and!; try done. by right. }
  destruct Hfailed as (Hself0 & evs & Htr0 & Hevs).
  (* the handler *)
  unfold bind at 1 in Hrun.
  match type of Hrun with
  | context [kernel (sys ?c) q0] =>
      destruct (kernel (sys c) q0) as [rd q1|ed q1|h q1] eqn:Hdet; [| | discriminate Hrun]
  end.
  2: { pose proof (kernel_sys_spec (Ptrace PTRACE_DETACH (child_pid_ (self p)) 0 0) q0) as F.
       by rewrite Hdet in F. }
  apply kernel_sys_answer in Hdet as (Hselfd & Htrd & _).
  unfold bind at 1 in Hrun.
  pose proof (terminate_spec true q1) as Ht.
  destruct (terminate true q1) as [[] q2|e4 q2|h q2] eqn:Hterm; [| done | discriminate Hrun].
  cbv beta in Hrun. rewrite throw_SYS_ERROR_outcome in Hrun.
  injection Hrun as <- <-.
  right. right. split; [done |].
  exists q1, (length pre), (trace (os p1)). split_and!; try done.
  right. exists rw, rc, r1, evs, rd. split_and!; try done.
  - by rewrite Hselfd, Hself0, Hself5.
  - rewrite Htrd, Htr0, Htr5. subst p4. cbn [os]. rewrite Htr3, Htr2.
    rewrite <- !app_assoc. done.
Qed.

Lemma run_exceptions_witness :
  run true untraceable_process =
    Throw (system_error ESRCH "Failed to write 'go' event fd")
      (final (run true untraceable_process))
  ∧ (((system_error ESRCH "Failed to write 'go' event fd") = runtime_error "Child died unexpectedly"
   ∧ state_ (self (final (run true untraceable_process))) = DIED
   ∧ ∃ n, calls (trace (os (final (run true untraceable_process)))) =
          calls (trace (os untraceable_process)) ++ replicate n (Waitpid (child_pid_ (self untraceable_process)) WNOHANG))
  ∨ (true = true
     ∧ self (final (run true untraceable_process)) = in_state PTRACE_PAUSE (self untraceable_process)
     ∧ ∃ n t r1,
         calls t =
           calls (trace (os untraceable_process)) ++
           replicate (Datatypes.S n) (Waitpid (child_pid_ (self untraceable_process)) WNOHANG) ++
           [Write (child_event_fd_ (self untraceable_process)) CHILD_PTRACE 8;
            Close (child_event_fd_ (self untraceable_process))]
         ∧ trace (os (final (run true untraceable_process))) = t ++ [Sys (Waitpid (child_pid_ (self untraceable_process)) 0) r1]
         ∧ ((res_ret r1 < 0 ∧ res_errno r1 = ECHILD
             ∧ (system_error ESRCH "Failed to write 'go' event fd") = runtime_error "Child died unexpectedly")
            ∨ ((WIFSTOPPED (res_out r1) = false ∨ WSTOPSIG (res_out r1) ≠ SIGSTOP)
               ∧ report_status (res_out r1) (final (run true untraceable_process)) = Throw (system_error ESRCH "Failed to write 'go' event fd") (final (run true untraceable_process)))))
  ∨ ((system_error ESRCH "Failed to write 'go' event fd") = system_error (errno (os (final (run true untraceable_process)))) "Failed to write 'go' event fd"
     ∧ ∃ q n t,
         terminate true q = Ret tt (final (run true untraceable_process))
         ∧ calls t =
             calls (trace (os untraceable_process)) ++
             replicate (Datatypes.S n) (Waitpid (child_pid_ (self untraceable_process)) WNOHANG)
         ∧ ((∃ rw rc,
               self q = self untraceable_process
               ∧ trace (os q) =
                   t ++ [Sys (Write (child_event_fd_ (self untraceable_process))
                                (if true then CHILD_PTRACE else CHILD_GO) 8) rw;
                         Sys (Close (child_event_fd_ (self untraceable_process))) rc]
               ∧ res_ret rw < 0)
            ∨ (∃ rw rc r1 evs rd,
                 true = true
                 ∧ self q = in_state PTRACE_PAUSE (self untraceable_process)
                 ∧ trace (os q) =
                     t ++ [Sys (Write (child_event_fd_ (self untraceable_process)) CHILD_PTRACE 8) rw;
                           Sys (Close (child_event_fd_ (self untraceable_process))) rc;
                           Sys (Waitpid (child_pid_ (self untraceable_process)) 0) r1] ++
                     evs ++ [Sys (Ptrace PTRACE_DETACH (child_pid_ (self untraceable_process)) 0 0) rd]
                 ∧ 0 ≤ res_ret rw
                 ∧ WIFSTOPPED (res_out r1) = true ∧ WSTOPSIG (res_out r1) = SIGSTOP
                 ∧ try_block_failed (child_pid_ (self untraceable_process)) (res_out r1) evs)))).
Proof.
  split; [vm_compute; reflexivity |].
  apply (run_exceptions true untraceable_process
           (system_error ESRCH "Failed to write 'go' event fd")
           (final (run true untraceable_process))).
  vm_compute. reflexivity.
Defined.

(** The same run, call by call: the failed PTRACE_SETOPTIONS is answered
    by the detach and the calls of [terminate(true)], and the caller gets
    the one system error, with the error number of the failed request. *)
Example run_pause_setoptions_failure :
  ∃ p',
    run true untraceable_process =
      Throw (system_error ESRCH "Failed to write 'go' event fd") p'
    ∧ calls (trace (os p')) =
        [Waitpid 4242 WNOHANG; Write 3 CHILD_PTRACE 8; Close 3; Waitpid 4242 0;
         Ptrace PTRACE_SETOPTIONS 4242 0 PTRACE_O_TRACEEXEC;
         Ptrace PTRACE_DETACH 4242 0 0;
         Waitpid 4242 WNOHANG; Kill 4242 SIGKILL; Ptrace PTRACE_DETACH 4242 0 0;
         Waitpid 4242 0]
    ∧ state_ (self p') = DIED.
Proof. eexists. split; [vm_compute; reflexivity |]. vm_compute. done. Qed.
